(* ===== verification/_CoqProject ===== *)
-Q . S2P
Prelude.v
I2S.v
HighPass.v
Loudness.v
Quantizer.v
Spectrum.v
PeakExtractor.v
Detect.v
Tracker.v
TrackerSpec.v
MainLoop.v
Spiffs.v
Ftp.v
Recorder.v
I2SDriver.v
System.v
Diagnostics.v
SerialLog.v
Tables.v
