(* ===== verification/Prelude.v ===== *)
(** * A verification development for esp32BLEMidiFlute

    The program (sources under [src/source/src/]) turns an ESP32 with an
    INMP441 I2S microphone into a one-note BLE MIDI instrument.  Every
    iteration of [loop()] in [main.cpp] runs one analysis cycle:

    - [checkSleep] ([main.cpp]) puts the device into deep sleep when KEY1
      is held;
    - [detect_loop] ([detect.hpp]) reads one block of 512 32-bit words from
      I2S ([readI2SSamples]), converts it to normalised samples
      ([convertI2SToFloat]), removes DC with a streaming one-pole
      high-pass filter whose state survives across calls
      ([applyHighPassFilter]), measures the RMS level ([calculateRMS]),
      runs the arduinoFFT library (Hamming window, FFT, magnitudes),
      searches the band of bins [2, 160) for the largest magnitude,
      gates it against the threshold 0.2, refines it by parabolic
      interpolation and returns the frequency in Hz, or 0.0 for "no note";
    - [playNote] ([main.cpp]) maps the frequency to a MIDI number
      ([freqToMidi]) and, while KEY2 is held, emits BLE MIDI note-on /
      note-off messages, remembering the last note in [prevMidiNumber];
    - [commandHandler] ([commander.hpp]) and [handleFTPServer]
      ([main.cpp]) serve a serial command to record a WAV file
      ([record.hpp]) and a small FTP server on the SPIFFS file system.

    ** Files of the development (_CoqProject lists their compile order)

    - [Prelude] (this file): the number model, the exact floor of a
      binary logarithm of a rational ([Qlog2_floor]), C integer
      conversions, the [flute] hint database and tactics.
    - [I2S]: the audio source adapter ([readI2SSamples],
      [convertI2SToFloat]).
    - [HighPass]: the pre-processor ([applyHighPassFilter]) with its
      persistent [FilterState].
    - [Spectrum]: the interface ([Class FFTLib]) that the arduinoFFT
      library offers to the detector, with the laws the detector relies
      on; the library is not part of the sources and is modelled from
      the spec.
    - [PeakExtractor]: the band limits, the peak search loop and the
      parabolic interpolation of [detect_loop] / [detectMusicalNote].
    - [Loudness]: [calculateRMS] in real numbers (Stdlib [Reals]) and
      the [volumePercent] of [detect_loop] (a value the code never reads).
    - [Quantizer]: [freqToMidi] ([main.cpp]) and [frequencyToNote]
      ([detect.hpp]).
    - [Detect]: the whole of [detect_loop] and [detectMusicalNote],
      parameterised by an [FFTLib] instance.
    - [Tracker]: the note-event state machine [playNote] with its
      statics [prevMidiNumber] and [bleInitialised], and the MIDI calls
      it makes (stdpp sets for the notes sounding at the receiver).
    - [TrackerSpec]: the spec's tracker (section 4.5) as a state
      machine [Silent] / [Sounding m], and the refinement of it by
      [playNote] on streams of playable notes.
    - [MainLoop]: the audio path of [loop()] ([checkSleep], [detect_loop],
      [playNote]) as a step relation over its statics, with reachability
      and invariants, and [setup()] as the subsystems it starts;
      [checkSleep] over the KEY1 readings it makes, with its busy wait
      for the release of the key ([waitRelease]), which [loop] abstracts
      by the first reading.
    - [Spiffs]: the SPIFFS library as the program uses it (open for
      reading, open for writing, remove, the root listing), a list of
      files refined to a stdpp [gmap] from paths to contents.
    - [Ftp]: the FTP server of [main.cpp]: its globals
      [clientConnected], [dataConnected] and [currentDir] as
      [FtpState]; [handleFTPCommand] with every command, and
      [setupDataConnection], [listFiles], [sendFile], [receiveFile] and
      [handleFTPServer].  The Arduino [String] methods it calls
      ([indexOf], [substring], [toUpperCase], [trim], [startsWith],
      [String(int)]) are written out in [Module ArduinoString]; SPIFFS is
      the list of [Spiffs]; the network events a call
      waits for (a client arriving, [random(1000)], a data client within
      the timeout, the uploaded chunks) are inputs ([FtpEnv],
      [ServerInput]).
    - [Recorder]: [record_audio_to_wav] ([record.hpp]): the WAV header
      [create_wav_header] and its 44-byte image, the 24-bit packing of
      each I2S word, the recording loop over the I2S reads it receives
      (reusing [I2SRead]); and [commandHandler] ([commander.hpp]), which
      records into [/recording_<millis>.wav] on the file system the FTP
      server serves ([Spiffs.FS]).
    - [I2SDriver]: the driver set-up of both components, [initI2S] and
      [detect_setup] ([detect.hpp]), [init_i2s], [deinit_i2s] and the
      DMA clear of a recording ([record.hpp]), [commandSetup]
      ([commander.hpp]) and the tail [commandSetup(); detect_setup();]
      of [setup()], over the state of each I2S port; the ESP-IDF calls
      are modelled by their effect (a second install on a port in use
      fails and changes nothing).
    - [Diagnostics]: the start-up reports [displayStorageInfo],
      [formatBytes] and [displayClockInfo] ([main.cpp]) as the lines
      they print, with the rounding of [String(value, decimals)].
    - [SerialLog]: the text of the detector: the [String] of
      [frequencyToNote] and [detectMusicalNote], and the [Serial] output of
      [detect_loop], with the Arduino core's [Print::printNumber] and
      [Print::printFloat] written out.
    - [System]: the whole [loop()] ([loopAll]): the audio path of
      [MainLoop], then [commandHandler], then [handleFTPServer], over the
      device state (audio statics, FTP globals, files), with reachability
      from power-on across deep sleep.
    - [Tables]: [midinotes.h] and [midi_sounds.h] as the lists of their
      [#define]s, with macro expansion, checked against the rule
      [12 * (octave + 1) + pitch], the note names of [detect.hpp] and the
      constants [playNote] uses.

    ** Number model

    The C code computes with 32-bit [float] (and, in [freqToMidi], with
    [double] intermediates).  The development models every such value as
    an exact rational [Q]: additions, products and quotients are exact,
    comparisons are exact, and IEEE rounding is not modelled.  The two
    transcendental steps of the quantiser ([log2f] then [round], and
    [log] / [log] then a truncating [(int)] cast) are modelled exactly
    through [Qlog2_floor], the floor of the base-2 logarithm of a positive
    rational: for [r = (f/440)^24], [12 * log2 (f/440) = log2 r / 2], so
    rounding or truncating [69.5 + 12 log2 (f/440)] only needs
    [floor (log2 r)] (and [floor (log2 (1/r))] below zero).  Integer
    variables of the C code ([int], [int32_t]) are [Z]; C's [/] and [%]
    on [int] are [Z.quot] and [Z.rem] (truncation toward zero), the
    arithmetic right shift of a signed word is [Z.shiftr].

    ** What the theorems show (see PROJECT.json for the list)

    - I2S: the normalised samples lie in [[-1, 1)]; a short or failed
      read aborts the cycle.
    - HighPass: processing a stream in two blocks equals processing it
      in one (the filter state carries over); silence stays silence; the
      returned "peak" is the largest positive sample, not the largest
      absolute value.
    - PeakExtractor: the search loop computes the first maximal bin of
      the band; the parabolic offset lies in [[-1/2, 1/2]] and is zero on
      a symmetric profile.
    - Quantizer: [freqToMidi] is characterised by powers of two, maps
      440 Hz to 69 and is shifted by 12 per octave; [frequencyToNote]
      gives the wrong octave for notes below C4 (C truncating division).
    - Detect: a failed read returns 0.0 and keeps the filter state; a
      silent block yields 0.0; every non-zero estimate is within the
      band, hence never collides with the 0.0 sentinel.
    - Tracker / MainLoop: while the BLE link stays up, no note-on is ever
      sent for a note already sounding and at most one note sounds; a
      repeated note after a silence is never re-triggered; a held tone
      sends its note-on exactly once, on its first cycle; on playable
      notes [playNote] refines the spec's state machine, after the
      opening sequence; [checkSleep] sleeps exactly when KEY1 is read
      LOW and then released; the opening
      sequence is sent once per boot, before any note; every MIDI
      message is within MIDI's seven-bit ranges except the note-off for
      note -1 after start-up; a link drop,
      a read fault and KEY2 release each break one of the spec's
      promises (double note-on from any sounding note, spurious
      note-off, no mute); deep sleep leaves the sounding note on for
      good: after the reboot, no run of [loop()] with the link up
      switches it off unless the note is played again; a SPIFFS failure
      at [setup()] leaves the instrument mute.
    - Loudness: the RMS level is zero exactly on silence and is bounded
      by the sample bound.
    - Spiffs / Ftp: with no path listed twice, each FTP command changes
      the files exactly by the map operation it stands for (refinement);
      the [sendFile] loop terminates after [ceil (n / 512)] rounds;
      upload then download returns the bytes uploaded; [USER] / [PASS] never gate anything; a missing [RETR]
      file is reported with [550] then [226]; [DELE /name] misses
      [/name]; [dataConnected] implies [clientConnected] along every run;
      [String(n)] prints digits that read back as [n], so the [227]
      reply gives back the passive port.
    - System: one iteration of the whole [loop()] changes the files,
      seen as a finite map, by the recording's operation and then by the
      FTP command's (refinement), keeps them when it goes to sleep, and
      hangs only in a recording that never gets its samples; the FTP
      invariant and the MIDI opening-sequence invariant hold together
      along every run.
    - Recorder: the header bytes read back as a consistent WAV header;
      the 24-bit packing is lossless; the audio buffer is never overrun
      and ends exactly full; a recording started with 'g' ends, when the
      reads deliver, and is then downloaded over FTP with its header.
    - Diagnostics: [formatBytes] shows every 32-bit byte count in the
      largest unit it reaches, within half a tenth of that unit (and shows [1024.0
      KB] just under a megabyte); the storage report gives the free space
      and the usage percentage while [usedBytes * 100] fits 32 bits.
    - SerialLog: from C4 up, [frequencyToNote] prints the name and the
      octave of the nearest equal-tempered note in scientific pitch
      notation and the frequency to the nearest tenth of a hertz; [printNumber] reads back
      in its base, and the time [detect_loop] logs is printed in base 6,
      which reads as the time only below 6 ms.
    - I2SDriver: the detector and the recorder configure port 0 alike,
      so the order of their set-ups does not matter and, along any
      sequence of set-ups, de-initialisations and recordings, port 0 is
      off or runs with the recorder's configuration, at the rate of the
      FFT and of the WAV header.
    - Representations: a [float] is modelled by a [Q], which has many
      representations of one value; the C comparisons ([Qltb],
      [Qle_bool]), [Qlog2_floor] on positive values, [freqToMidi],
      [playNote] and the text of [frequencyToNote] are [Proper] for
      [Qeq], so the results depend on the values only and setoid
      rewriting applies under them.

    ** Fuel and bounds

    The loops of the code are structural over the block ([hpLoop],
    [peakLoop], [sumSquares]) except two.  [decimal_aux] takes fuel: 64
    digits, enough for every value below [10^64] (an [int] has at most
    10).  The [while (file.available())] loop of [sendFile] is [sendLoop],
    defined with Equations by well-founded recursion on the bytes left,
    each round reading at least one; [sendFile_loop_terminates] counts
    its rounds.  The
    recording loop is structural over the list of I2S reads it is given;
    it returns [None] when they run out, and [recordLoop_some] gives the
    number of reads that suffices.

    ** Not modelled

    The arduinoFFT library itself (floating-point trigonometry), the
    implementations of the I2S, BLE, WiFi and SPIFFS drivers (the I2S
    driver's set-up calls are modelled by their effect on the port, the
    samples it delivers are inputs), the delays, and the [Serial]
    logging of [playNote], the recorder, the FTP server and the
    [printf] diagnostics of [detectMusicalNote] (the start-up reports
    are modelled in [Diagnostics], the detector's text in [SerialLog]);
    [setup()] is kept as the set of subsystems it starts and the I2S
    set-up it performs. *)

From Stdlib Require Export ZArith QArith Qround Qpower Qabs Lqa Psatz Lia List Morphisms.
Export ListNotations.

Declare Scope flute_scope.
Delimit Scope flute_scope with flute.

(** ** C comparisons on the rational model of [float] *)

(** [x < y] as the C expression computes it. *)
Definition Qltb (x y : Q) : bool := negb (Qle_bool y x).

Infix "<?" := Qltb : flute_scope.
Infix "<=?" := Qle_bool : flute_scope.
Infix "=?" := Qeq_bool : flute_scope.

Lemma Qltb_lt (x y : Q) : Qltb x y = true <-> (x < y)%Q.
Proof.
  unfold Qltb. rewrite Bool.negb_true_iff. split.
  - intros H. apply Qnot_le_lt. rewrite <- Qle_bool_iff, H. discriminate.
  - intros H. destruct (Qle_bool y x) eqn:E; [|reflexivity].
    apply Qle_bool_iff in E. exfalso. apply (Qlt_not_le x y); assumption.
Qed.

Lemma Qltb_ge (x y : Q) : Qltb x y = false <-> (y <= x)%Q.
Proof.
  unfold Qltb. rewrite Bool.negb_false_iff. apply Qle_bool_iff.
Qed.

(** The C comparisons depend only on the values compared, so functions
    built from them respect [Qeq] and setoid rewriting applies. *)
#[export] Instance Qle_bool_proper : Proper (Qeq ==> Qeq ==> eq) Qle_bool.
Proof.
  intros x x' Hx y y' Hy. destruct (Qle_bool x y) eqn:E, (Qle_bool x' y') eqn:E'; auto.
  - apply Qle_bool_iff in E. rewrite Hx, Hy, <- Qle_bool_iff, E' in E. discriminate.
  - apply Qle_bool_iff in E'. rewrite <- Hx, <- Hy, <- Qle_bool_iff, E in E'. discriminate.
Qed.

#[export] Instance Qltb_proper : Proper (Qeq ==> Qeq ==> eq) Qltb.
Proof. intros x x' Hx y y' Hy. unfold Qltb. now rewrite Hx, Hy. Qed.

(** Case analysis on a C comparison, leaving the proposition it decides. *)
Ltac qcase x y :=
  let E := fresh "E" in
  destruct (Qltb x y) eqn:E;
  [apply Qltb_lt in E | apply Qltb_ge in E].

Ltac qlecase x y :=
  let E := fresh "E" in
  destruct (Qle_bool x y) eqn:E;
  [apply Qle_bool_iff in E | apply Bool.not_true_iff_false in E;
                             rewrite Qle_bool_iff in E; apply Qnot_le_lt in E].

(** [lia] after turning C divisions ([Z.quot], [Z.rem]) and Euclidean
    divisions by constants into linear equations. *)
Ltac zlia := Z.quot_rem_to_equations; Z.div_mod_to_equations; lia.

(** Decide a comparison between closed rationals by evaluation. *)
Ltac qdecide :=
  match goal with
  | |- Qle _ _ => apply Qle_bool_iff; vm_compute; reflexivity
  | |- Qlt _ _ => apply Qltb_lt; vm_compute; reflexivity
  | |- Qeq _ _ => apply Qeq_bool_iff; vm_compute; reflexivity
  end.

(** ** C conversions *)

(** The C cast [(int)x] of a non-negative or negative [float]: truncation
    toward zero. *)
Definition c_trunc (q : Q) : Z :=
  if Qle_bool 0 q then Qfloor q else (- Qfloor (- q))%Z.

Lemma c_trunc_nonneg (q : Q) : (0 <= q)%Q -> c_trunc q = Qfloor q.
Proof. intros H. unfold c_trunc. apply Qle_bool_iff in H. now rewrite H. Qed.

(** A block is silent when every sample equals zero. *)
Definition all_zero (v : list Q) : Prop := Forall (fun x => Qeq x 0) v.

(** ** Powers of two and the floor of a binary logarithm *)

Open Scope Q_scope.

Lemma Qpow2_pos (k : Z) : 0 < 2 ^ k.
Proof. apply Qpower_0_lt. lra. Qed.

Lemma Qpow2_inject (k : Z) : (0 <= k)%Z -> 2 ^ k == inject_Z (2 ^ k).
Proof. intros Hk. rewrite (Zpower_Qpower 2 k Hk). reflexivity. Qed.

Lemma Qpow2_add (j k : Z) : 2 ^ (j + k) == 2 ^ j * 2 ^ k.
Proof. apply Qpower_plus. lra. Qed.

Lemma Qpow2_le_mono (j k : Z) : (j <= k)%Z -> 2 ^ j <= 2 ^ k.
Proof. intros; apply Qpower_le_compat_l; [lia | lra]. Qed.

Lemma Qpow2_lt_mono (j k : Z) : (j < k)%Z -> 2 ^ j < 2 ^ k.
Proof. intros; apply Qpower_lt_compat_l; [lia | lra]. Qed.

(** [Qlog2_floor q] is [floor (log2 q)] for [q > 0]: the difference of the
    integer logarithms of numerator and denominator is the answer or one
    more, and one exact comparison decides which. *)
Definition Qlog2_floor (q : Q) : Z :=
  let k := (Z.log2 (Qnum q) - Z.log2 (Zpos (Qden q)))%Z in
  if Qle_bool (2 ^ k) q then k else (k - 1)%Z.

Lemma Qlog2_bracket (p : Z) (d : positive) :
  (0 < p)%Z ->
  let k := (Z.log2 p - Z.log2 (Zpos d))%Z in
  2 ^ (k - 1) <= p # d /\ p # d < 2 ^ (k + 1).
Proof.
  intros Hp k.
  destruct (Z.log2_spec p Hp) as [Hp1 Hp2].
  destruct (Z.log2_spec (Zpos d) eq_refl) as [Hd1 Hd2].
  pose proof (Z.log2_nonneg p). pose proof (Z.log2_nonneg (Zpos d)).
  set (a := Z.log2 p) in *. set (b := Z.log2 (Zpos d)) in *.
  assert (Hq : p # d == inject_Z p / inject_Z (Zpos d)).
  { unfold Qdiv, Qmult, Qinv, inject_Z, Qeq; simpl; lia. }
  assert (HdQ : 0 < inject_Z (Zpos d)) by (unfold Qlt; simpl; lia).
  rewrite Hq; split.
  - apply Qle_shift_div_l; [exact HdQ|].
    apply Qle_trans with (2 ^ (k - 1) * 2 ^ (b + 1)).
    + apply Qmult_le_l; [apply Qpow2_pos|].
      rewrite Qpow2_inject by lia. rewrite <- Zle_Qle. unfold Z.succ in Hd2; lia.
    + rewrite <- Qpow2_add. replace (k - 1 + (b + 1))%Z with a by (unfold k; lia).
      rewrite Qpow2_inject by lia. rewrite <- Zle_Qle. lia.
  - apply Qlt_shift_div_r; [exact HdQ|].
    apply Qlt_le_trans with (2 ^ (k + 1) * 2 ^ b).
    + rewrite <- Qpow2_add. replace (k + 1 + b)%Z with (Z.succ a) by (unfold k; lia).
      rewrite Qpow2_inject by lia. rewrite <- Zlt_Qlt. lia.
    + apply Qmult_le_l; [apply Qpow2_pos|].
      rewrite Qpow2_inject by lia. rewrite <- Zle_Qle. lia.
Qed.

Lemma Qlog2_floor_spec (q : Q) :
  0 < q -> 2 ^ Qlog2_floor q <= q /\ q < 2 ^ (Qlog2_floor q + 1).
Proof.
  destruct q as [p d]. intros Hq.
  assert (Hp : (0 < p)%Z) by (unfold Qlt in Hq; simpl in Hq; lia).
  destruct (Qlog2_bracket p d Hp) as [Hlo Hhi].
  unfold Qlog2_floor; cbn [Qnum Qden].
  destruct (Qle_bool _ _) eqn:E.
  - apply Qle_bool_iff in E. split; assumption.
  - split; [assumption|]. rewrite Z.sub_add.
    apply Qnot_le_lt. rewrite <- Qle_bool_iff, E. discriminate.
Qed.

Lemma Qlog2_floor_unique (q : Q) (j : Z) :
  2 ^ j <= q -> q < 2 ^ (j + 1) -> Qlog2_floor q = j.
Proof.
  intros Hlo Hhi.
  assert (Hq : 0 < q) by (apply Qlt_le_trans with (2 ^ j); [apply Qpow2_pos | exact Hlo]).
  destruct (Qlog2_floor_spec q Hq) as [Hl Hh].
  destruct (Z.lt_trichotomy (Qlog2_floor q) j) as [Hlt|[Heq|Hgt]]; [exfalso| exact Heq | exfalso].
  - pose proof (Qpow2_le_mono (Qlog2_floor q + 1) j ltac:(lia)). lra.
  - pose proof (Qpow2_le_mono (j + 1) (Qlog2_floor q) ltac:(lia)). lra.
Qed.

Lemma Qlog2_floor_ge_iff (q : Q) (j : Z) :
  0 < q -> (j <= Qlog2_floor q)%Z <-> 2 ^ j <= q.
Proof.
  intros Hq. destruct (Qlog2_floor_spec q Hq) as [Hl Hh]. split; intros H.
  - apply Qle_trans with (2 ^ Qlog2_floor q); [apply Qpow2_le_mono|]; assumption.
  - destruct (Z.le_gt_cases j (Qlog2_floor q)) as [|Hgt]; [assumption|].
    pose proof (Qpow2_le_mono (Qlog2_floor q + 1) j ltac:(lia)). lra.
Qed.

Lemma Qlog2_floor_lt_iff (q : Q) (j : Z) :
  0 < q -> (Qlog2_floor q < j)%Z <-> q < 2 ^ j.
Proof.
  intros Hq. pose proof (Qlog2_floor_ge_iff q j Hq). split; intros H'.
  - apply Qnot_le_lt. rewrite <- H. lia.
  - destruct (Z.lt_ge_cases (Qlog2_floor q) j) as [|Hge]; [assumption|].
    apply H in Hge. lra.
Qed.

Lemma Qlog2_floor_mono (q q' : Q) :
  0 < q -> q <= q' -> (Qlog2_floor q <= Qlog2_floor q')%Z.
Proof.
  intros Hq Hle. apply Qlog2_floor_ge_iff; [lra|].
  apply Qle_trans with q; [apply Qlog2_floor_spec|]; assumption.
Qed.

(** Below a power of two [2^-k] the reciprocal is above [2^k]. *)
Lemma Qlog2_floor_inv_ge (q : Q) (k : Z) :
  0 < q -> q < 2 ^ (- k) -> (k <= Qlog2_floor (/ q))%Z.
Proof.
  intros Hq Hlt. apply Qlog2_floor_ge_iff; [apply Qinv_lt_0_compat; exact Hq|].
  apply Qlt_le_weak. rewrite <- (Qinv_involutive (2 ^ k)).
  apply (Qinv_lt_contravar q (/ 2 ^ k) Hq); [apply Qinv_lt_0_compat, Qpow2_pos |].
  rewrite <- Qpower_opp. exact Hlt.
Qed.

(** Above a power of two [2^-k] the reciprocal is below [2^k]. *)
Lemma Qlog2_floor_inv_lt (q : Q) (k : Z) :
  0 < q -> 2 ^ (- k) < q -> (Qlog2_floor (/ q) < k)%Z.
Proof.
  intros Hq Hlt. apply Qlog2_floor_lt_iff; [apply Qinv_lt_0_compat; exact Hq|].
  rewrite <- (Qinv_involutive (2 ^ k)).
  apply (Qinv_lt_contravar (/ 2 ^ k) q); [apply Qinv_lt_0_compat, Qpow2_pos | exact Hq |].
  rewrite <- Qpower_opp. exact Hlt.
Qed.

(** Division by a positive constant, in the form [lra] understands. *)
Lemma Qdiv_pos_const (x : Q) (p : positive) : x / (Zpos p # 1) == (1 # p) * x.
Proof. unfold Qdiv. rewrite Qmult_comm. reflexivity. Qed.

(** [lra] after turning divisions by constants into products. *)
Ltac qlra := repeat rewrite Qdiv_pos_const in *; lra.

(** The binary logarithm of a positive value does not depend on its
    representation. *)
Lemma Qlog2_floor_compat (q q' : Q) : 0 < q -> q == q' -> Qlog2_floor q = Qlog2_floor q'.
Proof.
  intros Hq Heq. destruct (Qlog2_floor_spec q Hq) as [Hl Hh].
  symmetry. apply Qlog2_floor_unique; rewrite <- Heq; assumption.
Qed.

Create HintDb flute.
#[export] Hint Resolve Qpow2_pos Qpow2_le_mono Qpow2_lt_mono : flute.
