(* ===== verification/I2S.v ===== *)
(** * Audio source: [readI2SSamples] and [convertI2SToFloat] (detect.hpp)

    One call of [i2s_read] fills [int32_t i2sBuffer[SAMPLES]]; the driver
    reports a status and a byte count, which this file takes as the
    inputs of a cycle ([I2SRead]).  The INMP441 puts a 24-bit sample in
    the upper bits of each 32-bit word; the conversion shifts it down
    arithmetically and divides by [2^23]. *)

From S2P Require Import Prelude.
Open Scope Q_scope.

Module I2S.

(** [#define SAMPLES 512], [#define SAMPLING_FREQUENCY 16000]. *)
Definition SAMPLES : Z := 512.
Definition SAMPLING_FREQUENCY : Z := 16000.

(** [ESP_OK] of [esp_err_t]. *)
Definition ESP_OK : Z := 0.

(** What one [i2s_read(I2S_PORT, i2sBuffer, sizeof(i2sBuffer),
    &bytes_read, portMAX_DELAY)] returns: the status, the byte count
    and the words written into [i2sBuffer]. *)
Record I2SRead := mkI2SRead {
  i2s_result : Z;
  bytes_read : Z;
  i2sBuffer : list Z
}.

(** [sizeof(i2sBuffer)]: [SAMPLES] words of four bytes. *)
Definition i2sBufferBytes : Z := 4 * SAMPLES.

(** [readI2SSamples]: success only for [ESP_OK] and a full buffer. *)
Definition readI2SSamples (rd : I2SRead) : bool :=
  (i2s_result rd =? ESP_OK)%Z && (bytes_read rd =? i2sBufferBytes)%Z.

(** A signed 32-bit word. *)
Definition is_int32 (w : Z) : Prop := (- 2 ^ 31 <= w < 2 ^ 31)%Z.

(** [int32_t sample24 = i2sBuffer[i] >> 8;
     vReal[i] = (float)sample24 / 8388608.0f;] *)
Definition sampleToFloat (w : Z) : Q := inject_Z (Z.shiftr w 8) / 8388608.

(** [convertI2SToFloat]: the loop over [i < SAMPLES] writes [vReal[i]] and
    clears [vImag[i]]; it returns the pair [(vReal, vImag)]. *)
Definition convertI2SToFloat (buf : list Z) : list Q * list Q :=
  (map (fun i => sampleToFloat (nth i buf 0%Z)) (seq 0 (Z.to_nat SAMPLES)),
   map (fun _ => 0) (seq 0 (Z.to_nat SAMPLES))).

(** ** Properties *)

Lemma sampleToFloat_bounds (w : Z) :
  is_int32 w -> -1 <= sampleToFloat w /\ sampleToFloat w < 1.
Proof.
  unfold is_int32, sampleToFloat. intros Hw.
  rewrite Z.shiftr_div_pow2 by lia. change (2 ^ 8)%Z with 256%Z.
  assert (Hk : (-8388608 <= w / 256 < 8388608)%Z) by (cbn in Hw; zlia).
  destruct Hk as [Hk1 Hk2]. rewrite Zle_Qle in Hk1. rewrite Zlt_Qlt in Hk2.
  change (inject_Z (-8388608)) with (-8388608 # 1) in Hk1.
  change (inject_Z 8388608) with (8388608 # 1) in Hk2.
  split.
  - apply Qle_shift_div_l; [reflexivity|]. lra.
  - apply Qlt_shift_div_r; [reflexivity|]. lra.
Qed.

Lemma convertI2SToFloat_length (buf : list Z) :
  length (fst (convertI2SToFloat buf)) = Z.to_nat SAMPLES /\
  length (snd (convertI2SToFloat buf)) = Z.to_nat SAMPLES.
Proof. cbn [fst snd convertI2SToFloat]. now rewrite !length_map, length_seq. Qed.

(** C16. Every sample the conversion produces from a buffer of signed
    32-bit words is normalised into [[-1, 1)], and the block has exactly
    [SAMPLES] samples. *)
Theorem convertI2SToFloat_bounds (buf : list Z) :
  Forall is_int32 buf ->
  length (fst (convertI2SToFloat buf)) = 512%nat /\
  Forall (fun x => -1 <= x /\ x < 1) (fst (convertI2SToFloat buf)).
Proof.
  intros Hbuf. split; [apply convertI2SToFloat_length|].
  apply Forall_map, Forall_forall. intros i _. apply sampleToFloat_bounds.
  destruct (Nat.lt_ge_cases i (length buf)) as [Hi|Hi].
  - apply (proj1 (Forall_forall _ _) Hbuf), nth_In, Hi.
  - rewrite nth_overflow by exact Hi. unfold is_int32; lia.
Qed.

Lemma convertI2SToFloat_bounds_witness :
  Forall is_int32 [(- 2 ^ 31)%Z; (2 ^ 31 - 1)%Z] /\
  length (fst (convertI2SToFloat [(- 2 ^ 31)%Z; (2 ^ 31 - 1)%Z])) = 512%nat /\
  Forall (fun x => -1 <= x /\ x < 1)
    (fst (convertI2SToFloat [(- 2 ^ 31)%Z; (2 ^ 31 - 1)%Z])).
Proof.
  assert (H : Forall is_int32 [(- 2 ^ 31)%Z; (2 ^ 31 - 1)%Z])
    by (repeat constructor; unfold is_int32; lia).
  split; [exact H | apply convertI2SToFloat_bounds; exact H].
Defined.

(** A buffer of zero words converts to a block of zero samples. *)
Lemma convertI2SToFloat_zero (n : nat) :
  all_zero (fst (convertI2SToFloat (repeat 0%Z n))) /\
  all_zero (snd (convertI2SToFloat (repeat 0%Z n))).
Proof.
  split; [|apply Forall_map, Forall_forall; intros; reflexivity].
  apply Forall_map, Forall_forall. intros i _.
  destruct (Nat.lt_ge_cases i n) as [Hi|Hi].
  - rewrite nth_repeat_lt by exact Hi. reflexivity.
  - rewrite nth_overflow by (rewrite repeat_length; exact Hi). reflexivity.
Qed.

End I2S.
