(* ===== verification/HighPass.v ===== *)
(** * Pre-processor: [applyHighPassFilter] (detect.hpp)

    A one-pole high-pass filter [y[i] = alpha * (y[i-1] + x[i] - x[i-1])]
    with [alpha = 0.95].  Its two [static] variables [previousSample] and
    [previousOutput] survive from one call to the next, so the filter runs
    on the stream of blocks, not block by block; [FilterState] holds them
    and every call returns the updated state.  The call also returns a
    "peak", the largest sample it saw above its starting value [0.0].
    Each output is stored as a reduced fraction ([Qred], the same
    rational value), as a [float] variable holds one number. *)

From S2P Require Import Prelude.
Open Scope Q_scope.

Module HighPass.

(** [static float previousSample, previousOutput]. *)
Record FilterState := mkFilter {
  previousSample : Q;
  previousOutput : Q
}.

(** Both statics start at [0.0f]. *)
Definition filter0 : FilterState := mkFilter 0 0.

(** [const float alpha = 0.95f;] *)
Definition alpha : Q := 95 # 100.

(** The loop [for (int i = 0; i < SAMPLES; i++)] over [vReal], carrying
    the statics and the running [peak]; it returns the filtered block,
    the peak and the statics after the loop. *)
Fixpoint hpLoop (st : FilterState) (peak : Q) (vReal : list Q)
  : list Q * Q * FilterState :=
  match vReal with
  | [] => ([], peak, st)
  | currentSample :: rest =>
      let peak' := if Qltb peak currentSample then currentSample else peak in
      let output := Qred (alpha * (previousOutput st + currentSample - previousSample st)) in
      let '(outs, pk, st') := hpLoop (mkFilter currentSample output) peak' rest in
      (output :: outs, pk, st')
  end.

(** [float applyHighPassFilter()]: [peak] starts at [0.0]. *)
Definition applyHighPassFilter (st : FilterState) (vReal : list Q)
  : list Q * Q * FilterState :=
  hpLoop st 0 vReal.

(** Filtered block and statics after a call, without the peak. *)
Definition filtered (st : FilterState) (vReal : list Q) : list Q * FilterState :=
  let '(outs, _, st') := applyHighPassFilter st vReal in (outs, st').

(** ** The loop over a concatenation *)

Lemma hpLoop_app (st : FilterState) (peak : Q) (xs ys : list Q) :
  hpLoop st peak (xs ++ ys) =
  let '(o1, p1, s1) := hpLoop st peak xs in
  let '(o2, p2, s2) := hpLoop s1 p1 ys in
  (o1 ++ o2, p2, s2).
Proof.
  revert st peak. induction xs as [|x xs IH]; intros st peak; cbn [app hpLoop].
  - destruct (hpLoop st peak ys) as [[? ?] ?]; reflexivity.
  - rewrite IH.
    destruct (hpLoop _ _ xs) as [[o1 p1] s1].
    destruct (hpLoop s1 p1 ys) as [[o2 p2] s2]. reflexivity.
Qed.

(** The outputs and statics of the loop do not depend on the running
    peak. *)
Lemma hpLoop_peak_irrelevant (st : FilterState) (p p' : Q) (xs : list Q) :
  let '(o, _, s) := hpLoop st p xs in
  let '(o', _, s') := hpLoop st p' xs in
  o = o' /\ s = s'.
Proof.
  revert st p p'. induction xs as [|x xs IH]; intros st p p'; cbn [hpLoop]; [auto|].
  specialize (IH (mkFilter x (Qred (alpha * (previousOutput st + x - previousSample st))))
                 (if Qltb p x then x else p) (if Qltb p' x then x else p')).
  destruct (hpLoop _ (if Qltb p x then x else p) xs) as [[o1 p1] s1].
  destruct (hpLoop _ (if Qltb p' x then x else p') xs) as [[o2 p2] s2].
  destruct IH as [-> ->]. auto.
Qed.

(** C4. Because the statics persist, running the filter on two
    consecutive blocks gives the same filtered samples and the same final
    statics as running it once on the concatenated stream: block
    boundaries introduce no edge transient. *)
Theorem applyHighPassFilter_streaming (st : FilterState) (xs ys : list Q) :
  let '(o1, s1) := filtered st xs in
  let '(o2, s2) := filtered s1 ys in
  (o1 ++ o2, s2) = filtered st (xs ++ ys).
Proof.
  unfold filtered, applyHighPassFilter. rewrite hpLoop_app.
  destruct (hpLoop st 0 xs) as [[o1 p1] s1].
  pose proof (hpLoop_peak_irrelevant s1 0 p1 ys) as Hirr.
  destruct (hpLoop s1 0 ys) as [[o2 p2] s2].
  destruct (hpLoop s1 p1 ys) as [[o2' p2'] s2'].
  destruct Hirr as [-> ->]. reflexivity.
Qed.

(** ** DC removal *)

Lemma alpha_pow_succ (k : nat) :
  alpha ^ Z.of_nat (S k) == alpha * alpha ^ Z.of_nat k.
Proof.
  rewrite Nat2Z.inj_succ, <- Z.add_1_l, Qpower_plus by (unfold alpha; discriminate).
  reflexivity.
Qed.

Lemma hpLoop_constant (c y p : Q) (n : nat) :
  let '(o, _, s) := hpLoop (mkFilter c y) p (repeat c n) in
  length o = n /\
  (forall k, (k < n)%nat -> nth k o 0 == alpha ^ Z.of_nat (S k) * y) /\
  previousSample s = c /\ previousOutput s == alpha ^ Z.of_nat n * y.
Proof.
  revert y p. induction n as [|n IH]; intros y p; cbn [repeat hpLoop].
  - repeat split; [intros k Hk; lia | cbn; ring].
  - cbn [previousOutput previousSample].
    specialize (IH (Qred (alpha * (y + c - c))) (if Qltb p c then c else p)).
    destruct (hpLoop _ _ (repeat c n)) as [[o pk] s].
    destruct IH as (Hlen & Hnth & Hs & Ho). repeat split.
    + cbn. now rewrite Hlen.
    + intros [|k] Hk; cbn [nth].
      * rewrite Qred_correct. cbn. ring.
      * rewrite Hnth by lia. rewrite Qred_correct, (alpha_pow_succ (S k)), alpha_pow_succ. ring.
    + exact Hs.
    + rewrite Ho, Qred_correct, (alpha_pow_succ n). ring.
Qed.

(** C13. DC removal: on a constant input equal to the last sample seen,
    the filter output is [alpha^(k+1) * y] at position [k], where [y] is
    the last output: a constant offset decays geometrically and is not
    passed on; in particular silence after silence stays exactly zero. *)
Theorem applyHighPassFilter_constant (c y : Q) (n : nat) :
  let '(o, _, s) := applyHighPassFilter (mkFilter c y) (repeat c n) in
  (forall k, (k < n)%nat -> nth k o 0 == alpha ^ Z.of_nat (S k) * y) /\
  previousSample s = c /\ previousOutput s == alpha ^ Z.of_nat n * y.
Proof.
  unfold applyHighPassFilter. pose proof (hpLoop_constant c y 0 n) as H.
  destruct (hpLoop _ _ _) as [[o pk] s]. tauto.
Qed.

(** A silent block through a silent filter is silent, and the statics
    stay at zero. *)
Lemma hpLoop_silence (st : FilterState) (p : Q) (v : list Q) :
  previousSample st == 0 -> previousOutput st == 0 -> all_zero v ->
  let '(o, _, s) := hpLoop st p v in
  all_zero o /\ previousSample s == 0 /\ previousOutput s == 0.
Proof.
  revert st p. induction v as [|x v IH]; intros st p Hs Ho Hv; cbn [hpLoop]; [auto|].
  inversion Hv as [|? ? Hx Hv']; subst.
  assert (Hout : Qred (alpha * (previousOutput st + x - previousSample st)) == 0)
    by (rewrite Qred_correct, Hs, Ho, Hx; reflexivity).
  specialize (IH (mkFilter x (Qred (alpha * (previousOutput st + x - previousSample st))))
                 (if Qltb p x then x else p) Hx Hout Hv').
  destruct (hpLoop _ _ v) as [[o pk] s]. destruct IH as (Ho' & Hs1 & Hs2).
  split; [constructor; assumption | auto].
Qed.

(** ** The peak *)

Lemma hpLoop_peak (st : FilterState) (p : Q) (v : list Q) :
  let pk := snd (fst (hpLoop st p v)) in
  p <= pk /\ (forall x, In x v -> x <= pk) /\ (pk = p \/ In pk v).
Proof.
  revert st p. induction v as [|x v IH]; intros st p; cbn [hpLoop].
  - cbn. intuition (try lra).
  - specialize (IH (mkFilter x (Qred (alpha * (previousOutput st + x - previousSample st))))
                   (if Qltb p x then x else p)).
    destruct (hpLoop _ _ v) as [[o pk] s]. cbn [fst snd] in *.
    destruct IH as (Hp & Hall & Hin).
    qcase p x; repeat split.
    + lra.
    + intros y [<-|Hy]; [exact Hp | apply Hall, Hy].
    + destruct Hin as [->|Hin]; right; [left|right]; auto.
    + exact Hp.
    + intros y [<-|Hy]; [lra | apply Hall, Hy].
    + destruct Hin as [->|Hin]; [left|right; right]; auto.
Qed.

(** C19. The "peak" [applyHighPassFilter] returns is the largest sample of
    the block when some sample is positive, and [0.0] otherwise: it is
    [max(0, max v)], not the largest absolute value the spec describes
    (a block [[-0.5]] has peak 0). *)
Theorem applyHighPassFilter_peak (st : FilterState) (v : list Q) :
  let pk := snd (fst (applyHighPassFilter st v)) in
  0 <= pk /\ (forall x, In x v -> x <= pk) /\ (pk = 0 \/ In pk v).
Proof. apply hpLoop_peak. Qed.

End HighPass.
