(* ===== verification/Loudness.v ===== *)
(** * Loudness meter: [calculateRMS] and the volume of [detect_loop] (detect.hpp)

    [calculateRMS] sums the squares of the filtered block and returns
    [sqrtf (sum / SAMPLES)]; [detect_loop] calls it right after
    [applyHighPassFilter] (before the FFT overwrites [vReal]) and scales it
    into [int volumePercent = min(100, (int)(rmsLevel * 150000.0f))].
    The square root is a real number: [calculateRMS] is stated in [R]
    (Stdlib Reals).  [volumePercent] is a dead store in the source: no
    statement reads it. *)

From S2P Require Import Prelude I2S.
From Stdlib Require Import Reals Qreals Lra Psatz.
Open Scope Q_scope.

Module Loudness.
Import I2S.

(** [for (i < SAMPLES) sum += vReal[i] * vReal[i];] with [sum = 0.0f];
    the running sum is stored reduced, as the filter's outputs are. *)
Definition sumSquares (vReal : list Q) : Q :=
  fold_left (fun sum x => Qred (sum + x * x)) vReal 0.

(** [sum / SAMPLES]: the square of the RMS level. *)
Definition meanSquare (vReal : list Q) : Q := sumSquares vReal / inject_Z SAMPLES.

(** [return sqrtf(sum / SAMPLES);] *)
Definition calculateRMS (vReal : list Q) : R := sqrt (Q2R (meanSquare vReal)).

(** [min(100, (int)(rmsLevel * 150000.0f))]; the product is non-negative,
    so the cast is the floor ([Int_part]). *)
Definition volumePercent (rmsLevel : R) : Z := Z.min 100 (Int_part (rmsLevel * 150000)).

(** ** Properties *)

Lemma sumSquares_acc_nonneg (v : list Q) (acc : Q) :
  0 <= acc -> 0 <= fold_left (fun sum x => Qred (sum + x * x)) v acc.
Proof.
  revert acc. induction v as [|x v IH]; intros acc Hacc; [exact Hacc|].
  cbn [fold_left]. apply IH. rewrite Qred_correct. nra.
Qed.

Lemma meanSquare_nonneg (v : list Q) : 0 <= meanSquare v.
Proof.
  unfold meanSquare. change (inject_Z SAMPLES) with (512 # 1). rewrite Qdiv_pos_const.
  pose proof (sumSquares_acc_nonneg v 0 (Qle_refl 0)). unfold sumSquares. lra.
Qed.

Lemma sumSquares_acc (v : list Q) (acc : Q) :
  fold_left (fun sum x => Qred (sum + x * x)) v acc ==
  acc + fold_left (fun sum x => Qred (sum + x * x)) v 0.
Proof.
  revert acc. induction v as [|x v IH]; intros acc; cbn [fold_left]; [ring|].
  rewrite IH, (IH (Qred (0 + x * x))), !Qred_correct. ring.
Qed.

Lemma sumSquares_zero_iff (v : list Q) : sumSquares v == 0 <-> all_zero v.
Proof.
  unfold sumSquares, all_zero. induction v as [|x v IH]; cbn [fold_left].
  - split; [constructor | reflexivity].
  - rewrite sumSquares_acc, Qred_correct, Forall_cons_iff, <- IH.
    pose proof (sumSquares_acc_nonneg v 0 (Qle_refl 0)). split.
    + intros H0. assert (Hx : x * x == 0) by nra. split; [|nra].
      destruct (Qmult_integral x x Hx); assumption.
    + intros [Hx Hv]. rewrite Hx, Hv. reflexivity.
Qed.

(** The RMS level is zero exactly on a silent block. *)
Theorem calculateRMS_zero_iff (v : list Q) : calculateRMS v = 0%R <-> all_zero v.
Proof.
  unfold calculateRMS. rewrite <- sumSquares_zero_iff.
  pose proof (meanSquare_nonneg v) as Hms.
  assert (HmsR : (0 <= Q2R (meanSquare v))%R)
    by (rewrite <- RMicromega.Q2R_0; apply Qle_Rle, Hms).
  unfold meanSquare. change (inject_Z SAMPLES) with (512 # 1). fold (meanSquare v) in HmsR.
  split.
  - intros H0. apply sqrt_eq_0 in H0; [|exact HmsR].
    rewrite <- RMicromega.Q2R_0 in H0. apply eqR_Qeq in H0.
    unfold meanSquare in H0. change (inject_Z SAMPLES) with (512 # 1) in H0.
    rewrite Qdiv_pos_const in H0. lra.
  - intros H0. unfold meanSquare. change (inject_Z SAMPLES) with (512 # 1).
    rewrite Qdiv_pos_const, H0. rewrite Qmult_0_r, RMicromega.Q2R_0. apply sqrt_0.
Qed.

(** The RMS level of a block of [SAMPLES] samples all within [[-M, M]]
    is at most [M]. *)
Theorem calculateRMS_bound (v : list Q) (M : Q) :
  length v = 512%nat -> 0 <= M -> Forall (fun x => - M <= x <= M) v ->
  (calculateRMS v <= Q2R M)%R.
Proof.
  intros Hlen HM Hv. unfold calculateRMS.
  assert (Hsum : forall acc, fold_left (fun sum x => Qred (sum + x * x)) v acc <=
                             acc + inject_Z (Z.of_nat (length v)) * (M * M)).
  { clear Hlen. induction Hv as [|x v Hx Hv IH]; intros acc; cbn [fold_left length].
    - change (inject_Z (Z.of_nat 0)) with 0. lra.
    - specialize (IH (Qred (acc + x * x))). pose proof (Qred_correct (acc + x * x)) as Hr.
      rewrite Nat2Z.inj_succ, <- Z.add_1_r, inject_Z_plus. destruct Hx. assert (x * x <= M * M) by nra. change (inject_Z 1) with 1. lra. }
  specialize (Hsum 0). rewrite Hlen in Hsum.
  assert (Hms : meanSquare v <= M * M).
  { unfold meanSquare, sumSquares. change (inject_Z SAMPLES) with (512 # 1).
    rewrite Qdiv_pos_const. change (inject_Z (Z.of_nat 512)) with (512 # 1) in Hsum. lra. }
  rewrite <- (sqrt_square (Q2R M)) by (rewrite <- RMicromega.Q2R_0; apply Qle_Rle, HM).
  apply sqrt_le_1_alt. rewrite <- Q2R_mult. apply Qle_Rle, Hms.
Qed.

Lemma calculateRMS_bound_witness :
  length (repeat (1 # 2) 512) = 512%nat /\ 0 <= 1 /\
  Forall (fun x => - 1 <= x <= 1) (repeat (1 # 2) 512) /\
  (calculateRMS (repeat (1 # 2) 512) <= Q2R 1)%R.
Proof.
  assert (H1 : length (repeat (1 # 2) 512) = 512%nat) by reflexivity.
  assert (H2 : Forall (fun x => - 1 <= x <= 1) (repeat (1 # 2) 512))
    by (apply Forall_forall; intros x Hx; apply repeat_spec in Hx as ->; split; qdecide).
  split; [exact H1|]. split; [qdecide|]. split; [exact H2|].
  apply calculateRMS_bound; [exact H1 | qdecide | exact H2].
Defined.

End Loudness.
