(* ===== verification/Quantizer.v ===== *)
(** * Note quantiser: [freqToMidi] (main.cpp) and [frequencyToNote] (detect.hpp)

    Both functions compute [12 * log2 (f / 440)] in floating point and
    round it.  With [r = (f/440)^24] that quantity is [log2 r / 2], so
    every rounding the code performs is an integer function of
    [floor (log2 r)] or of [floor (log2 (1/r))], which [Qlog2_floor]
    computes exactly (see the header of [Prelude]). *)

From S2P Require Import Prelude.
From Stdlib Require Import String.
Open Scope Q_scope.

Module Quantizer.

(** [log2 r] and [log2 (1/r)] floors for [r = (f/440)^24]. *)
Definition log2_24 (f : Q) : Z := Qlog2_floor ((f / 440) ^ 24).
Definition nlog2_24 (f : Q) : Z := Qlog2_floor (/ ((f / 440) ^ 24)).

(** main.cpp, [freqToMidi]:
    [midiNote = 69 + 12 * log2 (f/440)]; [roundedMidi = (int)(midiNote + 0.5)].
    [midiNote + 0.5 = (139 + log2 r) / 2]; the cast truncates toward zero,
    that is [floor] when the value is non-negative ([log2 r >= -139]) and
    [- floor (- value) = - floor ((log2 (1/r) - 139) / 2)] below zero. *)
Definition roundedMidi (f : Q) : Z :=
  let L := log2_24 f in
  if (-139 <=? L)%Z then ((139 + L) / 2)%Z
  else (- ((nlog2_24 f - 139) / 2))%Z.

Definition freqToMidi (frequency : Q) : Z :=
  if Qle_bool frequency 0 then (-1)%Z
  else
    let r := roundedMidi frequency in
    if (r <? 0)%Z || (127 <? r)%Z then (-1)%Z else r.

(** detect.hpp, [frequencyToNote]: [semitones = 12 * log2f (f / 440)],
    rounded half away from zero by [round]: for [semitones >= 0] that is
    [floor (semitones + 1/2) = floor ((log2 r + 1) / 2)], below zero it is
    [- floor (- semitones + 1/2)]. *)
Definition semitonesRounded (f : Q) : Z :=
  let L := log2_24 f in
  if (0 <=? L)%Z then ((L + 1) / 2)%Z
  else (- ((nlog2_24 f + 1) / 2))%Z.

(** [const char *noteNames[]]. *)
Definition noteNames : list string :=
  ["C"; "C#"; "D"; "D#"; "E"; "F"; "F#"; "G"; "G#"; "A"; "A#"; "B"]%string.

(** The result of [frequencyToNote]: the two out-of-band strings, or the
    note name index, the octave and the frequency it prints. *)
Inductive NoteReport :=
| TooLow
| TooHigh
| NoteAt (noteIndex octave : Z) (frequency : Q).

(** [int octave = 4 + (semitonesRounded + 9) / 12;] *)
Definition octaveOf (s : Z) : Z := (4 + Z.quot (s + 9) 12)%Z.

(** [int noteIndex = ((semitonesRounded + 9) % 12 + 12) % 12;] *)
Definition noteIndexOf (s : Z) : Z := Z.rem (Z.rem (s + 9) 12 + 12) 12.

Definition frequencyToNote (frequency : Q) : NoteReport :=
  if Qltb frequency 80 then TooLow
  else if Qltb 5000 frequency then TooHigh
  else
    let s := semitonesRounded frequency in
    NoteAt (noteIndexOf s) (octaveOf s) frequency.

(** ** Properties of [freqToMidi] *)

Lemma r24_pos (f : Q) : 0 < f -> 0 < (f / 440) ^ 24.
Proof.
  intros Hf. apply Qpower_0_lt.
  apply Qlt_shift_div_l; [reflexivity | lra].
Qed.

(** Below [-139] the truncating branch never yields a positive note. *)
Lemma roundedMidi_low_branch (f : Q) :
  0 < f -> (log2_24 f < -139)%Z -> (roundedMidi f <= 0)%Z.
Proof.
  intros Hf HL. unfold roundedMidi; cbv zeta.
  destruct (Z.leb_spec (-139) (log2_24 f)) as [|_]; [lia|].
  assert (139 <= nlog2_24 f)%Z; [|zlia].
  apply Qlog2_floor_inv_ge; [apply r24_pos; exact Hf|].
  apply (Qlog2_floor_lt_iff _ _ (r24_pos f Hf)). exact HL.
Qed.

Lemma roundedMidi_spec (f : Q) (m : Z) :
  0 < f -> (1 <= m)%Z ->
  roundedMidi f = m <->
  2 ^ (2 * m - 139) <= (f / 440) ^ 24 /\ (f / 440) ^ 24 < 2 ^ (2 * m - 137).
Proof.
  intros Hf Hm. pose proof (r24_pos f Hf) as Hr.
  rewrite <- (Qlog2_floor_ge_iff _ _ Hr), <- (Qlog2_floor_lt_iff _ _ Hr).
  fold (log2_24 f).
  destruct (Z.leb_spec (-139) (log2_24 f)) as [Hb|Hb].
  - unfold roundedMidi; cbv zeta. destruct (Z.leb_spec (-139) (log2_24 f)); [|lia].
    split; [intros <-|intros [H1 H2]]; zlia.
  - pose proof (roundedMidi_low_branch f Hf Hb). split; lia.
Qed.

(** [frequencyToNote]'s rounding picks the nearest semitone [s]: when
    [12 log2 (f/440)] lies strictly within half a semitone of [s], that
    is [2^(2s-1) < (f/440)^24 < 2^(2s+1)], the rounded value is [s]. *)
Lemma semitonesRounded_near (f : Q) (s : Z) :
  0 < f -> 2 ^ (2 * s - 1) < (f / 440) ^ 24 -> (f / 440) ^ 24 < 2 ^ (2 * s + 1) ->
  semitonesRounded f = s.
Proof.
  intros Hf Hlo Hhi. pose proof (r24_pos f Hf) as Hr.
  assert (L1 : (2 * s - 1 <= log2_24 f)%Z) by (apply Qlog2_floor_ge_iff; [exact Hr | lra]).
  assert (L2 : (log2_24 f < 2 * s + 1)%Z) by (apply Qlog2_floor_lt_iff; [exact Hr | exact Hhi]).
  unfold semitonesRounded; cbv zeta. destruct (Z.leb_spec 0 (log2_24 f)) as [H0|H0]; [zlia|].
  unfold nlog2_24.
  assert (N1 : (- (2 * s + 1) <= Qlog2_floor (/ (f / 440) ^ 24))%Z)
    by (apply Qlog2_floor_inv_ge; [exact Hr | now rewrite Z.opp_involutive]).
  assert (N2 : (Qlog2_floor (/ (f / 440) ^ 24) < - (2 * s - 1))%Z)
    by (apply Qlog2_floor_inv_lt; [exact Hr | now rewrite Z.opp_involutive]).
  assert (N0 : (0 <= Qlog2_floor (/ (f / 440) ^ 24))%Z).
  { apply Qlog2_floor_inv_ge; [exact Hr|]. apply (Qlog2_floor_lt_iff _ _ Hr). exact H0. }
  zlia.
Qed.

(** [freqToMidi] never answers outside [0 .. 127] except with [-1]. *)
Lemma freqToMidi_range (f : Q) :
  freqToMidi f = (-1)%Z \/ (0 <= freqToMidi f <= 127)%Z.
Proof.
  unfold freqToMidi. destruct (Qle_bool f 0); [now left|].
  destruct (Z.ltb_spec (roundedMidi f) 0), (Z.ltb_spec 127 (roundedMidi f));
    cbn [orb]; [left; reflexivity .. | right; lia].
Qed.

(** The scaled ratio of an octave higher is [2^24] times larger. *)
Lemma r24_double (f : Q) : ((2 * f) / 440) ^ 24 == 2 ^ 24 * (f / 440) ^ 24.
Proof.
  rewrite <- Qmult_power. apply Qpower_comp; [|reflexivity].
  unfold Qdiv. ring.
Qed.

(** [freqToMidi] through the power-of-two bracket of [(f/440)^24]. *)
Lemma freqToMidi_char (f : Q) (m : Z) :
  (1 <= m <= 127)%Z ->
  freqToMidi f = m <->
  0 < f /\ 2 ^ (2 * m - 139) <= (f / 440) ^ 24 /\ (f / 440) ^ 24 < 2 ^ (2 * m - 137).
Proof.
  intros Hm. unfold freqToMidi. qlecase f 0.
  - split; [lia | intros [Hf _]; lra].
  - rewrite <- (roundedMidi_spec f m E ltac:(lia)).
    destruct (Z.ltb_spec (roundedMidi f) 0), (Z.ltb_spec 127 (roundedMidi f));
      cbn [orb]; intuition lia.
Qed.

(** C2. For every MIDI number [m] in [1 .. 127], [freqToMidi] returns [m]
    exactly on the frequencies [f > 0] with
    [2^(2m-139) <= (f/440)^24 < 2^(2m-137)], that is
    [440 * 2^((m - 69.5)/12) <= f < 440 * 2^((m - 68.5)/12)]: the nearest
    equal-tempered note to [f], relative to A4 = 440 Hz = MIDI 69. *)
Theorem freqToMidi_spec (f : Q) (m : Z) :
  (1 <= m <= 127)%Z ->
  freqToMidi f = m <->
  0 < f /\ 2 ^ (2 * m - 139) <= (f / 440) ^ 24 /\ (f / 440) ^ 24 < 2 ^ (2 * m - 137).
Proof. apply freqToMidi_char. Qed.

Lemma freqToMidi_spec_witness :
  (1 <= 69 <= 127)%Z /\
  (0 < 440 /\ 2 ^ (2 * 69 - 139) <= (440 / 440) ^ 24 /\ (440 / 440) ^ 24 < 2 ^ (2 * 69 - 137)).
Proof.
  split; [lia|]. apply (proj1 (freqToMidi_spec 440 69 ltac:(lia))). reflexivity.
Defined.

(** The reference points of the spec: 440 Hz is MIDI 69 and prints
    as "A" octave 4; 880 Hz is MIDI 81 and prints as "A" octave 5; 523.25 Hz
    (C5, the lowest note [playNote] forwards) is MIDI 72. *)
Example quantizer_reference_points :
  freqToMidi 440 = 69%Z /\ frequencyToNote 440 = NoteAt 9 4 440 /\
  nth 9 noteNames EmptyString = "A"%string /\
  freqToMidi 880 = 81%Z /\ frequencyToNote 880 = NoteAt 9 5 880 /\
  freqToMidi (52325 # 100) = 72%Z.
Proof. vm_compute. repeat split. Qed.

(** C10. One octave up adds twelve semitones: if [f] maps to a MIDI
    number between 1 and 115, then [2 f] maps to that number plus 12. *)
Theorem freqToMidi_octave (f : Q) :
  (1 <= freqToMidi f <= 115)%Z -> freqToMidi (2 * f) = (freqToMidi f + 12)%Z.
Proof.
  intros Hm. remember (freqToMidi f) as m eqn:Em. symmetry in Em.
  apply (freqToMidi_char f m ltac:(lia)) in Em as (Hf & Hlo & Hhi).
  apply freqToMidi_char; [lia|]. rewrite r24_double. split; [lra|].
  replace (2 * (m + 12) - 139)%Z with (24 + (2 * m - 139))%Z by lia.
  replace (2 * (m + 12) - 137)%Z with (24 + (2 * m - 137))%Z by lia.
  rewrite !Qpow2_add. pose proof (Qpow2_pos 24). split.
  - apply Qmult_le_l; assumption.
  - apply Qmult_lt_l; assumption.
Qed.

Lemma freqToMidi_octave_witness :
  (1 <= freqToMidi 440 <= 115)%Z /\ freqToMidi (2 * 440) = (freqToMidi 440 + 12)%Z.
Proof.
  assert (H : (1 <= freqToMidi 440 <= 115)%Z) by (vm_compute; split; discriminate).
  split; [exact H | apply freqToMidi_octave; exact H].
Defined.

(** ** Properties of [frequencyToNote] *)

(** C12. From C4 upwards ([semitones >= -9]) the printed note is the
    nearest note: its name index is in [0 .. 11] and name and octave
    denote MIDI number [69 + semitones]. *)
Theorem frequencyToNote_correct_from_C4 (f fr : Q) (i o : Z) :
  frequencyToNote f = NoteAt i o fr ->
  (-9 <= semitonesRounded f)%Z ->
  (0 <= i < 12)%Z /\ (12 * (o + 1) + i = 69 + semitonesRounded f)%Z.
Proof.
  unfold frequencyToNote. qcase f 80; [discriminate|]. qcase 5000 f; [discriminate|].
  intros H Hs. injection H as <- <- _. unfold noteIndexOf, octaveOf. zlia.
Qed.

Lemma frequencyToNote_correct_from_C4_witness :
  (0 <= 9 < 12)%Z /\ (12 * (4 + 1) + 9 = 69 + semitonesRounded 440)%Z.
Proof.
  apply (frequencyToNote_correct_from_C4 440 440 9 4); vm_compute;
    [reflexivity | discriminate].
Defined.

(** C11. Below C4 the octave is computed with C's truncating division
    [(semitones + 9) / 12] instead of the floor the spec prescribes: every
    note from B3 downwards that is not a C is printed with the right name
    and an octave one too high (100 Hz, a G2, prints as "G3"). *)
Theorem frequencyToNote_octave_too_high (f fr : Q) (i o : Z) :
  frequencyToNote f = NoteAt i o fr ->
  (semitonesRounded f < -9)%Z ->
  ((semitonesRounded f + 9) mod 12 <> 0)%Z ->
  i = ((semitonesRounded f + 9) mod 12)%Z /\
  o = (4 + Z.div (semitonesRounded f + 9) 12 + 1)%Z.
Proof.
  unfold frequencyToNote. qcase f 80; [discriminate|]. qcase 5000 f; [discriminate|].
  intros H Hs Hm. injection H as <- <- _. unfold noteIndexOf, octaveOf. zlia.
Qed.

Lemma frequencyToNote_octave_too_high_witness :
  frequencyToNote 100 = NoteAt 7 3 100 /\
  7%Z = ((semitonesRounded 100 + 9) mod 12)%Z /\
  3%Z = (4 + Z.div (semitonesRounded 100 + 9) 12 + 1)%Z.
Proof.
  assert (H : frequencyToNote 100 = NoteAt 7 3 100) by (vm_compute; reflexivity).
  split; [exact H|].
  apply (frequencyToNote_octave_too_high 100 100 7 3 H); vm_compute;
    [reflexivity | discriminate].
Defined.

(** ** Dependence on the value only

    A [float] is a value, a [Q] a representation of one: the quantiser
    gives the same result on every representation of a frequency, so
    frequencies can be rewritten with [Qeq] under it. *)

Lemma log2_24_compat (f f' : Q) : 0 < f -> f == f' -> log2_24 f = log2_24 f'.
Proof.
  intros Hf E. unfold log2_24. apply Qlog2_floor_compat; [apply r24_pos, Hf | now rewrite E].
Qed.

Lemma nlog2_24_compat (f f' : Q) : 0 < f -> f == f' -> nlog2_24 f = nlog2_24 f'.
Proof.
  intros Hf E. unfold nlog2_24.
  apply Qlog2_floor_compat; [apply Qinv_lt_0_compat, r24_pos, Hf | now rewrite E].
Qed.

Lemma roundedMidi_compat (f f' : Q) : 0 < f -> f == f' -> roundedMidi f = roundedMidi f'.
Proof.
  intros Hf E. unfold roundedMidi. now rewrite (log2_24_compat f f'), (nlog2_24_compat f f').
Qed.

Lemma semitonesRounded_compat (f f' : Q) : 0 < f -> f == f' -> semitonesRounded f = semitonesRounded f'.
Proof.
  intros Hf E. unfold semitonesRounded. now rewrite (log2_24_compat f f'), (nlog2_24_compat f f').
Qed.

#[export] Instance freqToMidi_proper : Proper (Qeq ==> eq) freqToMidi.
Proof.
  intros f f' E. unfold freqToMidi. rewrite E.
  destruct (Qle_bool f' 0) eqn:H0; [reflexivity|].
  assert (Hf : 0 < f).
  { rewrite E. apply Qnot_le_lt. rewrite <- Qle_bool_iff, H0. discriminate. }
  now rewrite (roundedMidi_compat f f').
Qed.

End Quantizer.
