(* ===== verification/Spectrum.v ===== *)
(** * Spectral analyser: the interface of the arduinoFFT library

    [detect_loop] calls three methods of [ArduinoFFT<float> FFT]:
    [FFT.windowing(vReal, SAMPLES, FFT_WIN_TYP_HAMMING, FFT_FORWARD)],
    [FFT.compute(vReal, vImag, SAMPLES, FFT_FORWARD)] and
    [FFT.complexToMagnitude(vReal, vImag, SAMPLES)].  The library is not
    part of the sources; [FFTLib] states, from the spec (section 4.2), what
    the detector relies on: every operation keeps the block length, a
    zero block stays zero (the window is a pointwise weight and the
    transform is linear), and magnitudes are non-negative. *)

From S2P Require Import Prelude.
Open Scope Q_scope.

Class FFTLib := {
  windowing : list Q -> list Q;
  compute : list Q -> list Q -> list Q * list Q;
  complexToMagnitude : list Q -> list Q -> list Q;

  windowing_length : forall v, length (windowing v) = length v;
  windowing_zero : forall v, all_zero v -> all_zero (windowing v);
  compute_length : forall re im, length re = length im ->
    length (fst (compute re im)) = length re /\ length (snd (compute re im)) = length re;
  compute_zero : forall re im, all_zero re -> all_zero im ->
    all_zero (fst (compute re im)) /\ all_zero (snd (compute re im));
  complexToMagnitude_length : forall re im, length re = length im ->
    length (complexToMagnitude re im) = length re;
  complexToMagnitude_nonneg : forall re im,
    Forall (fun x => 0 <= x) (complexToMagnitude re im);
  complexToMagnitude_zero : forall re im, all_zero re -> all_zero im ->
    all_zero (complexToMagnitude re im)
}.

Section Spectrum.
Context `{FFTLib}.

(** The three calls of [detect_loop] in sequence: the magnitude
    spectrum left in [vReal]. *)
Definition magnitudeSpectrum (vReal vImag : list Q) : list Q :=
  let w := windowing vReal in
  let '(re, im) := compute w vImag in
  complexToMagnitude re im.

Lemma magnitudeSpectrum_nonneg (vReal vImag : list Q) :
  Forall (fun x => 0 <= x) (magnitudeSpectrum vReal vImag).
Proof.
  unfold magnitudeSpectrum. destruct (compute _ _). apply complexToMagnitude_nonneg.
Qed.

Lemma magnitudeSpectrum_zero (vReal vImag : list Q) :
  all_zero vReal -> all_zero vImag -> all_zero (magnitudeSpectrum vReal vImag).
Proof.
  intros Hr Hi. unfold magnitudeSpectrum.
  pose proof (compute_zero (windowing vReal) vImag (windowing_zero _ Hr) Hi) as [H1 H2].
  destruct (compute _ _) as [re im]. apply complexToMagnitude_zero; assumption.
Qed.

End Spectrum.

(** A lawful instance used to run the detector on concrete inputs: a
    rectangular window and the identity transform, whose "magnitude" is
    the absolute value of the real part. *)
Definition identityFFT : FFTLib.
Proof.
  refine {| windowing := fun v => v;
            compute := fun re im => (re, im);
            complexToMagnitude := fun re _ => map Qabs re |}.
  - reflexivity.
  - auto.
  - auto.
  - auto.
  - intros re im _. apply length_map.
  - intros re _. apply Forall_forall. intros x Hx. apply in_map_iff in Hx as (y & <- & _).
    apply Qabs_nonneg.
  - intros re im Hre _. unfold all_zero in *. apply Forall_map.
    eapply Forall_impl; [|exact Hre]. intros x Hx. cbn beta. rewrite Hx. reflexivity.
Defined.
