(* ===== verification/PeakExtractor.v ===== *)
(** * Peak extractor: band limits, peak search and parabolic interpolation

    The code of [detect_loop] (and its copy in [detectMusicalNote]) that
    runs after [FFT.complexToMagnitude]: [vReal] then holds one magnitude
    per bin.  The search covers bins [minIndex <= i < maxIndex]; a bin
    strictly inside that range is refined by fitting a parabola through
    it and its two neighbours. *)

From S2P Require Import Prelude I2S.
Open Scope Q_scope.

Module PeakExtractor.
Import I2S.

(** [vReal[i]] on the magnitude array ([0] past its end). *)
Definition vat (vReal : list Q) (i : Z) : Q := nth (Z.to_nat i) vReal 0.

(** [int minIndex = max(1, (int)((80.0f * SAMPLES) / SAMPLING_FREQUENCY));] *)
Definition minIndex : Z :=
  Z.max 1 (c_trunc ((80 * inject_Z SAMPLES) / inject_Z SAMPLING_FREQUENCY)).

(** [int maxIndex = min(SAMPLES / 2, (int)((5000.0f * SAMPLES) / SAMPLING_FREQUENCY));] *)
Definition maxIndex : Z :=
  Z.min (Z.quot SAMPLES 2) (c_trunc ((5000 * inject_Z SAMPLES) / inject_Z SAMPLING_FREQUENCY)).

Lemma minIndex_value : minIndex = 2%Z.
Proof. reflexivity. Qed.

Lemma maxIndex_value : maxIndex = 160%Z.
Proof. reflexivity. Qed.

(** [for (int i = minIndex; i < maxIndex; i++)
       if (vReal[i] > maxMagnitude) { maxMagnitude = vReal[i]; peakIndex = i; }]
    with [n] iterations left from index [i]. *)
Fixpoint peakLoop (vReal : list Q) (i : Z) (n : nat) (maxMagnitude : Q) (peakIndex : Z)
  : Q * Z :=
  match n with
  | O => (maxMagnitude, peakIndex)
  | S n' =>
      if Qltb maxMagnitude (vat vReal i)
      then peakLoop vReal (i + 1) n' (vat vReal i) i
      else peakLoop vReal (i + 1) n' maxMagnitude peakIndex
  end.

(** [float maxMagnitude = 0; int peakIndex = 0;] then the loop. *)
Definition findPeak (vReal : list Q) : Q * Z :=
  peakLoop vReal minIndex (Z.to_nat (maxIndex - minIndex)) 0 0.

(** [((float)index * SAMPLING_FREQUENCY) / SAMPLES]. *)
Definition binToFrequency (bin : Q) : Q :=
  bin * inject_Z SAMPLING_FREQUENCY / inject_Z SAMPLES.

(** [a = (y1 - 2 y2 + y3) / 2], [b = (y3 - y1) / 2] and, when [a != 0],
    [peakOffset = -b / (2 a)]. *)
Definition peakOffset (y1 y2 y3 : Q) : option Q :=
  let a := (y1 - 2 * y2 + y3) / 2 in
  let b := (y3 - y1) / 2 in
  if Qeq_bool a 0 then None else Some (- b / (2 * a)).

(** The frequency of the peak: the bin frequency, refined when
    [peakIndex > minIndex && peakIndex < maxIndex - 1]. *)
Definition interpolatedFrequency (vReal : list Q) (peakIndex : Z) : Q :=
  let peakFrequency := binToFrequency (inject_Z peakIndex) in
  if (minIndex <? peakIndex)%Z && (peakIndex <? maxIndex - 1)%Z then
    match peakOffset (vat vReal (peakIndex - 1)) (vat vReal peakIndex)
                     (vat vReal (peakIndex + 1)) with
    | Some off => binToFrequency (inject_Z peakIndex + off)
    | None => peakFrequency
    end
  else peakFrequency.

(** ** The search loop computes the first maximal bin *)

Lemma peakLoop_spec (v : list Q) (i : Z) (n : nat) (m0 : Q) (k0 : Z) :
  let '(m, k) := peakLoop v i n m0 k0 in
  m0 <= m /\
  (forall j, (i <= j < i + Z.of_nat n)%Z -> vat v j <= m) /\
  ((m = m0 /\ k = k0) \/
   ((i <= k < i + Z.of_nat n)%Z /\ m = vat v k /\ m0 < m /\
    forall j, (i <= j < k)%Z -> vat v j < m)).
Proof.
  revert i m0 k0. induction n as [|n IH]; intros i m0 k0; cbn [peakLoop].
  - split; [apply Qle_refl|]. split; [intros j Hj; lia | left; auto].
  - qcase m0 (vat v i).
    + specialize (IH (i + 1)%Z (vat v i) i).
      destruct (peakLoop v (i + 1) n (vat v i) i) as [m k].
      destruct IH as (Hm & Hall & [[-> ->] | (Hk & -> & Hlt & Hfirst)]).
      * split; [lra|]. split.
        -- intros j Hj. destruct (Z.eq_dec j i) as [->|Hne]; [lra|]. apply Hall; lia.
        -- right. repeat split; [lia | lia | exact E | intros j Hj; lia].
      * split; [lra|]. split.
        -- intros j Hj. destruct (Z.eq_dec j i) as [->|Hne]; [lra|]. apply Hall; lia.
        -- right. repeat split; [lia | lia | lra |].
           intros j Hj. destruct (Z.eq_dec j i) as [->|Hne]; [exact Hlt|]. apply Hfirst; lia.
    + specialize (IH (i + 1)%Z m0 k0).
      destruct (peakLoop v (i + 1) n m0 k0) as [m k].
      destruct IH as (Hm & Hall & [[-> ->] | (Hk & -> & Hlt & Hfirst)]).
      * split; [lra|]. split; [|left; auto].
        intros j Hj. destruct (Z.eq_dec j i) as [->|Hne]; [exact E|]. apply Hall; lia.
      * split; [lra|]. split.
        -- intros j Hj. destruct (Z.eq_dec j i) as [->|Hne]; [lra|]. apply Hall; lia.
        -- right. repeat split; [lia | lia | exact Hlt |].
           intros j Hj. destruct (Z.eq_dec j i) as [->|Hne]; [lra|]. apply Hfirst; lia.
Qed.

(** What the search of the band computes. *)
Lemma findPeak_spec (v : list Q) :
  let '(maxMagnitude, peakIndex) := findPeak v in
  (forall j, (minIndex <= j < maxIndex)%Z -> vat v j <= maxMagnitude) /\
  ((maxMagnitude = 0 /\ peakIndex = 0%Z) \/
   ((minIndex <= peakIndex < maxIndex)%Z /\ maxMagnitude = vat v peakIndex /\
    0 < maxMagnitude /\
    forall j, (minIndex <= j < peakIndex)%Z -> vat v j < maxMagnitude)).
Proof.
  unfold findPeak. pose proof (peakLoop_spec v minIndex (Z.to_nat (maxIndex - minIndex)) 0 0) as Hs.
  destruct (peakLoop v minIndex (Z.to_nat (maxIndex - minIndex)) 0 0) as [m k].
  rewrite minIndex_value, maxIndex_value in *. change (Z.of_nat (Z.to_nat (160 - 2))) with 158%Z in Hs.
  destruct Hs as (_ & Hall & Hcase).
  split; [intros j Hj; apply Hall; lia|].
  destruct Hcase as [Hc | (Hk & Hm & Hpos & Hfirst)]; [left; exact Hc| right].
  repeat split; auto; lia.
Qed.

(** C3. [findPeak] returns the first bin of the band [[2, 160)] whose
    magnitude is maximal, with that magnitude, when some magnitude in the
    band is positive; otherwise it returns magnitude 0 and index 0 (the
    initial values).  Ties go to the lowest frequency. *)
Theorem findPeak_first_max (v : list Q) :
  let '(maxMagnitude, peakIndex) := findPeak v in
  (forall j, (minIndex <= j < maxIndex)%Z -> vat v j <= maxMagnitude) /\
  ((maxMagnitude = 0 /\ peakIndex = 0%Z) \/
   ((minIndex <= peakIndex < maxIndex)%Z /\ maxMagnitude = vat v peakIndex /\
    0 < maxMagnitude /\
    forall j, (minIndex <= j < peakIndex)%Z -> vat v j < maxMagnitude)).
Proof. apply findPeak_spec. Qed.

(** ** Parabolic interpolation *)

(** The parabolic offset of a local maximum. *)
Lemma peakOffset_within_half (y1 y2 y3 off : Q) :
  y1 <= y2 -> y3 <= y2 -> peakOffset y1 y2 y3 = Some off ->
  - (1 # 2) <= off /\ off <= 1 # 2.
Proof.
  unfold peakOffset. intros H1 H3 Hoff.
  destruct (Qeq_bool _ 0) eqn:Ea; [discriminate|]. injection Hoff as <-.
  apply Qeq_bool_neq in Ea.
  set (a := (y1 - 2 * y2 + y3) / 2) in *.
  assert (Ha0 : a <= 0) by (unfold a; qlra).
  assert (Ha : a < 0)
    by (apply Qle_lteq in Ha0 as [Hlt|Heq]; [exact Hlt | exfalso; exact (Ea Heq)]).
  assert (Hd : 0 < - (2 * a)) by lra.
  setoid_replace (- ((y3 - y1) / 2) / (2 * a)) with (((y3 - y1) / 2) / (- (2 * a)))
    by (field; intros Hz; apply Ea; qlra).
  unfold a in *. split.
  - apply Qle_shift_div_l; [exact Hd|]. qlra.
  - apply Qle_shift_div_r; [exact Hd|]. qlra.
Qed.

(** C7. When the middle magnitude is not below its neighbours, the
    parabolic correction moves the peak by at most half a bin. *)
Theorem peakOffset_bound (y1 y2 y3 off : Q) :
  y1 <= y2 -> y3 <= y2 -> peakOffset y1 y2 y3 = Some off ->
  - (1 # 2) <= off /\ off <= 1 # 2.
Proof. apply peakOffset_within_half. Qed.

Lemma peakOffset_bound_witness :
  let off := match peakOffset 0 1 1 with Some o => o | None => 0 end in
  0 <= 1 /\ 1 <= 1 /\ peakOffset 0 1 1 = Some off /\ - (1 # 2) <= off /\ off <= 1 # 2.
Proof.
  intros off. assert (H : peakOffset 0 1 1 = Some off) by reflexivity.
  split; [discriminate|]. split; [discriminate|]. split; [exact H|].
  apply (peakOffset_bound 0 1 1); [discriminate | discriminate | exact H].
Defined.

(** On a symmetric profile [y1 = y3] the correction is zero: the
    interpolation is idempotent on a bin that is already the apex. *)
Theorem peakOffset_symmetric (y1 y2 y3 : Q) :
  y1 == y3 -> match peakOffset y1 y2 y3 with Some off => off == 0 | None => True end.
Proof.
  unfold peakOffset. intros Hs. destruct (Qeq_bool _ 0) eqn:Ea; [exact I|].
  apply Qeq_bool_neq in Ea. rewrite Hs. field. intros Hz; apply Ea; qlra.
Qed.

Lemma peakOffset_symmetric_witness :
  1 == 1 /\ match peakOffset 1 2 1 with Some off => off == 0 | None => True end.
Proof. split; [reflexivity | apply peakOffset_symmetric; reflexivity]. Defined.

Lemma binToFrequency_eq (b : Q) : binToFrequency b == b * (125 # 4).
Proof.
  unfold binToFrequency. change (inject_Z SAMPLES) with (512 # 1).
  change (inject_Z SAMPLING_FREQUENCY) with (16000 # 1).
  rewrite Qdiv_pos_const. ring.
Qed.

(** The refined frequency of a maximal bin. *)
Lemma interpolatedFrequency_near (v : list Q) (k : Z) :
  (minIndex <= k < maxIndex)%Z ->
  (forall j, (minIndex <= j < maxIndex)%Z -> vat v j <= vat v k) ->
  binToFrequency (inject_Z k - (1 # 2)) <= interpolatedFrequency v k /\
  interpolatedFrequency v k <= binToFrequency (inject_Z k + (1 # 2)).
Proof.
  intros Hk Hmax. rewrite !binToFrequency_eq. unfold interpolatedFrequency.
  destruct ((minIndex <? k)%Z && (k <? maxIndex - 1)%Z) eqn:Hin.
  - apply andb_true_iff in Hin as [H1 H2]. apply Z.ltb_lt in H1, H2.
    destruct (peakOffset _ _ _) as [off|] eqn:Hoff.
    + apply peakOffset_within_half in Hoff as [Hlo Hhi]; [|apply Hmax; lia..].
      rewrite binToFrequency_eq. split; qlra.
    + rewrite binToFrequency_eq. split; qlra.
  - rewrite binToFrequency_eq. split; qlra.
Qed.

(** C17. When [peakIndex] is a maximal bin of the band, the frequency
    [detect_loop] reports lies within half a bin (15.625 Hz) of the centre
    of that bin, whether or not it is refined. *)
Theorem interpolatedFrequency_near_bin (v : list Q) (k : Z) :
  (minIndex <= k < maxIndex)%Z ->
  (forall j, (minIndex <= j < maxIndex)%Z -> vat v j <= vat v k) ->
  binToFrequency (inject_Z k - (1 # 2)) <= interpolatedFrequency v k /\
  interpolatedFrequency v k <= binToFrequency (inject_Z k + (1 # 2)).
Proof. apply interpolatedFrequency_near. Qed.

Lemma interpolatedFrequency_near_bin_witness :
  (minIndex <= 2 < maxIndex)%Z /\
  (forall j, (minIndex <= j < maxIndex)%Z -> vat [] j <= vat [] 2) /\
  binToFrequency (inject_Z 2 - (1 # 2)) <= interpolatedFrequency [] 2 /\
  interpolatedFrequency [] 2 <= binToFrequency (inject_Z 2 + (1 # 2)).
Proof.
  assert (Hk : (minIndex <= 2 < maxIndex)%Z) by (rewrite minIndex_value, maxIndex_value; lia).
  assert (Hm : forall j, (minIndex <= j < maxIndex)%Z -> vat [] j <= vat [] 2)
    by (intros j _; unfold vat; destruct (Z.to_nat j), (Z.to_nat 2); apply Qle_refl).
  split; [exact Hk|]. split; [exact Hm|].
  apply interpolatedFrequency_near_bin; [exact Hk | exact Hm].
Defined.

(** A reported peak frequency lies in [[62.5, 4968.75]] Hz: bins 2 and 159
    are never refined, the interior bins move by at most half a bin. *)
Lemma interpolatedFrequency_in_band (v : list Q) (k : Z) :
  (minIndex <= k < maxIndex)%Z ->
  (forall j, (minIndex <= j < maxIndex)%Z -> vat v j <= vat v k) ->
  125 # 2 <= interpolatedFrequency v k /\ interpolatedFrequency v k <= 19875 # 4.
Proof.
  intros Hk Hmax. rewrite minIndex_value, maxIndex_value in Hk.
  pose proof (interpolatedFrequency_near v k) as Hnear.
  rewrite minIndex_value, maxIndex_value in Hnear.
  specialize (Hnear ltac:(lia)).
  rewrite minIndex_value, maxIndex_value in Hmax. specialize (Hnear Hmax).
  rewrite !binToFrequency_eq in Hnear.
  destruct (Z.eq_dec k 2) as [->|H2]; [|destruct (Z.eq_dec k 159) as [->|H159]].
  - unfold interpolatedFrequency. rewrite minIndex_value. cbn - [binToFrequency].
    rewrite binToFrequency_eq. split; cbn; discriminate.
  - unfold interpolatedFrequency. rewrite minIndex_value, maxIndex_value.
    cbn - [binToFrequency]. rewrite binToFrequency_eq. split; cbn; discriminate.
  - assert (H3 : 3 <= inject_Z k) by (change 3 with (inject_Z 3); rewrite <- Zle_Qle; lia).
    assert (H158 : inject_Z k <= 158) by (change 158 with (inject_Z 158); rewrite <- Zle_Qle; lia).
    destruct Hnear. split; qlra.
Qed.

End PeakExtractor.
