(* ===== verification/Detect.v ===== *)
(** * The detector: [detect_loop] and [detectMusicalNote] (detect.hpp)

    Both functions read a block, convert it, filter it, window and
    transform it, search the band for a peak and gate it against a
    confidence threshold; [detect_loop] (called from [loop()]) uses 0.2
    and returns a frequency, or 0.0 for "no note"; [detectMusicalNote]
    (not called by [loop()]) uses 10.0 and returns a note name.  The
    only state that survives a call is the filter's ([FilterState]);
    [vReal] and [vImag] are overwritten from the fresh block every cycle. *)

From S2P Require Import Prelude I2S HighPass Spectrum PeakExtractor Quantizer.
Open Scope Q_scope.

Module Detect.
Import I2S HighPass PeakExtractor Quantizer.

(** The confidence thresholds of the two copies of the detector:
    [if (maxMagnitude < 0.2f)] in [detect_loop] and
    [if (maxMagnitude < 10.0f)] in [detectMusicalNote]. *)
Definition loopThreshold : Q := 2 # 10.
Definition noteThreshold : Q := 10.

(** What [detectMusicalNote] returns: the two error strings or the text
    of [frequencyToNote]. *)
Inductive DetectResult :=
| I2SReadError
| NoClearNote
| Detected (note : NoteReport).

Section WithFFT.
Context `{FFTLib}.

(** The common part after a successful read: [convertI2SToFloat],
    [applyHighPassFilter] (which updates the statics), then the three FFT
    calls; the magnitude spectrum left in [vReal] and the new statics. *)
Definition analyse (st : FilterState) (buf : list Z) : list Q * FilterState :=
  let '(vReal, vImag) := convertI2SToFloat buf in
  let '(filteredBlock, _, st') := applyHighPassFilter st vReal in
  (magnitudeSpectrum filteredBlock vImag, st').

(** [float detect_loop()]: 0.0 on a failed read (after [delay(200)]) and
    on a peak below the threshold, the (refined) peak frequency otherwise.
    The RMS level it computes is only printed. *)
Definition detect_loop (st : FilterState) (rd : I2SRead) : Q * FilterState :=
  if negb (readI2SSamples rd) then (0, st)
  else
    let '(mag, st') := analyse st (i2sBuffer rd) in
    let '(maxMagnitude, peakIndex) := findPeak mag in
    if Qltb maxMagnitude loopThreshold then (0, st')
    else (interpolatedFrequency mag peakIndex, st').

(** [String detectMusicalNote()]. *)
Definition detectMusicalNote (st : FilterState) (rd : I2SRead) : DetectResult * FilterState :=
  if negb (readI2SSamples rd) then (I2SReadError, st)
  else
    let '(mag, st') := analyse st (i2sBuffer rd) in
    let '(maxMagnitude, peakIndex) := findPeak mag in
    if Qltb maxMagnitude noteThreshold then (NoClearNote, st')
    else (Detected (frequencyToNote (interpolatedFrequency mag peakIndex)), st').

(** ** Acquisition faults *)

(** C14. A failed or short read ([result != ESP_OK] or fewer than
    [sizeof(i2sBuffer)] bytes) aborts the cycle: [detect_loop] returns the
    "no note" value 0.0 and leaves the filter statics untouched, so a
    partial block is never processed. *)
Theorem detect_loop_read_fault (st : FilterState) (rd : I2SRead) :
  (i2s_result rd <> ESP_OK \/ bytes_read rd <> 4 * SAMPLES)%Z ->
  detect_loop st rd = (0, st).
Proof.
  intros Hfault. unfold detect_loop, readI2SSamples.
  destruct Hfault as [Hr|Hb].
  - apply Z.eqb_neq in Hr. now rewrite Hr.
  - apply Z.eqb_neq in Hb. unfold i2sBufferBytes. rewrite Hb, andb_false_r. reflexivity.
Qed.

(** ** Silence *)

Lemma analyse_silence (n : nat) :
  let '(mag, st') := analyse filter0 (repeat 0%Z n) in
  all_zero mag /\ previousSample st' == 0 /\ previousOutput st' == 0.
Proof.
  unfold analyse. pose proof (convertI2SToFloat_zero n) as [Hr Hi].
  destruct (convertI2SToFloat (repeat 0%Z n)) as [vReal vImag]. cbn [fst snd] in Hr, Hi.
  pose proof (hpLoop_silence filter0 0 vReal (Qeq_refl 0) (Qeq_refl 0) Hr) as Hs.
  unfold applyHighPassFilter. destruct (hpLoop filter0 0 vReal) as [[o pk] st'].
  destruct Hs as (Ho & Hs1 & Hs2). split; [|split; assumption].
  apply magnitudeSpectrum_zero; assumption.
Qed.

(** On an all-zero spectrum the search finds nothing above zero. *)
Lemma findPeak_all_zero (mag : list Q) :
  all_zero mag -> fst (findPeak mag) == 0.
Proof.
  intros Hz. pose proof (findPeak_spec mag) as Hp.
  destruct (findPeak mag) as [m k]. cbn [fst].
  destruct Hp as (_ & [[-> _] | (_ & -> & Hpos & _)]); [reflexivity|].
  unfold vat in *. destruct (nth_in_or_default (Z.to_nat k) mag 0) as [Hin|Hdef].
  - exfalso. pose proof (proj1 (Forall_forall _ _) Hz _ Hin) as H0. cbn beta in H0. lra.
  - rewrite Hdef in Hpos. exfalso. lra.
Qed.

(** C8. From rest (filter statics at zero), an all-zero block read
    successfully yields "no estimate" (0.0) and leaves the statics at
    zero: silence in, silence out. *)
Theorem detect_loop_silence (rd : I2SRead) :
  readI2SSamples rd = true ->
  i2sBuffer rd = repeat 0%Z 512 ->
  let '(f, st') := detect_loop filter0 rd in
  f = 0 /\ previousSample st' == 0 /\ previousOutput st' == 0.
Proof.
  intros Hok Hbuf. unfold detect_loop. rewrite Hok, Hbuf. cbn [negb].
  pose proof (analyse_silence 512) as Hs.
  destruct (analyse filter0 (repeat 0%Z 512)) as [mag st'].
  destruct Hs as (Hz & Hs1 & Hs2).
  pose proof (findPeak_all_zero mag Hz) as Hm.
  destruct (findPeak mag) as [m k]. cbn [fst] in Hm.
  assert (Hlt : Qltb m loopThreshold = true) by (apply Qltb_lt; rewrite Hm; reflexivity).
  rewrite Hlt. auto.
Qed.

(** ** The estimate stays in the band *)

(** C5. Every frequency [detect_loop] returns is either the "no note"
    value 0.0 or lies in [[62.5, 4968.75]] Hz (bins 2 to 159, refined by at
    most half a bin): a detected note can never be mistaken for the 0.0
    sentinel.  The lower end is below the 80 Hz the code's comment and
    the spec name as the band. *)
Theorem detect_loop_band (st : FilterState) (rd : I2SRead) :
  let f := fst (detect_loop st rd) in
  f = 0 \/ (125 # 2 <= f /\ f <= 19875 # 4).
Proof.
  unfold detect_loop. destruct (negb (readI2SSamples rd)); [left; reflexivity|].
  destruct (analyse st (i2sBuffer rd)) as [mag st'].
  pose proof (findPeak_spec mag) as Hp.
  destruct (findPeak mag) as [m k].
  qcase m loopThreshold; [left; reflexivity|]. right. cbn [fst].
  destruct Hp as (Hall & [[-> _] | (Hk & -> & _ & _)]);
    [unfold loopThreshold in E; exfalso; lra|].
  apply interpolatedFrequency_in_band; assumption.
Qed.

(** C20. The two copies of the detector disagree: whenever the largest
    magnitude of the band lies in [[0.2, 10)], [detect_loop] reports a
    note while [detectMusicalNote] reports "No Clear Note". *)
Theorem detectors_disagree (st : FilterState) (rd : I2SRead) :
  readI2SSamples rd = true ->
  loopThreshold <= fst (findPeak (fst (analyse st (i2sBuffer rd)))) < noteThreshold ->
  ~ fst (detect_loop st rd) == 0 /\ fst (detectMusicalNote st rd) = NoClearNote.
Proof.
  intros Hok Hm. unfold detect_loop, detectMusicalNote. rewrite Hok. cbn [negb].
  destruct (analyse st (i2sBuffer rd)) as [mag st']. cbn [fst] in Hm.
  pose proof (findPeak_spec mag) as Hp.
  destruct (findPeak mag) as [m k]. cbn [fst] in Hm. destruct Hm as [Hlo Hhi].
  assert (E1 : Qltb m loopThreshold = false) by (apply Qltb_ge; exact Hlo).
  assert (E2 : Qltb m noteThreshold = true) by (apply Qltb_lt; exact Hhi).
  rewrite E1, E2. split; [|reflexivity]. cbn [fst].
  destruct Hp as (Hall & [[-> _] | (Hk & -> & _ & _)]);
    [unfold loopThreshold in Hlo; exfalso; lra|].
  pose proof (interpolatedFrequency_in_band mag k Hk Hall) as [Hb _].
  intros Hz. lra.
Qed.

End WithFFT.

(** ** Concrete runs, with the lawful stand-in [identityFFT] *)

(** A block whose filtered output is a single spike: zeros, one sample
    0.625 at index 5, then 0.03125, which the filter cancels exactly. *)
Definition spikeBlock : list Z :=
  repeat 0%Z 5 ++ [1342177280%Z] ++ repeat 67108864%Z 506.

Lemma detect_loop_read_fault_witness :
  (i2s_result (mkI2SRead 0 1024 []) <> ESP_OK \/ bytes_read (mkI2SRead 0 1024 []) <> 4 * SAMPLES)%Z /\
  @detect_loop identityFFT filter0 (mkI2SRead 0 1024 []) = (0, filter0).
Proof.
  assert (H : (i2s_result (mkI2SRead 0 1024 []) <> ESP_OK \/
               bytes_read (mkI2SRead 0 1024 []) <> 4 * SAMPLES)%Z)
    by (right; cbn; discriminate).
  split; [exact H | apply (@detect_loop_read_fault identityFFT); exact H].
Defined.

Lemma detect_loop_silence_witness :
  readI2SSamples (mkI2SRead 0 2048 (repeat 0%Z 512)) = true /\
  i2sBuffer (mkI2SRead 0 2048 (repeat 0%Z 512)) = repeat 0%Z 512 /\
  let '(f, st') := @detect_loop identityFFT filter0 (mkI2SRead 0 2048 (repeat 0%Z 512)) in
  f = 0 /\ previousSample st' == 0 /\ previousOutput st' == 0.
Proof.
  split; [reflexivity|]. split; [reflexivity|].
  apply (@detect_loop_silence identityFFT); reflexivity.
Defined.

Lemma detectors_disagree_witness :
  readI2SSamples (mkI2SRead 0 2048 spikeBlock) = true /\
  loopThreshold <= fst (findPeak (fst (@analyse identityFFT filter0 spikeBlock))) < noteThreshold /\
  ~ fst (@detect_loop identityFFT filter0 (mkI2SRead 0 2048 spikeBlock)) == 0 /\
  fst (@detectMusicalNote identityFFT filter0 (mkI2SRead 0 2048 spikeBlock)) = NoClearNote.
Proof.
  assert (Hm : loopThreshold <= fst (findPeak (fst (@analyse identityFFT filter0 spikeBlock)))
               < noteThreshold) by (split; qdecide).
  split; [reflexivity|]. split; [exact Hm|].
  apply (@detectors_disagree identityFFT filter0 (mkI2SRead 0 2048 spikeBlock));
    [reflexivity | exact Hm].
Defined.

End Detect.
