(* ===== verification/Tracker.v ===== *)
(** * Note event tracker: [playNote] (main.cpp)

    [playNote] turns the frequency of a cycle into BLE MIDI calls.  Its
    state is two statics, [prevMidiNumber] (last note forwarded, [-1] at
    start) and [bleInitialised]; its inputs are the KEY2 button (the
    play enable), the BLE connection status and the frequency.  The calls
    it makes on [BLEMidiServer] (and the [delay] between them) are its
    output, as a list of [MidiCall]s.  To state what the receiver hears,
    [sounding] replays the calls on the set of notes that are on (stdpp
    [gset]). *)

From S2P Require Import Prelude Quantizer.
From stdpp Require Import base gmap sets.
Open Scope Q_scope.

Module Tracker.
Import Quantizer.

(** midinotes.h: [#define C5 72]; main.cpp: [#define MIDI_A4 69];
    midi_sounds.h: [#define GM_ROCK_ORGAN 19]. *)
Definition C5 : Z := 72.
Definition MIDI_A4 : Z := 69.
Definition GM_ROCK_ORGAN : Z := 19.

(** The calls [playNote] makes: [BLEMidiServer.programChange],
    [noteOn], [noteOff] (channel, note, velocity) and [delay(ms)]. *)
Inductive MidiCall :=
| ProgramChange (channel program : Z)
| NoteOn (channel note velocity : Z)
| NoteOff (channel note velocity : Z)
| Delay (ms : Z).

#[export] Instance MidiCall_eq_dec : EqDecision MidiCall.
Proof. solve_decision. Defined.

(** The ranges of a MIDI message: channel 0..15, note, velocity and
    program 0..127 (seven-bit data bytes); a delay is non-negative. *)
Definition midiValid (c : MidiCall) : bool :=
  match c with
  | ProgramChange ch p => (0 <=? ch)%Z && (ch <=? 15)%Z && (0 <=? p)%Z && (p <=? 127)%Z
  | NoteOn ch n v | NoteOff ch n v =>
      (0 <=? ch)%Z && (ch <=? 15)%Z && (0 <=? n)%Z && (n <=? 127)%Z && (0 <=? v)%Z && (v <=? 127)%Z
  | Delay ms => (0 <=? ms)%Z
  end.

(** [static int prevMidiNumber = -1; static bool bleInitialised = false;] *)
Record TrackerState := mkTracker {
  prevMidiNumber : Z;
  bleInitialised : bool
}.

Definition tracker0 : TrackerState := mkTracker (-1) false.

(** [selectProgram(channel, program)]: GM programs are 1-based, MIDI
    program numbers 0-based. *)
Definition selectProgram (channel program : Z) : list MidiCall :=
  [ProgramChange channel (program - 1)].

(** The opening sequence played once, on the first forwarded note while
    connected: rock organ, then A4 for one second. *)
Definition openingCalls : list MidiCall :=
  selectProgram 0 GM_ROCK_ORGAN ++
  [NoteOn 0 MIDI_A4 127; Delay 1000; NoteOff 0 MIDI_A4 127].

(** [void playNote(float noteFrequency)]; [key2Low] is
    [digitalRead(KEY2) == LOW], [connected] is
    [BLEMidiServer.isConnected()]. *)
Definition playNote (key2Low connected : bool) (noteFrequency : Q) (s : TrackerState)
  : TrackerState * list MidiCall :=
  if key2Low then
    if Qltb 0 noteFrequency then
      let midiNumber := freqToMidi noteFrequency in
      if (C5 <=? midiNumber)%Z && (midiNumber <=? 127)%Z &&
         negb (prevMidiNumber s =? midiNumber)%Z then
        if connected then
          let opening := if bleInitialised s then [] else openingCalls in
          let off := if (0 <? prevMidiNumber s)%Z
                     then [NoteOff 0 (prevMidiNumber s) 127] else [] in
          (mkTracker midiNumber true, opening ++ off ++ [NoteOn 0 midiNumber 127])
        else (mkTracker midiNumber (bleInitialised s), [])
      else (s, [])
    else (s, [NoteOff 0 (prevMidiNumber s) 127])
  else (s, []).

(** One input of [playNote] per cycle: KEY2, connection, frequency. *)
Record TrackerInput := mkInput {
  in_key2Low : bool;
  in_connected : bool;
  in_frequency : Q
}.

(** Successive cycles: the state threads through, the calls accumulate. *)
Fixpoint runTracker (s : TrackerState) (ins : list TrackerInput)
  : TrackerState * list MidiCall :=
  match ins with
  | [] => (s, [])
  | i :: rest =>
      let '(s1, cs1) := playNote (in_key2Low i) (in_connected i) (in_frequency i) s in
      let '(s2, cs2) := runTracker s1 rest in
      (s2, cs1 ++ cs2)
  end.

(** ** The receiver's view *)

(** A note-on adds the note to the sounding set, a note-off removes it. *)
Definition applyCall (S : gset Z) (c : MidiCall) : gset Z :=
  match c with
  | NoteOn _ n _ => {[n]} ∪ S
  | NoteOff _ n _ => S ∖ {[n]}
  | _ => S
  end.

Definition sounding (S : gset Z) (cs : list MidiCall) : gset Z := foldl applyCall S cs.

(** No note-on for a note that is already sounding. *)
Fixpoint freshOns (S : gset Z) (cs : list MidiCall) : Prop :=
  match cs with
  | [] => True
  | c :: rest =>
      match c with NoteOn _ n _ => n ∉ S | _ => True end /\ freshOns (applyCall S c) rest
  end.

Lemma freshOns_app (S : gset Z) (cs1 cs2 : list MidiCall) :
  freshOns S (cs1 ++ cs2) <-> freshOns S cs1 /\ freshOns (sounding S cs1) cs2.
Proof.
  revert S. induction cs1 as [|c cs1 IH]; intros S; cbn [app freshOns].
  - unfold sounding. cbn. tauto.
  - rewrite IH. unfold sounding. cbn [foldl]. tauto.
Qed.

Lemma sounding_app (S : gset Z) (cs1 cs2 : list MidiCall) :
  sounding S (cs1 ++ cs2) = sounding (sounding S cs1) cs2.
Proof. unfold sounding. apply foldl_app. Qed.

(** ** Safety while the link is up *)

(** The invariant: every sounding note is [prevMidiNumber], a note of at
    least C5; [prevMidiNumber] is [-1] or a MIDI note from C5 up. *)
Definition trackerInv (s : TrackerState) (S : gset Z) : Prop :=
  (prevMidiNumber s = (-1)%Z \/ (C5 <= prevMidiNumber s <= 127)%Z) /\
  (forall n, n ∈ S -> n = prevMidiNumber s /\ (C5 <= n)%Z).

Lemma trackerInv_init : trackerInv tracker0 ∅.
Proof. split; [left; reflexivity | intros n Hn; set_solver]. Qed.

(** The opening A4 never collides with a tracked note (all from C5 up). *)
Lemma openingCalls_effect (S : gset Z) :
  (forall n, n ∈ S -> (C5 <= n)%Z) ->
  freshOns S openingCalls /\ sounding S openingCalls ⊆ S.
Proof.
  intros HS. assert (H69 : MIDI_A4 ∉ S) by (intros Hin; specialize (HS _ Hin); unfold C5, MIDI_A4 in HS; lia).
  cbn. repeat split; [exact H69 | set_solver].
Qed.

(** After the note-off of [prevMidiNumber], nothing sounds. *)
Lemma release_prev (s : TrackerState) (S : gset Z) :
  trackerInv s S ->
  sounding S (if (0 <? prevMidiNumber s)%Z then [NoteOff 0 (prevMidiNumber s) 127] else []) = ∅.
Proof.
  intros [Hp HS]. destruct (Z.ltb_spec 0 (prevMidiNumber s)) as [Hpos|Hneg]; cbn.
  - apply set_eq. intros n. split; [|set_solver].
    intros Hn. apply elem_of_difference in Hn as [Hn Hne]. apply HS in Hn as [-> _]. set_solver.
  - apply set_eq. intros n. split; [|set_solver].
    intros Hn. apply HS in Hn as [-> Hge]. unfold C5 in Hge. lia.
Qed.

Lemma playNote_step_safe (k : bool) (f : Q) (s : TrackerState) (S : gset Z) :
  trackerInv s S ->
  let '(s', cs) := playNote k true f s in
  freshOns S cs /\ trackerInv s' (sounding S cs).
Proof.
  intros Hinv. pose proof Hinv as [Hp HS]. unfold playNote.
  destruct k; [|cbn; auto]. qcase 0 f.
  - destruct ((C5 <=? freqToMidi f)%Z && (freqToMidi f <=? 127)%Z &&
              negb (prevMidiNumber s =? freqToMidi f)%Z) eqn:G; [|cbn; auto].
    apply andb_true_iff in G as [G G3]. apply andb_true_iff in G as [G1 G2].
    apply Z.leb_le in G1, G2.
    set (off := if (0 <? prevMidiNumber s)%Z then _ else _).
    set (opening := if bleInitialised s then [] else openingCalls).
    assert (Hop : freshOns S opening /\ sounding S opening ⊆ S).
    { unfold opening. destruct (bleInitialised s); [cbn; split; [exact I | reflexivity]|].
      apply openingCalls_effect. intros n Hn. apply (HS n Hn). }
    destruct Hop as [Hop1 Hop2].
    assert (Hinv' : trackerInv s (sounding S opening)).
    { split; [exact Hp|]. intros n Hn. apply HS. set_solver. }
    pose proof (release_prev s _ Hinv') as Hrel. fold off in Hrel.
    rewrite !freshOns_app, !sounding_app, Hrel.
    split; [split; [exact Hop1 | split]|split].
    + unfold off. destruct (0 <? prevMidiNumber s)%Z; cbn; auto.
    + cbn. split; [set_solver | exact I].
    + right. cbn. lia.
    + intros x Hx. unfold sounding in Hx. cbn in Hx.
      assert (x = freqToMidi f) as -> by set_solver. cbn. lia.
  - cbn. split; [exact (conj I I)|]. split; [exact Hp|].
    intros x Hx. apply elem_of_difference in Hx as [Hx Hne].
    apply HS in Hx as [-> _]. set_solver.
Qed.

Lemma runTracker_safe (ins : list TrackerInput) (s : TrackerState) (S : gset Z) :
  Forall (fun i => in_connected i = true) ins -> trackerInv s S ->
  let '(s', cs) := runTracker s ins in
  freshOns S cs /\ trackerInv s' (sounding S cs).
Proof.
  revert s S. induction ins as [|i ins IH]; intros s S Hc Hinv; cbn [runTracker].
  - split; [exact I | exact Hinv].
  - inversion Hc as [|? ? Hi Hc']; subst.
    pose proof (playNote_step_safe (in_key2Low i) (in_frequency i) s S Hinv) as Hstep.
    rewrite <- Hi in Hstep.
    destruct (playNote _ _ _ s) as [s1 cs1]. destruct Hstep as [Hf1 Hinv1].
    specialize (IH s1 (sounding S cs1) Hc' Hinv1).
    destruct (runTracker s1 ins) as [s2 cs2]. destruct IH as [Hf2 Hinv2].
    rewrite freshOns_app, sounding_app. auto.
Qed.

(** C1. As long as the BLE link stays up, the MIDI calls [playNote]
    makes from start-up never send a note-on for a note that is already
    sounding, and afterwards at most one note sounds: the last one
    forwarded ([prevMidiNumber]). *)
Theorem playNote_no_double_note_on (ins : list TrackerInput) :
  Forall (fun i => in_connected i = true) ins ->
  let '(s, cs) := runTracker tracker0 ins in
  freshOns ∅ cs /\ sounding ∅ cs ⊆ {[prevMidiNumber s]}.
Proof.
  intros Hc. pose proof (runTracker_safe ins tracker0 ∅ Hc trackerInv_init) as H.
  destruct (runTracker tracker0 ins) as [s cs]. destruct H as [Hf [_ HS]].
  split; [exact Hf|]. intros n Hn. apply HS in Hn as [-> _]. set_solver.
Qed.

Lemma playNote_no_double_note_on_witness :
  let ins := [mkInput true true (52325 # 100); mkInput true true 0;
              mkInput true true 880] in
  Forall (fun i => in_connected i = true) ins /\
  let '(s, cs) := runTracker tracker0 ins in
  freshOns ∅ cs /\ sounding ∅ cs ⊆ {[prevMidiNumber s]}.
Proof.
  intros ins. assert (H : Forall (fun i => in_connected i = true) ins)
    by (repeat constructor).
  split; [exact H | apply playNote_no_double_note_on; exact H].
Defined.

(** C6. A silence does not reset [prevMidiNumber]: after a silent cycle
    (which sends a note-off for the last note), the same note played again
    is never re-triggered; the two cycles produce only the note-off and
    leave the state unchanged.  The spec returns the tracker to Silent. *)
Theorem playNote_no_retrigger_after_silence (s : TrackerState) (f : Q) (c1 c2 : bool) :
  0 < f -> freqToMidi f = prevMidiNumber s ->
  runTracker s [mkInput true c1 0; mkInput true c2 f] =
  (s, [NoteOff 0 (prevMidiNumber s) 127]).
Proof.
  intros Hf Hm.
  assert (E1 : playNote true c1 0 s = (s, [NoteOff 0 (prevMidiNumber s) 127]))
    by reflexivity.
  assert (E2 : playNote true c2 f s = (s, [])).
  { unfold playNote. apply Qltb_lt in Hf. rewrite Hf, Hm, Z.eqb_refl, andb_false_r.
    reflexivity. }
  cbn [runTracker in_key2Low in_connected in_frequency]. rewrite E1, E2. reflexivity.
Qed.

Lemma playNote_no_retrigger_after_silence_witness :
  0 < 52325 # 100 /\ freqToMidi (52325 # 100) = prevMidiNumber (mkTracker 72 true) /\
  runTracker (mkTracker 72 true) [mkInput true true 0; mkInput true true (52325 # 100)] =
  (mkTracker 72 true, [NoteOff 0 (prevMidiNumber (mkTracker 72 true)) 127]).
Proof.
  assert (H1 : 0 < 52325 # 100) by qdecide.
  assert (H2 : freqToMidi (52325 # 100) = prevMidiNumber (mkTracker 72 true))
    by (vm_compute; reflexivity).
  split; [exact H1|]. split; [exact H2|].
  apply playNote_no_retrigger_after_silence; assumption.
Defined.

(** [prevMidiNumber] holds [-1] or a MIDI note. *)
Definition prevTyped (s : TrackerState) : Prop :=
  prevMidiNumber s = (-1)%Z \/ (0 <= prevMidiNumber s <= 127)%Z.

(** A concrete call is valid when its numbers are in range. *)
Ltac midi_valid :=
  cbn [midiValid]; rewrite ?andb_true_iff; repeat split; try reflexivity; apply Z.leb_le; lia.

Lemma openingCalls_valid : Forall (fun c => midiValid c = true) openingCalls.
Proof. repeat constructor. Qed.

Lemma playNote_types (k c : bool) (f : Q) (s : TrackerState) :
  prevTyped s ->
  prevTyped (fst (playNote k c f s)) /\
  Forall (fun m => midiValid m = true \/ m = NoteOff 0 (-1) 127) (snd (playNote k c f s)).
Proof.
  intros Hs. unfold playNote. destruct k; [|split; [exact Hs | constructor]].
  destruct (Qltb 0 f).
  - destruct ((C5 <=? freqToMidi f)%Z && (freqToMidi f <=? 127)%Z && _) eqn:G; [|split; [exact Hs | constructor]].
    apply andb_true_iff in G as [G _]. apply andb_true_iff in G as [G1 G2].
    apply Z.leb_le in G1, G2. unfold C5 in G1.
    assert (Hon : midiValid (NoteOn 0 (freqToMidi f) 127) = true)
      by midi_valid.
    destruct c; cbn [fst snd]; (split; [right; cbn; lia|]); [|constructor].
    apply Forall_app. split; [destruct (bleInitialised s); [constructor|];
                              eapply Forall_impl; [apply openingCalls_valid | auto]|].
    apply Forall_app. split; [|constructor; [left; exact Hon | constructor]].
    destruct (Z.ltb_spec 0 (prevMidiNumber s)); [|constructor].
    constructor; [|constructor]. left. destruct Hs as [Hs|Hs]; [lia|]. midi_valid.
  - cbn [fst snd]. split; [exact Hs|]. constructor; [|constructor].
    destruct Hs as [Hs|Hs]; [right; now rewrite Hs | left]. midi_valid.
Qed.

(** C23. Every MIDI message [playNote] sends, along any sequence of
    cycles, is within the ranges of MIDI (channel, note, velocity and
    program in seven bits) except one: the note-off for note -1 that a
    silent cycle sends while [prevMidiNumber] still holds its initial
    value, as on the first silence after start-up. *)
Theorem playNote_midi_types (s : TrackerState) (ins : list TrackerInput) :
  prevTyped s ->
  prevTyped (fst (runTracker s ins)) /\
  Forall (fun m => midiValid m = true \/ m = NoteOff 0 (-1) 127) (snd (runTracker s ins)).
Proof.
  revert s. induction ins as [|i ins IH]; intros s Hs; [split; [exact Hs | constructor]|].
  cbn [runTracker]. pose proof (playNote_types (in_key2Low i) (in_connected i) (in_frequency i) s Hs) as [H1 H2].
  destruct (playNote _ _ _ _) as [s1 cs1]. cbn [fst snd] in H1, H2.
  specialize (IH s1 H1). destruct (runTracker s1 ins) as [s2 cs2]. cbn [fst snd] in *.
  split; [apply IH | apply Forall_app; split; [exact H2 | apply IH]].
Qed.

Lemma playNote_midi_types_witness :
  prevTyped tracker0 /\
  prevTyped (fst (runTracker tracker0 [mkInput true true 0])) /\
  Forall (fun m => midiValid m = true \/ m = NoteOff 0 (-1) 127) (snd (runTracker tracker0 [mkInput true true 0])) /\
  snd (runTracker tracker0 [mkInput true true 0]) = [NoteOff 0 (-1) 127].
Proof.
  assert (H : prevTyped tracker0) by (left; reflexivity).
  split; [exact H|]. split; [exact (proj1 (playNote_midi_types tracker0 _ H))|].
  split; [exact (proj2 (playNote_midi_types tracker0 _ H)) | reflexivity].
Defined.

(** While KEY2 is released [playNote] makes no call and keeps its
    state, whatever the frequency: releasing the play button leaves the
    sounding note on, where the spec's mute forces a note-off. *)
Theorem playNote_key2_released (s : TrackerState) (ins : list TrackerInput) :
  Forall (fun i => in_key2Low i = false) ins -> runTracker s ins = (s, []).
Proof.
  intros Hk. induction Hk as [|i ins Hi Hk IH]; [reflexivity|].
  cbn [runTracker]. unfold playNote at 1. rewrite Hi, IH. reflexivity.
Qed.

Lemma playNote_key2_released_witness :
  Forall (fun i => in_key2Low i = false) [mkInput false true 0; mkInput false true 880] /\
  runTracker (mkTracker 81 true) [mkInput false true 0; mkInput false true 880] =
  (mkTracker 81 true, []).
Proof.
  assert (H : Forall (fun i => in_key2Low i = false) [mkInput false true 0; mkInput false true 880])
    by (repeat constructor).
  split; [exact H | apply playNote_key2_released; exact H].
Defined.

(** A valid new note: the branch of [playNote] that forwards it. *)
Lemma playNote_new_note (c : bool) (f : Q) (s : TrackerState) :
  0 < f -> (C5 <= freqToMidi f <= 127)%Z -> prevMidiNumber s <> freqToMidi f ->
  playNote true c f s =
  if c then (mkTracker (freqToMidi f) true,
             (if bleInitialised s then [] else openingCalls) ++
             (if (0 <? prevMidiNumber s)%Z then [NoteOff 0 (prevMidiNumber s) 127] else []) ++
             [NoteOn 0 (freqToMidi f) 127])
  else (mkTracker (freqToMidi f) (bleInitialised s), []).
Proof.
  intros Hf [Hlo Hhi] Hne. unfold playNote. cbv zeta. apply Qltb_lt in Hf. rewrite Hf.
  apply Z.leb_le in Hlo, Hhi. apply Z.eqb_neq in Hne. rewrite Hlo, Hhi, Hne. reflexivity.
Qed.

(** C21. A link drop breaks the no-double-note-on promise: from any
    state where the note [p] of [prevMidiNumber] is sounding at the
    receiver, a cycle that detects another valid note while the link is
    down (nothing sent, but [prevMidiNumber] moves on), followed by a
    cycle that detects [p] again with the link up, sends a note-off for
    the note that was never played and a second note-on for [p], which
    never got its note-off. *)
Theorem playNote_dropout_double_note_on (s : TrackerState) (f1 f2 : Q) (S : gset Z) :
  bleInitialised s = true -> (C5 <= prevMidiNumber s)%Z -> prevMidiNumber s ∈ S ->
  0 < f1 -> (C5 <= freqToMidi f1 <= 127)%Z -> freqToMidi f1 <> prevMidiNumber s ->
  0 < f2 -> freqToMidi f2 = prevMidiNumber s ->
  let calls := [NoteOff 0 (freqToMidi f1) 127; NoteOn 0 (prevMidiNumber s) 127] in
  runTracker s [mkInput true false f1; mkInput true true f2] =
    (mkTracker (prevMidiNumber s) true, calls) /\ ~ freshOns S calls.
Proof.
  intros Hb Hp HS Hf1 Hm1 Hne Hf2 Hm2 calls. split.
  - cbn [runTracker in_key2Low in_connected in_frequency].
    rewrite (playNote_new_note false f1 s Hf1 Hm1 (not_eq_sym Hne)).
    assert (Hm2' : (C5 <= freqToMidi f2 <= 127)%Z)
      by (destruct (freqToMidi_range f2); unfold C5 in *; lia).
    rewrite (playNote_new_note true f2 (mkTracker (freqToMidi f1) (bleInitialised s)) Hf2 Hm2'
              ltac:(cbn; congruence)).
    cbn [prevMidiNumber bleInitialised]. rewrite Hb, Hm2.
    assert (Hpos : (0 <? freqToMidi f1)%Z = true) by (apply Z.ltb_lt; unfold C5 in *; lia).
    rewrite Hpos. reflexivity.
  - cbn. intros (_ & H & _). apply H. set_solver.
Qed.

Lemma playNote_dropout_double_note_on_witness :
  let s := mkTracker 72 true in
  (bleInitialised s = true /\ (C5 <= prevMidiNumber s)%Z /\ prevMidiNumber s ∈ ({[72%Z]} : gset Z) /\
   0 < 65926 # 100 /\ (C5 <= freqToMidi (65926 # 100) <= 127)%Z /\
   freqToMidi (65926 # 100) <> prevMidiNumber s /\
   0 < 52325 # 100 /\ freqToMidi (52325 # 100) = prevMidiNumber s) /\
  let calls := [NoteOff 0 (freqToMidi (65926 # 100)) 127; NoteOn 0 (prevMidiNumber s) 127] in
  runTracker s [mkInput true false (65926 # 100); mkInput true true (52325 # 100)] =
    (mkTracker (prevMidiNumber s) true, calls) /\ ~ freshOns {[72%Z]} calls.
Proof.
  intros s.
  assert (Hb : bleInitialised s = true) by reflexivity.
  assert (Hp : (C5 <= prevMidiNumber s)%Z) by (vm_compute; discriminate).
  assert (HS : prevMidiNumber s ∈ ({[72%Z]} : gset Z)) by (apply elem_of_singleton; reflexivity).
  assert (Hf1 : 0 < 65926 # 100) by qdecide.
  assert (Hm1 : (C5 <= freqToMidi (65926 # 100) <= 127)%Z) by (vm_compute; split; discriminate).
  assert (Hne : freqToMidi (65926 # 100) <> prevMidiNumber s) by (vm_compute; discriminate).
  assert (Hf2 : 0 < 52325 # 100) by qdecide.
  assert (Hm2 : freqToMidi (52325 # 100) = prevMidiNumber s) by (vm_compute; reflexivity).
  split; [exact (conj Hb (conj Hp (conj HS (conj Hf1 (conj Hm1 (conj Hne (conj Hf2 Hm2)))))))|].
  exact (playNote_dropout_double_note_on s _ _ {[72%Z]} Hb Hp HS Hf1 Hm1 Hne Hf2 Hm2).
Defined.

(** ** A note the tracker has forgotten *)

(** While [prevMidiNumber] is not [p], a cycle with the link up that
    sends no note-on for [p] leaves [p] sounding at the receiver and
    [prevMidiNumber] different from [p]: every note-off [playNote] sends
    is for [prevMidiNumber] or the opening A4. *)
Lemma playNote_keeps_sounding (k : bool) (f : Q) (s : TrackerState) (S : gset Z) (p : Z) :
  (C5 <= p)%Z -> prevMidiNumber s <> p -> p ∈ S ->
  let '(s', cs) := playNote k true f s in
  NoteOn 0 p 127 ∉ cs -> p ∈ sounding S cs /\ prevMidiNumber s' <> p.
Proof.
  intros Hp Hne HS. unfold playNote. destruct k; [|cbn; auto]. qcase 0 f.
  - destruct ((C5 <=? freqToMidi f)%Z && (freqToMidi f <=? 127)%Z &&
              negb (prevMidiNumber s =? freqToMidi f)%Z); [|cbn; auto].
    intros Hn. assert (Hm : freqToMidi f <> p) by (intros <-; apply Hn; set_solver).
    split; [|exact Hm].
    assert (H69 : p <> MIDI_A4) by (unfold C5, MIDI_A4 in *; lia).
    unfold sounding. rewrite !foldl_app.
    destruct (bleInitialised s), (0 <? prevMidiNumber s)%Z; cbn; set_solver.
  - intros _. split; [unfold sounding; cbn; set_solver | exact Hne].
Qed.

(** Along any cycles with the link up, as long as no note-on for [p] is
    sent, [p] stays sounding. *)
Lemma runTracker_keeps_sounding (ins : list TrackerInput) (s : TrackerState) (S : gset Z) (p : Z) :
  (C5 <= p)%Z -> Forall (fun i => in_connected i = true) ins -> prevMidiNumber s <> p -> p ∈ S ->
  NoteOn 0 p 127 ∉ snd (runTracker s ins) -> p ∈ sounding S (snd (runTracker s ins)).
Proof.
  intros Hp Hc. revert s S. induction Hc as [|i ins Hi Hc IH]; intros s S Hne HS; [intros _; exact HS|].
  cbn [runTracker]. pose proof (playNote_keeps_sounding (in_key2Low i) (in_frequency i) s S p Hp Hne HS) as H1.
  rewrite <- Hi in H1. destruct (playNote _ _ _ s) as [s1 cs1].
  specialize (IH s1 (sounding S cs1)). destruct (runTracker s1 ins) as [s2 cs2]. cbn [snd] in *.
  rewrite not_elem_of_app, sounding_app. intros [Hn1 Hn2].
  destruct (H1 Hn1) as [HS1 Hne1]. exact (IH Hne1 HS1 Hn2).
Qed.

(** ** A sustained tone *)

(** Once the note of a tone is [prevMidiNumber], the tone sends nothing. *)
Lemma sustained_tail (f : Q) (n : nat) (s : TrackerState) :
  0 < f -> prevMidiNumber s = freqToMidi f ->
  runTracker s (repeat (mkInput true true f) n) = (s, []).
Proof.
  intros Hf Hp. apply Qltb_lt in Hf. induction n as [|n IH]; [reflexivity|].
  cbn [repeat runTracker in_key2Low in_connected in_frequency].
  assert (E : playNote true true f s = (s, [])).
  { unfold playNote. rewrite Hf, Hp, Z.eqb_refl, andb_false_r. reflexivity. }
  rewrite E, IH. reflexivity.
Qed.

(** C32. A pure tone held with KEY2 down and the link up, whose note is
    a playable MIDI note other than the last one, sends its note-on
    exactly once: the first cycle sends the opening sequence if it is
    still due, a note-off for the previous note if there is one, and the
    note-on; every later cycle of the tone sends nothing. *)
Theorem sustained_tone_one_note_on (s : TrackerState) (f : Q) (n : nat) :
  0 < f -> (C5 <= freqToMidi f <= 127)%Z -> prevMidiNumber s <> freqToMidi f ->
  runTracker s (repeat (mkInput true true f) (S n)) =
  (mkTracker (freqToMidi f) true,
   (if bleInitialised s then [] else openingCalls) ++
   (if (0 <? prevMidiNumber s)%Z then [NoteOff 0 (prevMidiNumber s) 127] else []) ++
   [NoteOn 0 (freqToMidi f) 127]).
Proof.
  intros Hf Hm Hp.
  assert (E : playNote true true f s =
    (mkTracker (freqToMidi f) true,
     (if bleInitialised s then [] else openingCalls) ++
     (if (0 <? prevMidiNumber s)%Z then [NoteOff 0 (prevMidiNumber s) 127] else []) ++
     [NoteOn 0 (freqToMidi f) 127])).
  { unfold playNote. apply Qltb_lt in Hf. rewrite Hf.
    replace ((C5 <=? freqToMidi f)%Z && (freqToMidi f <=? 127)%Z &&
             negb (prevMidiNumber s =? freqToMidi f)%Z) with true; [reflexivity|].
    symmetry. rewrite !andb_true_iff, negb_true_iff, Z.leb_le, Z.leb_le, Z.eqb_neq. lia. }
  cbn [repeat runTracker in_key2Low in_connected in_frequency]. rewrite E.
  rewrite (sustained_tail f n (mkTracker (freqToMidi f) true) Hf eq_refl), app_nil_r.
  reflexivity.
Qed.

Lemma sustained_tone_one_note_on_witness :
  let f := 52325 # 100 in
  0 < f /\ (C5 <= freqToMidi f <= 127)%Z /\ prevMidiNumber tracker0 <> freqToMidi f /\
  runTracker tracker0 (repeat (mkInput true true f) 3) =
  (mkTracker (freqToMidi f) true,
   (if bleInitialised tracker0 then [] else openingCalls) ++
   (if (0 <? prevMidiNumber tracker0)%Z then [NoteOff 0 (prevMidiNumber tracker0) 127] else []) ++
   [NoteOn 0 (freqToMidi f) 127]).
Proof.
  intros f.
  assert (H1 : 0 < f) by qdecide.
  assert (H2 : (C5 <= freqToMidi f <= 127)%Z) by (vm_compute; split; discriminate).
  assert (H3 : prevMidiNumber tracker0 <> freqToMidi f) by (vm_compute; discriminate).
  split; [exact H1|]. split; [exact H2|]. split; [exact H3|].
  exact (sustained_tone_one_note_on tracker0 f 2 H1 H2 H3).
Defined.

(** [playNote] depends on the value of the frequency only. *)
#[export] Instance playNote_proper : Proper (eq ==> eq ==> Qeq ==> eq ==> eq) playNote.
Proof. intros k _ <- c _ <- f f' E s _ <-. unfold playNote. cbv zeta.
  rewrite (freqToMidi_proper f f' E). now rewrite E. Qed.

End Tracker.
