(* ===== verification/TrackerSpec.v ===== *)
(** * The note-event tracker against the spec's state machine

    The spec (section 4.5) describes the tracker as a machine with the
    states [Silent] and [Sounding m]: a new valid note [m] different from
    the last one sends a note-off for the previous note (if any) and a
    note-on for [m]; a repeated note sends nothing; a cycle without an
    estimate from [Sounding p] sends a note-off for [p] and returns to
    [Silent].  [specStep] writes that machine out (it is the spec's, not
    code of the repository), and the theorem of this file shows where
    [Tracker.playNote] implements it: on every stream of playable notes
    with KEY2 held and the link up, the MIDI calls of the code are the
    opening sequence followed by exactly the calls of the spec machine,
    and the code's [prevMidiNumber] is the note of the machine's state.
    Silent cycles are where the two part ([Tracker.playNote_no_retrigger_after_silence]). *)

From S2P Require Import Prelude Quantizer Tracker.
From stdpp Require Import base.
Open Scope Z_scope.

Module TrackerSpec.
Import Quantizer Tracker.

Inductive SpecState :=
| Silent
| Sounding (m : Z).

(** One cycle of the spec's tracker; [None] is "no valid estimate". *)
Definition specStep (st : SpecState) (n : option Z) : SpecState * list MidiCall :=
  match n, st with
  | Some m, Sounding p => if p =? m then (st, []) else (Sounding m, [NoteOff 0 p 127; NoteOn 0 m 127])
  | Some m, Silent => (Sounding m, [NoteOn 0 m 127])
  | None, Sounding p => (Silent, [NoteOff 0 p 127])
  | None, Silent => (Silent, [])
  end.

Fixpoint specRun (st : SpecState) (ns : list (option Z)) : SpecState * list MidiCall :=
  match ns with
  | [] => (st, [])
  | n :: rest =>
      let '(st1, cs1) := specStep st n in
      let '(st2, cs2) := specRun st1 rest in
      (st2, cs1 ++ cs2)
  end.

(** A cycle whose frequency quantises to a note [playNote] plays, with
    KEY2 held and the link up. *)
Definition playable (i : TrackerInput) : Prop :=
  in_key2Low i = true /\ in_connected i = true /\ (0 < in_frequency i)%Q /\
  (C5 <= freqToMidi (in_frequency i) <= 127).

(** The note the spec machine receives for such a cycle. *)
Definition specNote (i : TrackerInput) : option Z := Some (freqToMidi (in_frequency i)).

(** The code's state matches [Sounding p] once the opening sequence has
    been sent. *)
Definition refines (s : TrackerState) (st : SpecState) : Prop :=
  match st with
  | Sounding p => prevMidiNumber s = p /\ bleInitialised s = true /\ C5 <= p
  | Silent => False
  end.

(** ** Lemmas *)

Lemma playNote_playable (i : TrackerInput) (s : TrackerState) :
  playable i ->
  playNote (in_key2Low i) (in_connected i) (in_frequency i) s =
  if prevMidiNumber s =? freqToMidi (in_frequency i) then (s, [])
  else (mkTracker (freqToMidi (in_frequency i)) true,
        (if bleInitialised s then [] else openingCalls) ++
        (if 0 <? prevMidiNumber s then [NoteOff 0 (prevMidiNumber s) 127] else []) ++
        [NoteOn 0 (freqToMidi (in_frequency i)) 127]).
Proof.
  intros (Hk & Hc & Hf & Hm). unfold playNote. cbv zeta. rewrite Hk, Hc.
  apply Qltb_lt in Hf. rewrite Hf.
  destruct (Z.eqb_spec (prevMidiNumber s) (freqToMidi (in_frequency i))) as [E|E].
  - rewrite andb_false_r. reflexivity.
  - assert (H1 : (C5 <=? freqToMidi (in_frequency i)) = true) by (apply Z.leb_le; lia).
    assert (H2 : (freqToMidi (in_frequency i) <=? 127) = true) by (apply Z.leb_le; lia).
    rewrite H1, H2. reflexivity.
Qed.

(** From a refined state, the code and the spec send the same calls. *)
Lemma runTracker_refines (ins : list TrackerInput) (s : TrackerState) (st : SpecState) :
  Forall playable ins -> refines s st ->
  let '(s', cs) := runTracker s ins in
  let '(st', cs') := specRun st (map specNote ins) in
  refines s' st' /\ cs = cs'.
Proof.
  intros Hins. revert s st. induction Hins as [|x xs Hx Hxs IH]; intros s st Hr;
    [cbn; split; [exact Hr | reflexivity]|].
  destruct st as [|p]; [contradiction|]. destruct Hr as (Hp & Hb & Hc5).
  cbn [runTracker specRun map]. rewrite (playNote_playable x s Hx).
  change (specNote x) with (Some (freqToMidi (in_frequency x))). unfold specStep. rewrite Hp.
  pose proof Hx as (_ & _ & _ & Hm).
  destruct (Z.eqb_spec p (freqToMidi (in_frequency x))) as [E|E].
  - specialize (IH s (Sounding p) (conj Hp (conj Hb Hc5))).
    destruct (runTracker s xs), (specRun (Sounding p) (map specNote xs)).
    destruct IH as [IH1 IH2]. subst. auto.
  - specialize (IH (mkTracker (freqToMidi (in_frequency x)) true)
                   (Sounding (freqToMidi (in_frequency x)))
                   (conj eq_refl (conj eq_refl (proj1 Hm)))).
    destruct (runTracker _ xs), (specRun _ (map specNote xs)).
    destruct IH as [IH1 IH2]. subst. rewrite Hb.
    assert (Hpos : (0 <? prevMidiNumber s) = true) by (apply Z.ltb_lt; unfold C5 in Hc5; lia).
    rewrite Hpos. auto.
Qed.

(** ** Properties *)

(** C28. Refinement of the spec's tracker: from start-up, on every
    stream of cycles that quantise to playable notes with KEY2 held and
    the link up, [playNote] sends the opening sequence and then exactly
    the note-on and note-off calls of the spec's state machine started
    [Silent], and its [prevMidiNumber] is the note the machine ends
    sounding. *)
Theorem playNote_refines_spec (i : TrackerInput) (ins : list TrackerInput) :
  Forall playable (i :: ins) ->
  let '(s, cs) := runTracker tracker0 (i :: ins) in
  let '(st, cs') := specRun Silent (map specNote (i :: ins)) in
  refines s st /\ cs = openingCalls ++ cs'.
Proof.
  intros Hall. inversion Hall as [|? ? Hi Hins]; subst.
  cbn [runTracker specRun map]. rewrite (playNote_playable i tracker0 Hi).
  pose proof Hi as (_ & _ & _ & Hm).
  assert (Hne : (prevMidiNumber tracker0 =? freqToMidi (in_frequency i)) = false)
    by (apply Z.eqb_neq; cbn; unfold C5 in Hm; lia).
  rewrite Hne. change (specNote i) with (Some (freqToMidi (in_frequency i))). unfold specStep.
  pose proof (runTracker_refines ins (mkTracker (freqToMidi (in_frequency i)) true)
                (Sounding (freqToMidi (in_frequency i))) Hins
                (conj eq_refl (conj eq_refl (proj1 Hm)))) as IH.
  destruct (runTracker _ ins), (specRun _ (map specNote ins)).
  destruct IH as [IH1 IH2]. subst. split; [exact IH1|]. reflexivity.
Qed.

Lemma playNote_refines_spec_witness :
  let i := mkInput true true (52325 # 100) in
  let ins := [mkInput true true (52325 # 100); mkInput true true 880] in
  Forall playable (i :: ins) /\
  let '(s, cs) := runTracker tracker0 (i :: ins) in
  let '(st, cs') := specRun Silent (map specNote (i :: ins)) in
  refines s st /\ cs = openingCalls ++ cs'.
Proof.
  intros i ins.
  assert (H : Forall playable (i :: ins)).
  { repeat constructor; try qdecide; vm_compute; discriminate. }
  split; [exact H | exact (playNote_refines_spec i ins H)].
Defined.

End TrackerSpec.
