(* ===== verification/MainLoop.v ===== *)
(** * The main loop: [loop()] and [checkSleep] (main.cpp)

    One iteration of [loop()] calls [checkSleep()], then
    [noteFrequency = detect_loop(); playNote(noteFrequency);], then the
    serial command handler and the FTP server, which share no static
    with the audio path; [System] composes all four.  [checkSleep] sends the ESP32 into deep
    sleep while KEY1 is held; waking up on KEY1 reboots the chip, so
    [setup()] runs again and every static starts afresh.  The persistent
    state of the audio path is the filter's and the tracker's statics;
    [step] is one iteration as a relation over [Mode]s, labelled with the
    MIDI calls it makes, and [reachable] collects the states reachable
    from boot together with the calls made since the last boot.
    [setup] records which subsystems [setup()] leaves running: its two
    early returns on a SPIFFS failure skip the FTP server and the I2S
    driver, and [runLoop] runs [loop()] on after that. *)

From S2P Require Import Prelude I2S HighPass Spectrum PeakExtractor Quantizer Detect Tracker.
From stdpp Require Import base gmap sets.
Open Scope Q_scope.

Module MainLoop.
Import I2S HighPass Detect Tracker.

(** The statics of the audio path. *)
Record SysState := mkSys {
  filt : FilterState;
  trk : TrackerState
}.

(** After [setup()]: all statics at their initial values. *)
Definition boot : SysState := mkSys filter0 tracker0.

Inductive Mode :=
| Running (st : SysState)
| Sleeping.

(** The inputs of one iteration: KEY1 and KEY2 ([digitalRead(..) == LOW]),
    the BLE connection and the I2S read. *)
Record CycleInput := mkCycle {
  key1Low : bool;
  key2Low : bool;
  bleConnected : bool;
  i2sRead : I2SRead
}.

(** The outcomes [setup()] depends on: [SPIFFS.begin(false)], then on
    failure [SPIFFS.format()] and a second [SPIFFS.begin(false)]. *)
Record SetupEnv := mkSetupEnv {
  spiffsBeginOk : bool;
  spiffsFormatOk : bool;
  spiffsRemountOk : bool
}.

(** What [setup()] leaves running: BLE MIDI and the KEY1 wake-up are set
    up first; SPIFFS, the FTP servers ([ftpServer.begin()]) and the I2S
    driver ([commandSetup()], [detect_setup()]) only when SPIFFS mounts,
    since the two failure branches [return] early. *)
Record Devices := mkDevices {
  bleStarted : bool;
  wakeupArmed : bool;
  spiffsMounted : bool;
  ftpStarted : bool;
  i2sInstalled : bool
}.

Definition setup (env : SetupEnv) : Devices :=
  let ready := mkDevices true true true true true in
  let aborted := mkDevices true true false false false in
  if spiffsBeginOk env then ready
  else if spiffsFormatOk env then (if spiffsRemountOk env then ready else aborted)
  else aborted.

Section WithFFT.
Context `{FFTLib}.

(** [loop()] on the audio path: [checkSleep] first (deep sleep, no MIDI
    call), else [detect_loop] then [playNote]. *)
Definition loop (st : SysState) (i : CycleInput) : Mode * list MidiCall :=
  if key1Low i then (Sleeping, [])
  else
    let '(noteFrequency, filt') := detect_loop (filt st) (i2sRead i) in
    let '(trk', calls) := playNote (key2Low i) (bleConnected i) noteFrequency (trk st) in
    (Running (mkSys filt' trk'), calls).

(** Successive iterations of [loop()] until one puts the chip to sleep. *)
Fixpoint runLoop (st : SysState) (ins : list CycleInput) : Mode * list MidiCall :=
  match ins with
  | [] => (Running st, [])
  | i :: rest =>
      match loop st i with
      | (Running st', cs) => let '(m, cs') := runLoop st' rest in (m, cs ++ cs')
      | (Sleeping, cs) => (Sleeping, cs)
      end
  end.

(** One transition: an iteration of [loop()] while running; waking up
    (KEY1 low, [esp_sleep_enable_ext0_wakeup(KEY1_NUM, 0)]) reboots. *)
Inductive step : Mode -> CycleInput -> list MidiCall -> Mode -> Prop :=
| step_loop st i m' calls :
    loop st i = (m', calls) -> step (Running st) i calls m'
| step_wake i :
    key1Low i = true -> step Sleeping i [] (Running boot).

(** [checkSleep()] over the readings of [digitalRead(KEY1)] it makes, in
    order ([true] for [LOW]).  A first reading [HIGH] returns at once
    ([Some false]).  A [LOW] one waits [delay(150)], then spins in
    [while (digitalRead(KEY1) == LOW) {}] until a reading is [HIGH],
    blinks the LED, prints and calls [esp_deep_sleep_start()]
    ([Some true]).  [None]: still spinning when the readings run out,
    which is how a key held forever is observed. *)
Fixpoint waitRelease (key1Reads : list bool) : option bool :=
  match key1Reads with
  | [] => None
  | low :: rest => if low then waitRelease rest else Some true
  end.

Definition checkSleep (key1Reads : list bool) : option bool :=
  match key1Reads with
  | [] => None
  | low :: rest => if low then waitRelease rest else Some false
  end.

(** States reachable from power-on, with the calls made since the last
    boot (a wake-up reboots, so the list starts afresh). *)
Inductive reachable : Mode -> list MidiCall -> Prop :=
| reach_boot : reachable (Running boot) []
| reach_step st calls i cs m' :
    reachable (Running st) calls -> step (Running st) i cs m' -> reachable m' (calls ++ cs)
| reach_wake calls i :
    reachable Sleeping calls -> step Sleeping i [] (Running boot) -> reachable (Running boot) [].

(** ** The opening sequence is sent once per boot, before any note *)

Definition isNoteOff (c : MidiCall) : bool :=
  match c with NoteOff _ _ _ => true | _ => false end.

Definition notProgramChange (c : MidiCall) : bool :=
  match c with ProgramChange _ _ => false | _ => true end.

(** The shape of the calls since boot: before [bleInitialised] is set only
    note-offs; after it, those note-offs, the opening sequence, and then
    no further program change. *)
Definition bootCalls (initialised : bool) (calls : list MidiCall) : Prop :=
  if initialised then
    exists pre post, calls = pre ++ openingCalls ++ post /\
      Forall (fun c => isNoteOff c = true) pre /\
      Forall (fun c => notProgramChange c = true) post
  else Forall (fun c => isNoteOff c = true) calls.

Lemma bootCalls_extend (b : bool) (calls cs : list MidiCall) :
  bootCalls b calls -> Forall (fun c => isNoteOff c = true) cs -> bootCalls b (calls ++ cs).
Proof.
  destruct b; cbn.
  - intros (pre & post & -> & Hpre & Hpost) Hcs. exists pre, (post ++ cs).
    rewrite <- !app_assoc. repeat split; [exact Hpre|]. apply Forall_app. split; [exact Hpost|].
    eapply Forall_impl; [exact Hcs|]. intros [] Hc; cbn in *; congruence.
  - intros Hc Hcs. apply Forall_app. auto.
Qed.

Lemma playNote_bootCalls (k c : bool) (f : Q) (s : TrackerState) (calls : list MidiCall) :
  bootCalls (bleInitialised s) calls ->
  let '(s', cs) := playNote k c f s in bootCalls (bleInitialised s') (calls ++ cs).
Proof.
  intros Hb. unfold playNote. destruct k; [|rewrite app_nil_r; exact Hb].
  destruct (Qltb 0 f); [|apply bootCalls_extend; [exact Hb | repeat constructor]].
  destruct (_ && _ && _); [|rewrite app_nil_r; exact Hb].
  destruct c; [|rewrite app_nil_r; exact Hb]. cbn [bleInitialised].
  assert (Hpost : Forall (fun c => notProgramChange c = true)
                    ((if (0 <? prevMidiNumber s)%Z then [NoteOff 0 (prevMidiNumber s) 127] else [])
                     ++ [NoteOn 0 (Quantizer.freqToMidi f) 127]))
    by (destruct (0 <? prevMidiNumber s)%Z; repeat constructor).
  destruct (bleInitialised s); cbn in Hb |- *.
  - destruct Hb as (pre & post & -> & Hpre & Hp). eexists pre, (post ++ _).
    rewrite <- !app_assoc. split; [reflexivity|]. split; [exact Hpre|].
    apply Forall_app. split; [exact Hp | exact Hpost].
  - eexists calls, _. split; [reflexivity|]. split; [exact Hb | exact Hpost].
Qed.

(** One running iteration keeps the shape of the calls since boot. *)
Lemma loop_bootCalls (st st' : SysState) (i : CycleInput) (calls cs : list MidiCall) :
  bootCalls (bleInitialised (trk st)) calls -> loop st i = (Running st', cs) ->
  bootCalls (bleInitialised (trk st')) (calls ++ cs).
Proof.
  intros Hb Hloop. unfold loop in Hloop. destruct (key1Low i); [discriminate|].
  destruct (detect_loop (filt st) (i2sRead i)) as [f filt'].
  pose proof (playNote_bootCalls (key2Low i) (bleConnected i) f (trk st) calls Hb) as Hp.
  destruct (playNote _ _ _ _) as [trk' cs']. injection Hloop as <- <-. exact Hp.
Qed.

(** C9. Invariant of the main loop, by induction on reachability: in every
    running state, the MIDI calls made since the last boot are note-offs
    only while [bleInitialised] is false; once it is true they are
    note-offs, then the opening sequence (program change to rock organ,
    A4 on, one second, A4 off) exactly once, then no other program
    change.  No note-on ever precedes the opening sequence. *)
Theorem loop_opening_once (st : SysState) (calls : list MidiCall) :
  reachable (Running st) calls -> bootCalls (bleInitialised (trk st)) calls.
Proof.
  intros Hr. remember (Running st) as m eqn:Em. revert st Em.
  induction Hr as [|st0 calls0 i cs m' Hr IH Hstep|calls0 i Hr IH Hstep];
    intros st Em; [injection Em as <-; constructor| |injection Em as <-; constructor].
  subst m'. inversion Hstep as [st1 i1 m1 calls1 Hloop|]; subst.
  exact (loop_bootCalls st0 st i calls0 cs (IH st0 eq_refl) Hloop).
Qed.

(** ** Faults and sleep *)

(** A failed read leaves the statics as they are; the 0.0 it yields
    reaches [playNote]. *)
Lemma loop_on_fault (st : SysState) (i : CycleInput) :
  key1Low i = false -> readI2SSamples (i2sRead i) = false ->
  loop st i = (Running st, if key2Low i then [NoteOff 0 (prevMidiNumber (trk st)) 127] else []).
Proof.
  intros H1 Hr. unfold loop, detect_loop. rewrite H1, Hr. cbn [negb].
  destruct st as [f t]. unfold playNote. destruct (key2Low i); reflexivity.
Qed.

(** C15. An I2S read fault is not silent at the MIDI output: with KEY2
    held, the 0.0 that [detect_loop] returns for the aborted cycle makes
    [playNote] send a note-off for the last note, although the spec
    (section 7) says a faulty cycle emits no event.  The statics are
    untouched. *)
Theorem loop_read_fault_note_off (st : SysState) (i : CycleInput) :
  key1Low i = false -> key2Low i = true -> readI2SSamples (i2sRead i) = false ->
  loop st i = (Running st, [NoteOff 0 (prevMidiNumber (trk st)) 127]).
Proof. intros H1 H2 Hr. rewrite loop_on_fault by assumption. now rewrite H2. Qed.

(** C35. If SPIFFS neither mounts nor can be formatted and remounted,
    [setup()] returns before starting the FTP server and the microphone;
    [loop()] still runs, every I2S read then fails, and the instrument
    never plays: the statics stay at their boot values and the only MIDI
    calls are a note-off for note -1 on each cycle with KEY2 held. *)
Theorem setup_without_spiffs_is_mute (env : SetupEnv) (ins : list CycleInput) :
  spiffsBeginOk env = false -> (spiffsFormatOk env = false \/ spiffsRemountOk env = false) ->
  Forall (fun i => key1Low i = false /\
                   (i2sInstalled (setup env) = false -> readI2SSamples (i2sRead i) = false)) ins ->
  ftpStarted (setup env) = false /\ i2sInstalled (setup env) = false /\
  runLoop boot ins = (Running boot, map (fun _ => NoteOff 0 (-1) 127) (List.filter key2Low ins)).
Proof.
  intros Hb Hf Hins.
  assert (Hd : ftpStarted (setup env) = false /\ i2sInstalled (setup env) = false).
  { unfold setup. rewrite Hb. destruct Hf as [Hf|Hr]; [rewrite Hf; auto|].
    destruct (spiffsFormatOk env); [rewrite Hr|]; auto. }
  split; [apply Hd|]. split; [apply Hd|].
  induction Hins as [|i ins [Hk Hr] Hins IH]; [reflexivity|].
  cbn [runLoop]. rewrite loop_on_fault by (exact Hk || exact (Hr (proj2 Hd))). rewrite IH.
  cbn [List.filter]. destruct (key2Low i); reflexivity.
Qed.

End WithFFT.

Lemma loop_opening_once_witness :
  let calls := [NoteOff 0 (-1) 127] in
  @reachable identityFFT (Running boot) calls /\
  bootCalls (bleInitialised (trk boot)) calls.
Proof.
  intros calls.
  assert (H : @reachable identityFFT (Running boot) calls).
  { change calls with ([] ++ calls).
    apply (reach_step boot [] (mkCycle false true true (mkI2SRead 1 0 []))).
    - constructor.
    - constructor. reflexivity. }
  split; [exact H | apply (@loop_opening_once identityFFT boot calls H)].
Defined.

Lemma loop_read_fault_note_off_witness :
  let i := mkCycle false true true (mkI2SRead 1 0 []) in
  key1Low i = false /\ key2Low i = true /\ readI2SSamples (i2sRead i) = false /\
  @loop identityFFT (mkSys filter0 (mkTracker 72 true)) i =
    (Running (mkSys filter0 (mkTracker 72 true)),
     [NoteOff 0 (prevMidiNumber (trk (mkSys filter0 (mkTracker 72 true)))) 127]).
Proof.
  intros i. split; [reflexivity|]. split; [reflexivity|]. split; [reflexivity|].
  apply (@loop_read_fault_note_off identityFFT); reflexivity.
Defined.

Lemma setup_without_spiffs_is_mute_witness :
  let env := mkSetupEnv false false false in
  let ins := [mkCycle false true true (mkI2SRead 1 0 []); mkCycle false false true (mkI2SRead 1 0 [])] in
  spiffsBeginOk env = false /\ (spiffsFormatOk env = false \/ spiffsRemountOk env = false) /\
  Forall (fun i => key1Low i = false /\
                   (i2sInstalled (setup env) = false -> readI2SSamples (i2sRead i) = false)) ins /\
  ftpStarted (setup env) = false /\ i2sInstalled (setup env) = false /\
  @runLoop identityFFT boot ins = (Running boot, map (fun _ => NoteOff 0 (-1) 127) (List.filter key2Low ins)).
Proof.
  intros env ins.
  assert (Hins : Forall (fun i => key1Low i = false /\
                   (i2sInstalled (setup env) = false -> readI2SSamples (i2sRead i) = false)) ins)
    by (repeat constructor).
  split; [reflexivity|]. split; [left; reflexivity|]. split; [exact Hins|].
  exact (@setup_without_spiffs_is_mute identityFFT env ins eq_refl (or_introl eq_refl) Hins).
Defined.

(** ** [checkSleep] *)

(** The wait for the release of KEY1 ends exactly when a reading is
    [HIGH], and keeps spinning while every reading is [LOW]. *)
Lemma waitRelease_spec (rs : list bool) :
  (waitRelease rs = Some true <-> In false rs) /\
  (waitRelease rs = None <-> Forall (eq true) rs) /\ waitRelease rs <> Some false.
Proof.
  induction rs as [|[|] rs IH]; cbn [waitRelease].
  - split; [split; [discriminate | intros []]|]. split; [split; [constructor | reflexivity]|].
    discriminate.
  - destruct IH as (IH1 & IH2 & IH3). rewrite IH1, IH2, Forall_cons_iff. cbn.
    split; [split; [intros H; right; exact H | intros [H|H]; [discriminate | exact H]]|].
    split; [split; [intros H; split; [reflexivity | exact H] | intros [_ H]; exact H]|].
    exact IH3.
  - split; [split; [intros _; left; reflexivity | reflexivity]|].
    split; [split; [discriminate | intros H; inversion H; discriminate]|]. discriminate.
Qed.

(** [checkSleep] goes to sleep only after a first reading [LOW], and then
    exactly when KEY1 is released; when it returns, the abstract
    [key1Low] of [loop] is its first reading. *)
Lemma checkSleep_spec (rs : list bool) :
  (checkSleep rs = Some true <-> hd false rs = true /\ In false (tl rs)) /\
  (forall b, checkSleep rs = Some b -> b = hd false rs).
Proof.
  destruct rs as [|[|] rs]; cbn [checkSleep hd tl].
  - split; [split; [discriminate | intros [H _]; discriminate] | discriminate].
  - destruct (waitRelease_spec rs) as (H1 & _ & H3). rewrite H1.
    split; [tauto|]. intros [|] Hb; [reflexivity | contradiction].
  - split; [split; [discriminate | intros [H _]; discriminate]|]. congruence.
Qed.

(** After the reboot, along any iterations of [loop()] with the link up,
    a note [p] from C5 that is sounding stays sounding as long as no
    note-on for [p] is sent. *)
Lemma runLoop_keeps_sounding `{FFTLib} (ins : list CycleInput) (st : SysState) (S : gset Z) (p : Z) :
  (C5 <= p)%Z -> Forall (fun c => bleConnected c = true) ins ->
  prevMidiNumber (trk st) <> p -> p ∈ S ->
  NoteOn 0 p 127 ∉ snd (runLoop st ins) -> p ∈ sounding S (snd (runLoop st ins)).
Proof.
  intros Hp Hc. revert st S. induction Hc as [|i ins Hi Hc IH]; intros st S Hne HS; [intros _; exact HS|].
  cbn [runLoop]. unfold loop. destruct (key1Low i); [intros _; exact HS|].
  destruct (detect_loop (filt st) (i2sRead i)) as [nf filt'].
  pose proof (playNote_keeps_sounding (key2Low i) nf (trk st) S p Hp Hne HS) as H1.
  rewrite <- Hi in H1. destruct (playNote _ _ _ (trk st)) as [trk' cs1].
  specialize (IH (mkSys filt' trk') (sounding S cs1)).
  destruct (runLoop (mkSys filt' trk') ins) as [m cs2]. cbn [snd] in *.
  rewrite not_elem_of_app, sounding_app. intros [Hn1 Hn2].
  destruct (H1 Hn1) as [HS1 Hne1]. exact (IH Hne1 HS1 Hn2).
Qed.

(** C25. Sleep leaves a note on for good: when [checkSleep] puts the chip
    to sleep (KEY1 read [LOW], then released), [loop()] makes no MIDI
    call, so a note [p] (from C5) sounding at the receiver gets no
    note-off; waking up reboots into [boot], which has forgotten [p], and
    along every run of [loop()] after the wake-up with the link up, [p]
    is still sounding at the receiver unless the device has itself sent
    a note-on for [p] again: no note-off for it ever comes. *)
Theorem loop_sleep_leaves_note_on `{FFTLib} (st : SysState) (rs : list bool) (i w : CycleInput)
    (ins : list CycleInput) (S : gset Z) (p : Z) :
  checkSleep rs = Some true -> key1Low i = hd false rs -> key1Low w = true ->
  (C5 <= p)%Z -> p ∈ S -> Forall (fun c => bleConnected c = true) ins ->
  loop st i = (Sleeping, []) /\ step Sleeping w [] (Running boot) /\
  (NoteOn 0 p 127 ∉ snd (runLoop boot ins) -> p ∈ sounding S (snd (runLoop boot ins))).
Proof.
  intros Hs Hi Hw Hp HS Hc. destruct (checkSleep_spec rs) as [[Hsl _] _].
  destruct (Hsl Hs) as [Hhd _]. split; [unfold loop; rewrite Hi, Hhd; reflexivity|].
  split; [constructor; exact Hw|].
  apply runLoop_keeps_sounding; [exact Hp | exact Hc | cbn; unfold C5 in Hp; lia | exact HS].
Qed.

Lemma loop_sleep_leaves_note_on_witness :
  let st := mkSys filter0 (mkTracker 72 true) in
  let fault := mkI2SRead 1 0 [] in
  let i := mkCycle true true true fault in
  let ins := [mkCycle false true true fault; mkCycle false false true fault] in
  (checkSleep [true; true; false] = Some true /\ key1Low i = hd false [true; true; false] /\
   key1Low i = true /\ (C5 <= 72)%Z /\ 72%Z ∈ ({[72%Z]} : gset Z) /\
   Forall (fun c => bleConnected c = true) ins) /\
  @loop identityFFT st i = (Sleeping, []) /\ @step identityFFT Sleeping i [] (Running boot) /\
  (NoteOn 0 72 127 ∉ snd (@runLoop identityFFT boot ins) ->
   72%Z ∈ sounding {[72%Z]} (snd (@runLoop identityFFT boot ins))).
Proof.
  intros st fault i ins.
  assert (H5 : (C5 <= 72)%Z) by (vm_compute; discriminate).
  assert (HS : 72%Z ∈ ({[72%Z]} : gset Z)) by (apply elem_of_singleton; reflexivity).
  assert (Hc : Forall (fun c => bleConnected c = true) ins) by (repeat constructor).
  split; [exact (conj eq_refl (conj eq_refl (conj eq_refl (conj H5 (conj HS Hc)))))|].
  exact (@loop_sleep_leaves_note_on identityFFT st [true; true; false] i i ins {[72%Z]} 72
           eq_refl eq_refl eq_refl H5 HS Hc).
Defined.

End MainLoop.
