(* ===== verification/Spiffs.v ===== *)
(** * SPIFFS, the flash file system shared by the FTP server and the recorder

    The program reaches SPIFFS through [SPIFFS.open(path, "r")],
    [SPIFFS.open(path, "w")] followed by writes, [SPIFFS.remove(path)] and
    the listing of the root directory.  The concrete model is the list of
    files in listing order; the abstract specification is a finite map
    from paths to contents (stdpp [gmap]).  [absFS] relates the two, and
    the refinement lemmas show that lookup, write and remove on the list
    are lookup, insert and delete on the map, as long as no path occurs
    twice ([fsInv]), which every operation preserves. *)

From S2P Require Import Prelude.
From Stdlib Require Import String.
From stdpp Require Import base strings list gmap.
Open Scope Z_scope.

Module Spiffs.

(** SPIFFS: the files in the order the root directory lists them. *)
Definition FS := list (string * list Z).

Fixpoint fs_lookup (path : string) (fs : FS) : option (list Z) :=
  match fs with
  | [] => None
  | (p, d) :: rest => if String.eqb p path then Some d else fs_lookup path rest
  end.

(** [SPIFFS.remove(path)]: true when the file existed. *)
Fixpoint fs_remove (path : string) (fs : FS) : bool * FS :=
  match fs with
  | [] => (false, [])
  | (p, d) :: rest =>
      if String.eqb p path then (true, rest)
      else let '(b, rest') := fs_remove path rest in (b, (p, d) :: rest')
  end.

(** [SPIFFS.open(path, "w")] then the writes: the file is created, or
    truncated in place, and holds [data]. *)
Fixpoint fs_write (path : string) (data : list Z) (fs : FS) : FS :=
  match fs with
  | [] => [(path, data)]
  | (p, d) :: rest =>
      if String.eqb p path then (p, data) :: rest else (p, d) :: fs_write path data rest
  end.

(** ** The abstract file store *)

(** The map a listing denotes: the first entry of a path is the file. *)
Definition absFS (fs : FS) : gmap string (list Z) := list_to_map fs.

(** The operations on the abstract store that the program's file
    accesses stand for. *)
Inductive FileOp :=
| NoFileOp
| PutFile (path : string) (contents : list Z)
| DeleteFile (path : string).

Definition applyFileOp (op : FileOp) (m : gmap string (list Z)) : gmap string (list Z) :=
  match op with
  | NoFileOp => m
  | PutFile p d => <[p := d]> m
  | DeleteFile p => delete p m
  end.

(** No path is listed twice. *)
Definition fsInv (fs : FS) : Prop := NoDup (map fst fs).

Lemma absFS_lookup (p : string) (fs : FS) : absFS fs !! p = fs_lookup p fs.
Proof.
  unfold absFS. induction fs as [|[q d] fs IH]; [reflexivity|].
  cbn [list_to_map foldr fst snd fs_lookup].
  destruct (String.eqb_spec q p) as [->|Hne].
  - apply lookup_insert_eq.
  - rewrite lookup_insert_ne by congruence. exact IH.
Qed.

Lemma fs_lookup_write (p : string) (d : list Z) (fs : FS) :
  fs_lookup p (fs_write p d fs) = Some d.
Proof.
  induction fs as [|[q e] fs IH]; cbn; [now rewrite String.eqb_refl|].
  destruct (String.eqb_spec q p) as [->|Hne]; cbn.
  - now rewrite String.eqb_refl.
  - apply String.eqb_neq in Hne. now rewrite Hne.
Qed.

Lemma fs_remove_absent (p : string) (fs : FS) :
  fs_lookup p fs = None -> fs_remove p fs = (false, fs).
Proof.
  induction fs as [|[q e] fs IH]; cbn; [reflexivity|].
  destruct (String.eqb q p); [discriminate|]. intros H. now rewrite IH.
Qed.

Lemma fs_remove_present (p : string) (fs : FS) :
  fs_lookup p fs <> None -> fst (fs_remove p fs) = true.
Proof.
  induction fs as [|[q e] fs IH]; cbn; [congruence|].
  destruct (String.eqb q p); [reflexivity|]. intros H.
  specialize (IH H). destruct (fs_remove p fs). exact IH.
Qed.

Lemma fs_lookup_write_ne (p q : string) (d : list Z) (fs : FS) :
  p <> q -> fs_lookup q (fs_write p d fs) = fs_lookup q fs.
Proof.
  intros Hne. induction fs as [|[r e] fs IH]; cbn.
  - destruct (String.eqb_spec p q); congruence.
  - destruct (String.eqb_spec r p) as [->|Hrp]; cbn.
    + destruct (String.eqb_spec p q); congruence.
    + now rewrite IH.
Qed.

Lemma fs_write_keys (p : string) (d : list Z) (fs : FS) (q : string) :
  q ∈ map fst (fs_write p d fs) <-> q = p \/ q ∈ map fst fs.
Proof.
  induction fs as [|[r e] fs IH]; cbn.
  - set_solver.
  - destruct (String.eqb_spec r p) as [->|Hrp]; cbn; rewrite ?elem_of_cons, ?IH; naive_solver.
Qed.

Lemma fs_write_inv (p : string) (d : list Z) (fs : FS) : fsInv fs -> fsInv (fs_write p d fs).
Proof.
  unfold fsInv. induction fs as [|[r e] fs IH]; cbn; intros Hnd.
  - constructor; [set_solver | constructor].
  - apply NoDup_cons in Hnd as [Hr Hnd].
    destruct (String.eqb_spec r p) as [->|Hrp]; cbn; apply NoDup_cons; split; auto.
    rewrite fs_write_keys. naive_solver.
Qed.

Lemma fs_remove_keys (p : string) (fs : FS) (q : string) :
  q ∈ map fst (snd (fs_remove p fs)) -> q ∈ map fst fs.
Proof.
  induction fs as [|[r e] fs IH]; cbn; [done|].
  destruct (String.eqb r p); cbn; [set_solver|].
  destruct (fs_remove p fs) as [b rest]. cbn in *. rewrite !elem_of_cons. naive_solver.
Qed.

Lemma fs_remove_inv (p : string) (fs : FS) : fsInv fs -> fsInv (snd (fs_remove p fs)).
Proof.
  unfold fsInv. induction fs as [|[r e] fs IH]; cbn; intros Hnd; [constructor|].
  apply NoDup_cons in Hnd as [Hr Hnd].
  destruct (String.eqb r p); [exact Hnd|].
  pose proof (fs_remove_keys p fs) as Hk. destruct (fs_remove p fs) as [b rest]. cbn in *.
  apply NoDup_cons. split; [intros Hin; apply Hr, Hk, Hin | apply IH, Hnd].
Qed.

(** Writing is inserting. *)
Lemma absFS_write (p : string) (d : list Z) (fs : FS) :
  absFS (fs_write p d fs) = <[p := d]> (absFS fs).
Proof.
  apply map_eq. intros q. rewrite absFS_lookup.
  destruct (decide (p = q)) as [->|Hne].
  - rewrite fs_lookup_write. symmetry. apply lookup_insert_eq.
  - rewrite fs_lookup_write_ne, lookup_insert_ne, absFS_lookup by exact Hne. reflexivity.
Qed.

(** With no path listed twice, removing is deleting, and the result says
    whether the path was there. *)
Lemma absFS_remove (p : string) (fs : FS) :
  fsInv fs ->
  absFS (snd (fs_remove p fs)) = delete p (absFS fs) /\
  fst (fs_remove p fs) = bool_decide (is_Some (absFS fs !! p)).
Proof.
  unfold fsInv, absFS. induction fs as [|[r e] fs IH]; cbn; intros Hnd.
  - split; [symmetry; apply delete_empty | reflexivity].
  - apply NoDup_cons in Hnd as [Hr Hnd].
    destruct (String.eqb_spec r p) as [->|Hrp].
    + cbn. rewrite delete_insert_eq, delete_id by (apply not_elem_of_list_to_map_1; exact Hr).
      rewrite lookup_insert_eq, bool_decide_true by eauto. split; reflexivity.
    + specialize (IH Hnd). destruct (fs_remove p fs) as [b rest]. cbn in *.
      destruct IH as [IH1 IH2]. rewrite IH1, delete_insert_ne, lookup_insert_ne by congruence.
      split; [reflexivity | exact IH2].
Qed.

End Spiffs.
