(* ===== verification/Ftp.v ===== *)
(** * The FTP server: [handleFTPServer] and [handleFTPCommand] (main.cpp)

    A single-client FTP server on the SPIFFS file system.  Its globals
    are [clientConnected], [dataConnected] and [currentDir] (always "/");
    the credentials [ftpUser] / [ftpPass] are constants.  A command line
    is split at its first space into a command word (upper-cased) and a
    parameter, and dispatched.  Replies on the control connection, bytes
    on the data connection and changes of the file system are the
    observable effects; the network and SPIFFS events a command depends
    on (a client arriving, the random passive port, the bytes uploaded)
    are inputs ([FtpEnv]).  The Arduino [String] methods the code calls
    are written out in [ArduinoString]. *)

From S2P Require Import Prelude Spiffs.
From Stdlib Require Import String Ascii.
From stdpp Require Import base strings list.
From Equations Require Import Equations.
Open Scope Z_scope.

Module ArduinoString.

(** [s.length()]. *)
Definition len (s : string) : Z := Z.of_nat (String.length s).

(** [s.indexOf(c)]: the first position of [c], or [-1]. *)
Fixpoint indexOf_from (c : ascii) (s : string) (i : Z) : Z :=
  match s with
  | EmptyString => -1
  | String a rest => if Ascii.eqb a c then i else indexOf_from c rest (i + 1)
  end.

Definition indexOf (s : string) (c : ascii) : Z := indexOf_from c s 0.

(** [s.substring(left, right)] with [unsigned int] bounds: a negative
    [int] argument converts to a huge unsigned value; the bounds are
    swapped when [left > right], [right] is clamped to the length, and
    [left >= length] gives "". *)
Definition to_unsigned (i : Z) : Z := if i <? 0 then i + 2 ^ 32 else i.

Definition substring (s : string) (left right : Z) : string :=
  let l := to_unsigned left in
  let r := to_unsigned right in
  let '(l, r) := if r <? l then (r, l) else (l, r) in
  if len s <=? l then EmptyString
  else
    let r := Z.min r (len s) in
    String.substring (Z.to_nat l) (Z.to_nat (r - l)) s.

(** [s.substring(left)]: to the end. *)
Definition substring_from (s : string) (left : Z) : string :=
  substring s left (len s).

(** [toupper] on one character (C locale) and [s.toUpperCase()]. *)
Definition toupper (c : ascii) : ascii :=
  let n := nat_of_ascii c in
  if (97 <=? n)%nat && (n <=? 122)%nat then ascii_of_nat (n - 32) else c.

Fixpoint toUpperCase (s : string) : string :=
  match s with
  | EmptyString => EmptyString
  | String a rest => String (toupper a) (toUpperCase rest)
  end.

(** [isspace]: space, tab, newline, vertical tab, form feed, return. *)
Definition isspace (c : ascii) : bool :=
  let n := nat_of_ascii c in (n =? 32)%nat || ((9 <=? n)%nat && (n <=? 13)%nat).

Fixpoint trim_left (s : string) : string :=
  match s with
  | EmptyString => EmptyString
  | String a rest => if isspace a then trim_left rest else s
  end.

Fixpoint rev_string (s : string) (acc : string) : string :=
  match s with
  | EmptyString => acc
  | String a rest => rev_string rest (String a acc)
  end.

(** [s.trim()]: whitespace removed at both ends. *)
Definition trim (s : string) : string :=
  rev_string (trim_left (rev_string (trim_left s) EmptyString)) EmptyString.

(** [s.startsWith(p)]. *)
Definition startsWith (s p : string) : bool := String.prefix p s.

(** One decimal digit, and [String(n)] for an [int]: the digits of [|n|]
    (with a minus sign below zero). *)
Definition digit (d : Z) : ascii := ascii_of_nat (48 + Z.to_nat d).

Fixpoint decimal_aux (fuel : nat) (n : Z) (acc : string) : string :=
  match fuel with
  | O => acc
  | S f =>
      let acc' := String (digit (n mod 10)) acc in
      if n <? 10 then acc' else decimal_aux f (n / 10) acc'
  end.

Definition decimal (n : Z) : string :=
  if n <? 0 then String "-" (decimal_aux 64 (- n) EmptyString)
  else decimal_aux 64 n EmptyString.

(** The characters the code writes with escapes: a double quote, and the
    line end [\r\n]. *)
Definition dquote : string := String (ascii_of_nat 34) EmptyString.
Definition crlf : string := String (ascii_of_nat 13) (String (ascii_of_nat 10) EmptyString).

End ArduinoString.

Module Ftp.
Import ArduinoString Spiffs.

(** [String cmd = command.substring(0, command.indexOf(' '));
     String param = "";
     if (command.indexOf(' ') > 0) param = command.substring(command.indexOf(' ') + 1);
     cmd.toUpperCase();] *)
Definition parseCommand (command : string) : string * string :=
  let cmd := substring command 0 (indexOf command " "%char) in
  let param := if 0 <? indexOf command " "%char
               then substring_from command (indexOf command " "%char + 1)
               else EmptyString in
  (toUpperCase cmd, param).

(** [String ftpUser = "esp32"; String ftpPass = "esp32";] *)
Definition ftpUser : string := "esp32".
Definition ftpPass : string := "esp32".

(** [bool clientConnected, dataConnected; String currentDir = "/";] *)
Record FtpState := mkFtp {
  clientConnected : bool;
  dataConnected : bool;
  currentDir : string
}.

Definition ftp0 : FtpState := mkFtp false false "/".

Definition with_data (st : FtpState) (d : bool) : FtpState :=
  mkFtp (clientConnected st) d (currentDir st).

(** What the handlers do that an observer sees: lines on the control
    connection ([ftpClient.println]) and bytes or text on the data
    connection ([dataClient.write] / [dataClient.print]). *)
Inductive FtpOutput :=
| Reply (line : string)
| DataBytes (bytes : list Z)
| DataText (text : string).

(** The events a command waits for: the soft-AP address, [random(1000)],
    whether a client connects to the passive port within the 10 s
    timeout, whether SPIFFS can create the file, and the chunks
    [dataClient.read] returns before the peer closes or 30 s pass. *)
Record FtpEnv := mkEnv {
  env_ip : list Z;
  env_random : Z;
  env_dataClient : bool;
  env_canCreate : bool;
  env_upload : list (list Z)
}.

(** [setupDataConnection]: the passive port, its two bytes and the
    [227] reply. *)
Definition pasvPort (env : FtpEnv) : Z := 55000 + env_random env.

Definition pasvReply (ip : list Z) (port : Z) : string :=
  "227 Entering Passive Mode (" ++
  decimal (nth 0 ip 0) ++ "," ++ decimal (nth 1 ip 0) ++ "," ++
  decimal (nth 2 ip 0) ++ "," ++ decimal (nth 3 ip 0) ++
  "," ++ decimal (port / 256) ++ "," ++ decimal (port mod 256) ++ ")".

Definition setupDataConnection (env : FtpEnv) (st : FtpState) : FtpState * list FtpOutput :=
  (with_data st (env_dataClient env), [Reply (pasvReply (env_ip env) (pasvPort env))]).

(** [listFiles]: one line per file. *)
Definition listLine (name : string) (size : Z) : string :=
  "-rw-r--r-- 1 esp32 esp32 " ++ decimal size ++ " Jan 01 12:00 " ++ name ++ crlf.

Definition listFiles (fs : FS) : list FtpOutput :=
  map (fun '(name, data) => DataText (listLine name (Z.of_nat (length data)))) fs.

(** [while (file.available()) { bytesToRead = min(512, available);
    bytesRead = file.read(buffer, bytesToRead); dataClient.write(buffer,
    bytesRead); }]: the chunks written, for the bytes still to be read.
    Each round reads at least one byte, which is the measure of the loop. *)
Equations? sendLoop (available : list Z) : list (list Z) by wf (length available) lt :=
  sendLoop [] := [];
  sendLoop (x :: rest) := firstn 512 (x :: rest) :: sendLoop (skipn 512 (x :: rest)).
Proof. rewrite length_skipn. cbn. lia. Qed.

(** [String fullPath = currentDir + fileName; if (fileName.startsWith("/")) fullPath = fileName;] *)
Definition fullPath (st : FtpState) (fileName : string) : string :=
  if startsWith fileName "/" then fileName else currentDir st ++ fileName.

Definition sendFile (st : FtpState) (fs : FS) (fileName : string) : list FtpOutput :=
  match fs_lookup (fullPath st fileName) fs with
  | Some data =>
      Reply "150 Opening data connection" ::
      map DataBytes (sendLoop data)
  | None => [Reply "550 File not found"]
  end.

Definition receiveFile (env : FtpEnv) (st : FtpState) (fs : FS) (fileName : string)
  : FS * list FtpOutput :=
  if env_canCreate env then
    (fs_write (fullPath st fileName) (concat (env_upload env)) fs,
     [Reply "150 Opening data connection"])
  else (fs, [Reply "550 Cannot create file"]).

(** [handleFTPCommand(command)]. *)
Definition handleFTPCommand (env : FtpEnv) (st : FtpState) (fs : FS) (command : string)
  : FtpState * FS * list FtpOutput :=
  let '(cmd, param) := parseCommand command in
  if String.eqb cmd "USER" then
    (st, fs, [Reply (if String.eqb param ftpUser then "331 Password required"
                     else "530 Invalid username")])
  else if String.eqb cmd "PASS" then
    (st, fs, [Reply (if String.eqb param ftpPass then "230 Login successful"
                     else "530 Invalid password")])
  else if String.eqb cmd "SYST" then (st, fs, [Reply "215 ESP32 FTP Server"])
  else if String.eqb cmd "PWD" then
    (st, fs, [Reply ("257 " ++ dquote ++ currentDir st ++ dquote ++ " is current directory")])
  else if String.eqb cmd "TYPE" then (st, fs, [Reply "200 Type set"])
  else if String.eqb cmd "PASV" then
    let '(st', out) := setupDataConnection env st in (st', fs, out)
  else if String.eqb cmd "LIST" then
    if dataConnected st then
      (with_data st false, fs, listFiles fs ++ [Reply "226 Transfer complete"])
    else (st, fs, [Reply "425 No data connection"])
  else if String.eqb cmd "RETR" then
    if dataConnected st && (0 <? len param) then
      (with_data st false, fs, sendFile st fs param ++ [Reply "226 Transfer complete"])
    else (st, fs, [Reply "425 No data connection or filename"])
  else if String.eqb cmd "STOR" then
    if dataConnected st && (0 <? len param) then
      let '(fs', out) := receiveFile env st fs param in
      (with_data st false, fs', out ++ [Reply "226 Transfer complete"])
    else (st, fs, [Reply "425 No data connection or filename"])
  else if String.eqb cmd "DELE" then
    let '(removed, fs') := fs_remove (currentDir st ++ param) fs in
    (st, fs', [Reply (if removed then "250 File deleted" else "550 File not found")])
  else if String.eqb cmd "QUIT" then
    (mkFtp false false (currentDir st), fs, [Reply "221 Goodbye"])
  else (st, fs, [Reply "502 Command not implemented"]).

(** The events of one call of [handleFTPServer]: a client waiting on port
    21, whether the current client is still connected, and the line it
    sent, if any (read up to [\n]). *)
Record ServerInput := mkServerInput {
  in_hasClient : bool;
  in_clientAlive : bool;
  in_line : option string
}.

(** [handleFTPServer()]: accept a waiting client (a current client and
    its data connection are dropped first), then serve one command or
    notice the disconnection. *)
Definition handleFTPServer (env : FtpEnv) (st : FtpState) (fs : FS) (i : ServerInput)
  : FtpState * FS * list FtpOutput :=
  let '(st1, out1) :=
    if in_hasClient i then
      if clientConnected st
      then (mkFtp true false (currentDir st), [Reply "220 ESP32 FTP Server ready"])
      else (mkFtp true (dataConnected st) (currentDir st), [Reply "220 ESP32 FTP Server ready"])
    else (st, []) in
  if clientConnected st1 && in_clientAlive i then
    match in_line i with
    | Some line =>
        let '(st2, fs2, out2) := handleFTPCommand env st1 fs (trim line) in
        (st2, fs2, out1 ++ out2)
    | None => (st1, fs, out1)
    end
  else if clientConnected st1 then (mkFtp false false (currentDir st1), fs, out1)
  else (st1, fs, out1).

(** ** Parsing a command line *)

(** [c] does not occur in [s]. *)
Fixpoint noChar (c : ascii) (s : string) : Prop :=
  match s with
  | EmptyString => True
  | String a rest => a <> c /\ noChar c rest
  end.

(** A command word: non-empty, without a space. *)
Definition isWord (w : string) : Prop := w <> EmptyString /\ noChar " "%char w.

Lemma indexOf_from_app (c : ascii) (w t : string) (i : Z) :
  noChar c w -> indexOf_from c (w ++ t) i = indexOf_from c t (i + len w).
Proof.
  unfold len. revert i. induction w as [|a w IH]; intros i Hw; simpl.
  - f_equal. lia.
  - destruct Hw as [Ha Hw]. destruct (Ascii.eqb_spec a c) as [->|_]; [congruence|].
    rewrite IH by exact Hw. f_equal. lia.
Qed.

Lemma substring_normal (s : string) (l r : Z) :
  0 <= l <= r -> l < len s ->
  substring s l r = String.substring (Z.to_nat l) (Z.to_nat (Z.min r (len s) - l)) s.
Proof.
  intros Hlr Hs. unfold substring, to_unsigned.
  destruct (Z.ltb_spec l 0); [lia|]. destruct (Z.ltb_spec r 0); [lia|].
  destruct (Z.ltb_spec r l); [lia|]. destruct (Z.leb_spec (len s) l); [lia|]. reflexivity.
Qed.

Lemma substring_from_end (s : string) (l : Z) : 0 <= l -> len s <= l -> substring_from s l = EmptyString.
Proof.
  intros Hl Hs. unfold substring_from, substring, to_unsigned.
  pose proof (Zle_0_nat (String.length s)). fold (len s) in *.
  destruct (Z.ltb_spec l 0); [lia|]. destruct (Z.ltb_spec (len s) 0); [lia|].
  destruct (Z.ltb_spec (len s) l); [destruct (Z.leb_spec (len s) (len s)) | destruct (Z.leb_spec (len s) l)];
    try reflexivity; lia.
Qed.

Lemma substring0_app (w t : string) : String.substring 0 (String.length w) (w ++ t) = w.
Proof. induction w as [|a w IH]; [now destruct t|]. simpl. now rewrite IH. Qed.

Lemma substring_skip_app (w t : string) (k n : nat) :
  String.substring (String.length w + k) n (w ++ t) = String.substring k n t.
Proof. induction w as [|a w IH]; [reflexivity|]. simpl. exact IH. Qed.

Lemma substring0_full (p : string) : String.substring 0 (String.length p) p = p.
Proof. induction p as [|a p IH]; [reflexivity|]. simpl. now rewrite IH. Qed.

Lemma length_append (w t : string) :
  String.length (w ++ t) = (String.length w + String.length t)%nat.
Proof. induction w as [|a w IH]; simpl; [reflexivity | now rewrite IH]. Qed.

Lemma parseCommand_word (w p : string) :
  isWord w -> parseCommand (w ++ String " " p) = (toUpperCase w, p).
Proof.
  intros [Hne Hw]. unfold parseCommand, indexOf.
  rewrite (indexOf_from_app _ _ _ 0 Hw). simpl indexOf_from. rewrite Z.add_0_l.
  assert (Hlw : 0 < len w) by (destruct w; [congruence | unfold len; cbn; lia]).
  assert (Hls : len (w ++ String " " p) = len w + 1 + len p)
    by (unfold len; rewrite length_append; cbn [String.length]; lia).
  pose proof (Zle_0_nat (String.length p)). fold (len p) in *.
  f_equal.
  - f_equal. rewrite substring_normal by (rewrite ?Hls; lia). rewrite Hls, Z.sub_0_r, Z.min_l by lia.
    unfold len. rewrite Nat2Z.id. apply substring0_app.
  - destruct (Z.ltb_spec 0 (len w)); [|lia].
    destruct p as [|c p].
    + apply substring_from_end; [lia | rewrite Hls; change (len EmptyString) with 0; lia].
    + assert (0 < len (String c p)) by (unfold len; cbn [String.length]; lia).
      unfold substring_from. rewrite substring_normal by (rewrite ?Hls; lia). rewrite Z.min_id.
      replace (len (w ++ String " " (String c p)) - (len w + 1)) with (len (String c p)) by lia.
      unfold len. rewrite Z2Nat.inj_add, !Nat2Z.id by lia. cbn [Z.to_nat Pos.to_nat].
      rewrite substring_skip_app. apply (substring0_full (String c p)).
Qed.

(** ** The file system and the transfers *)

Lemma sendLoop_concat (data : list Z) : concat (sendLoop data) = data.
Proof.
  funelim (sendLoop data); simp sendLoop; [reflexivity|].
  cbn [concat]. change (skipn 512 (x :: rest)) with (skipn 511 rest).
  match goal with IH : concat (sendLoop _) = _ |- _ => rewrite IH end.
  apply (take_drop 512 (x :: rest)).
Qed.

Lemma sendLoop_sizes (data : list Z) :
  Forall (fun c => (0 < length c <= 512)%nat) (sendLoop data).
Proof.
  funelim (sendLoop data); simp sendLoop; constructor; [|assumption].
  rewrite length_firstn. cbn [length]. lia.
Qed.

Lemma sendLoop_rounds (data : list Z) : length (sendLoop data) = ((length data + 511) / 512)%nat.
Proof.
  funelim (sendLoop data); simp sendLoop; [reflexivity|].
  cbn [length]. change (skipn 512 (x :: rest)) with (skipn 511 rest).
  match goal with IH : length (sendLoop _) = _ |- _ => rewrite IH end.
  rewrite length_skipn. set (n := length rest).
  destruct (Nat.le_gt_cases (S n) 512) as [Hle|Hgt].
  - replace (n - 511)%nat with 0%nat by lia. rewrite (Nat.div_small (0 + 511) 512) by lia.
    apply (Nat.div_unique (S n + 511) 512 1 (S n + 511 - 512)); lia.
  - replace (S n + 511)%nat with ((n - 511 + 511) + 1 * 512)%nat by lia.
    rewrite Nat.div_add by lia. lia.
Qed.

(** The bytes an output sequence puts on the data connection. *)
Fixpoint dataOf (out : list FtpOutput) : list Z :=
  match out with
  | [] => []
  | DataBytes b :: rest => b ++ dataOf rest
  | _ :: rest => dataOf rest
  end.

Lemma dataOf_app (o1 o2 : list FtpOutput) : dataOf (o1 ++ o2) = dataOf o1 ++ dataOf o2.
Proof. induction o1 as [|[] o1 IH]; cbn; rewrite ?IH, ?app_assoc; reflexivity. Qed.

Lemma dataOf_map_bytes (cs : list (list Z)) : dataOf (map DataBytes cs) = concat cs.
Proof. induction cs as [|c cs IH]; cbn; [reflexivity | now rewrite IH]. Qed.

Lemma sendFile_found (st : FtpState) (fs : FS) (name : string) (d : list Z) :
  fs_lookup (fullPath st name) fs = Some d ->
  sendFile st fs name = Reply "150 Opening data connection" :: map DataBytes (sendLoop d)
  /\ dataOf (sendFile st fs name) = d.
Proof.
  intros Hl. unfold sendFile. rewrite Hl. split; [reflexivity|].
  cbn [dataOf]. rewrite dataOf_map_bytes. apply sendLoop_concat.
Qed.

Ltac is_word := split; [discriminate | cbn; repeat split; discriminate].

(** The branches of [handleFTPCommand] for a command word followed by
    its parameter. *)
Ltac handle_cmd w ws p :=
  unfold handleFTPCommand;
  change (String.append ws p) with (String.append w (String " " p));
  rewrite (parseCommand_word w p ltac:(is_word)); change (toUpperCase w) with w;
  cbn [String.eqb Ascii.eqb Bool.eqb].

Lemma handle_user (env : FtpEnv) (st : FtpState) (fs : FS) (u : string) :
  handleFTPCommand env st fs ("USER " ++ u) =
  (st, fs, [Reply (if String.eqb u ftpUser then "331 Password required" else "530 Invalid username")]).
Proof. handle_cmd "USER" "USER " u. reflexivity. Qed.

Lemma handle_pass (env : FtpEnv) (st : FtpState) (fs : FS) (p : string) :
  handleFTPCommand env st fs ("PASS " ++ p) =
  (st, fs, [Reply (if String.eqb p ftpPass then "230 Login successful" else "530 Invalid password")]).
Proof. handle_cmd "PASS" "PASS " p. reflexivity. Qed.

Lemma handle_pasv (env : FtpEnv) (st : FtpState) (fs : FS) :
  handleFTPCommand env st fs "PASV" =
  (with_data st (env_dataClient env), fs, [Reply (pasvReply (env_ip env) (pasvPort env))]).
Proof. reflexivity. Qed.

Lemma handle_stor (env : FtpEnv) (st : FtpState) (fs : FS) (name : string) :
  dataConnected st = true -> 0 < len name ->
  handleFTPCommand env st fs ("STOR " ++ name) =
  (with_data st false, fst (receiveFile env st fs name),
   snd (receiveFile env st fs name) ++ [Reply "226 Transfer complete"]).
Proof.
  intros Hd Hn. handle_cmd "STOR" "STOR " name. rewrite Hd. apply Z.ltb_lt in Hn. rewrite Hn.
  cbn [andb]. destruct (receiveFile env st fs name). reflexivity.
Qed.

Lemma handle_retr (env : FtpEnv) (st : FtpState) (fs : FS) (name : string) :
  dataConnected st = true -> 0 < len name ->
  handleFTPCommand env st fs ("RETR " ++ name) =
  (with_data st false, fs, sendFile st fs name ++ [Reply "226 Transfer complete"]).
Proof.
  intros Hd Hn. handle_cmd "RETR" "RETR " name. rewrite Hd. apply Z.ltb_lt in Hn. rewrite Hn. reflexivity.
Qed.

Lemma handle_dele (env : FtpEnv) (st : FtpState) (fs : FS) (name : string) :
  handleFTPCommand env st fs ("DELE " ++ name) =
  (st, snd (fs_remove (currentDir st ++ name) fs),
   [Reply (if fst (fs_remove (currentDir st ++ name) fs) then "250 File deleted" else "550 File not found")]).
Proof. handle_cmd "DELE" "DELE " name. destruct (fs_remove _ _). reflexivity. Qed.

(** ** The files, abstractly *)

(** An FTP environment for the concrete runs below. *)
Definition envUp : FtpEnv := mkEnv [192; 168; 4; 1] 7 true true [[1; 2; 3]; [4]].


(** The file operation a command line stands for: [STOR] with a data
    connection, a file name and a file that can be created puts the
    uploaded bytes at [fullPath]; [DELE] deletes [currentDir + param];
    every other command leaves the files alone. *)
Definition commandFileOp (env : FtpEnv) (st : FtpState) (command : string) : FileOp :=
  let '(cmd, param) := parseCommand command in
  if String.eqb cmd "STOR" then
    if dataConnected st && (0 <? len param) && env_canCreate env
    then PutFile (fullPath st param) (concat (env_upload env)) else NoFileOp
  else if String.eqb cmd "DELE" then DeleteFile (currentDir st ++ param)
  else NoFileOp.

Lemma handleFTPCommand_absFS (env : FtpEnv) (st : FtpState) (fs : FS) (command : string) :
  fsInv fs ->
  fsInv (snd (fst (handleFTPCommand env st fs command))) /\
  absFS (snd (fst (handleFTPCommand env st fs command))) =
    applyFileOp (commandFileOp env st command) (absFS fs).
Proof.
  intros Hinv. unfold handleFTPCommand, commandFileOp.
  destruct (parseCommand command) as [cmd param].
  destruct (String.eqb_spec cmd "STOR") as [->|Hs]; [|destruct (String.eqb_spec cmd "DELE") as [->|Hd]].
  - cbn -[receiveFile len]. unfold receiveFile.
    destruct (dataConnected st && (0 <? len param)), (env_canCreate env); cbn;
      try (split; [exact Hinv | reflexivity]).
    split; [apply fs_write_inv, Hinv | apply absFS_write].
  - cbn -[fs_remove]. pose proof (absFS_remove (currentDir st ++ param) fs Hinv) as [Hr _].
    pose proof (fs_remove_inv (currentDir st ++ param) fs Hinv) as Hi.
    destruct (fs_remove _ _) as [b fs']. split; [exact Hi | exact Hr].
  - apply String.eqb_neq in Hs, Hd. unfold setupDataConnection, receiveFile.
    repeat match goal with |- context [if ?b then _ else _] => destruct b eqn:? end;
      cbn; try congruence; split; solve [exact Hinv | reflexivity].
Qed.

(** C18. Refinement of the abstract file store: when no path is listed
    twice, every command line [handleFTPCommand] serves changes the files,
    seen as a finite map from paths to contents, exactly by the file
    operation the command stands for, and keeps every path listed once. *)
Theorem handleFTPCommand_files (env : FtpEnv) (st : FtpState) (fs : FS) (command : string) :
  fsInv fs ->
  let fs' := snd (fst (handleFTPCommand env st fs command)) in
  fsInv fs' /\ absFS fs' = applyFileOp (commandFileOp env st command) (absFS fs).
Proof.
  intros Hinv. exact (handleFTPCommand_absFS env st fs command Hinv).
Qed.

Lemma handleFTPCommand_files_witness :
  fsInv [("/a.wav", [1])] /\
  let fs' := snd (fst (handleFTPCommand envUp (mkFtp true true "/") [("/a.wav", [1])] ("STOR " ++ "b.wav"))) in
  fsInv fs' /\ absFS fs' = applyFileOp (commandFileOp envUp (mkFtp true true "/") ("STOR " ++ "b.wav"))
                                       (absFS [("/a.wav", [1])]).
Proof.
  assert (H : fsInv [("/a.wav", [1])]) by (unfold fsInv; cbn; constructor; [apply not_elem_of_nil | constructor]).
  split; [exact H | exact (handleFTPCommand_files _ _ _ _ H)].
Defined.

(** The file operation of one call of [handleFTPServer]: that of the
    command line a connected client sent, on the state after accepting
    a waiting client; none otherwise. *)
Definition serverFileOp (env : FtpEnv) (st : FtpState) (i : ServerInput) : FileOp :=
  let st1 :=
    if in_hasClient i then
      if clientConnected st then mkFtp true false (currentDir st)
      else mkFtp true (dataConnected st) (currentDir st)
    else st in
  if clientConnected st1 && in_clientAlive i then
    match in_line i with
    | Some line => commandFileOp env st1 (trim line)
    | None => NoFileOp
    end
  else NoFileOp.

(** [handleFTPServer] changes the files exactly by [serverFileOp]. *)
Lemma handleFTPServer_absFS (env : FtpEnv) (st : FtpState) (fs : FS) (i : ServerInput) :
  fsInv fs ->
  fsInv (snd (fst (handleFTPServer env st fs i))) /\
  absFS (snd (fst (handleFTPServer env st fs i))) = applyFileOp (serverFileOp env st i) (absFS fs).
Proof.
  intros Hinv. unfold handleFTPServer, serverFileOp.
  destruct (in_hasClient i), (clientConnected st) eqn:Ec, (in_clientAlive i), (in_line i) as [line|];
    cbn -[handleFTPCommand commandFileOp applyFileOp absFS fsInv];
    try (split; solve [exact Hinv | reflexivity]);
    match goal with
    | |- context [handleFTPCommand ?e ?s ?f ?c] =>
        pose proof (handleFTPCommand_absFS e s f c Hinv) as H;
        destruct (handleFTPCommand e s f c) as [[? ?] ?]; exact H
    end.
Qed.

(** C29. The [while (file.available())] loop of [sendFile] terminates on
    every file: for [n] bytes it runs exactly [ceil (n / 512)] rounds,
    each round writes between 1 and 512 bytes, and the rounds together
    write the file. *)
Theorem sendFile_loop_terminates (data : list Z) :
  length (sendLoop data) = ((length data + 511) / 512)%nat /\
  Forall (fun c => (0 < length c <= 512)%nat) (sendLoop data) /\
  concat (sendLoop data) = data.
Proof. split; [apply sendLoop_rounds|]. split; [apply sendLoop_sizes | apply sendLoop_concat]. Qed.

(** C30. Upload then download: after [STOR name] on an open data
    connection (the file can be created), [PASV] with a client on the
    passive port, then [RETR name] sends back exactly the bytes uploaded,
    in chunks of 1 to 512 bytes, and leaves the files as [STOR] left them. *)
Theorem stor_retr_roundtrip (env env' env'' : FtpEnv) (st : FtpState) (fs : FS) (name : string) :
  dataConnected st = true -> env_canCreate env = true -> env_dataClient env' = true ->
  0 < len name ->
  let '(st1, fs1, _) := handleFTPCommand env st fs ("STOR " ++ name) in
  let '(st2, fs2, _) := handleFTPCommand env' st1 fs1 "PASV" in
  let '(_, fs3, out) := handleFTPCommand env'' st2 fs2 ("RETR " ++ name) in
  fs3 = fs1 /\ dataOf out = concat (env_upload env) /\
  Forall (fun o => match o with DataBytes c => (0 < length c <= 512)%nat | _ => True end) out.
Proof.
  intros Hd Hc Hp Hn. rewrite handle_stor by assumption. cbn [fst snd].
  unfold receiveFile at 1 2. rewrite Hc. cbn [fst snd].
  rewrite handle_pasv, Hp. rewrite handle_retr by (reflexivity || assumption).
  assert (Hl : fs_lookup (fullPath (with_data (with_data st false) true) name)
                 (fs_write (fullPath st name) (concat (env_upload env)) fs) =
               Some (concat (env_upload env))) by apply fs_lookup_write.
  destruct (sendFile_found _ _ _ _ Hl) as [Ho Hdata].
  split; [reflexivity|]. rewrite dataOf_app, Hdata, Ho. cbn [dataOf]. split; [apply app_nil_r|].
  constructor; [exact I|]. apply Forall_app. split; [|repeat constructor].
  apply Forall_map. eapply Forall_impl; [apply sendLoop_sizes|]. intros c Hc'. exact Hc'.
Qed.


Lemma stor_retr_roundtrip_witness :
  dataConnected (mkFtp true true "/") = true /\ env_canCreate envUp = true /\
  env_dataClient envUp = true /\ 0 < len "a.wav" /\
  let '(st1, fs1, _) := handleFTPCommand envUp (mkFtp true true "/") [] ("STOR " ++ "a.wav") in
  let '(st2, fs2, _) := handleFTPCommand envUp st1 fs1 "PASV" in
  let '(_, fs3, out) := handleFTPCommand envUp st2 fs2 ("RETR " ++ "a.wav") in
  fs3 = fs1 /\ dataOf out = concat (env_upload envUp) /\
  Forall (fun o => match o with DataBytes c => (0 < length c <= 512)%nat | _ => True end) out.
Proof.
  split; [reflexivity|]. split; [reflexivity|]. split; [reflexivity|].
  assert (H : 0 < len "a.wav") by (vm_compute; reflexivity).
  split; [exact H|].
  exact (stor_retr_roundtrip envUp envUp envUp (mkFtp true true "/") [] "a.wav"
           eq_refl eq_refl eq_refl H).
Defined.

(** C31. There is no authentication: [USER] and [PASS] only reply, and
    change neither the session nor the files whatever they are given; a
    [DELE] of an existing file succeeds in any session, logged in or not. *)
Theorem ftp_no_authentication (env : FtpEnv) (st : FtpState) (fs : FS) (u p name : string) :
  fs_lookup (currentDir st ++ name) fs <> None ->
  fst (handleFTPCommand env st fs ("USER " ++ u)) = (st, fs) /\
  fst (handleFTPCommand env st fs ("PASS " ++ p)) = (st, fs) /\
  handleFTPCommand env st fs ("DELE " ++ name) =
    (st, snd (fs_remove (currentDir st ++ name) fs), [Reply "250 File deleted"]).
Proof.
  intros Hex. rewrite handle_user, handle_pass, handle_dele, (fs_remove_present _ _ Hex).
  repeat split.
Qed.

Lemma ftp_no_authentication_witness :
  fs_lookup (currentDir ftp0 ++ "a.wav") [("/a.wav", [1])] <> None /\
  handleFTPCommand envUp ftp0 [("/a.wav", [1])] ("DELE " ++ "a.wav") =
    (ftp0, snd (fs_remove (currentDir ftp0 ++ "a.wav") [("/a.wav", [1])]), [Reply "250 File deleted"]).
Proof.
  assert (H : fs_lookup (currentDir ftp0 ++ "a.wav") [("/a.wav", [1])] <> None) by (vm_compute; discriminate).
  split; [exact H|]. exact (proj2 (proj2 (ftp_no_authentication envUp ftp0 _ "x" "y" "a.wav" H))).
Defined.

(** [RETR] of a missing file is reported as a success after the
    failure: the client gets [550 File not found] and then
    [226 Transfer complete], and the data connection is closed. *)
Theorem retr_missing_file (env : FtpEnv) (st : FtpState) (fs : FS) (name : string) :
  dataConnected st = true -> 0 < len name -> fs_lookup (fullPath st name) fs = None ->
  handleFTPCommand env st fs ("RETR " ++ name) =
  (with_data st false, fs, [Reply "550 File not found"; Reply "226 Transfer complete"]).
Proof.
  intros Hd Hn Hl. rewrite handle_retr by assumption. unfold sendFile. rewrite Hl. reflexivity.
Qed.

Lemma retr_missing_file_witness :
  dataConnected (mkFtp true true "/") = true /\ 0 < len "b.wav" /\
  fs_lookup (fullPath (mkFtp true true "/") "b.wav") [("/a.wav", [1])] = None /\
  handleFTPCommand envUp (mkFtp true true "/") [("/a.wav", [1])] ("RETR " ++ "b.wav") =
  (with_data (mkFtp true true "/") false, [("/a.wav", [1])],
   [Reply "550 File not found"; Reply "226 Transfer complete"]).
Proof.
  assert (H1 : 0 < len "b.wav") by (vm_compute; reflexivity).
  assert (H2 : fs_lookup (fullPath (mkFtp true true "/") "b.wav") [("/a.wav", [1])] = None)
    by (vm_compute; reflexivity).
  split; [reflexivity|]. split; [exact H1|]. split; [exact H2|].
  exact (retr_missing_file envUp (mkFtp true true "/") _ _ eq_refl H1 H2).
Defined.

Lemma fullPath_absolute (st : FtpState) (name : string) :
  fullPath st (String "/" name) = String "/" name.
Proof. unfold fullPath, startsWith. cbn. now destruct name. Qed.

(** C33. [DELE] ignores an absolute path where [RETR] and [STOR] honour
    it: in the root directory, [DELE /name] asks SPIFFS to remove
    [//name]; when [/name] exists (and [//name] does not) the file is kept
    and the client told [550 File not found], while [RETR /name] would
    send the file. *)
Theorem dele_absolute_path (env : FtpEnv) (st : FtpState) (fs : FS) (name : string) (d : list Z) :
  currentDir st = "/" -> fs_lookup ("/" ++ name) fs = Some d -> fs_lookup ("//" ++ name) fs = None ->
  handleFTPCommand env st fs ("DELE " ++ "/" ++ name) = (st, fs, [Reply "550 File not found"]) /\
  dataOf (sendFile st fs ("/" ++ name)) = d.
Proof.
  intros Hdir Hin Habs. rewrite handle_dele, Hdir. split.
  - change (String.append "/" (String.append "/" name)) with (String.append "//" name). rewrite (fs_remove_absent _ _ Habs). reflexivity.
  - apply sendFile_found. change (String.append "/" name) with (String "/" name). now rewrite fullPath_absolute.
Qed.

Lemma dele_absolute_path_witness :
  currentDir ftp0 = "/" /\ fs_lookup ("/" ++ "a.wav") [("/a.wav", [1])] = Some [1] /\
  fs_lookup ("//" ++ "a.wav") [("/a.wav", [1])] = None /\
  handleFTPCommand envUp ftp0 [("/a.wav", [1])] ("DELE " ++ "/" ++ "a.wav") =
    (ftp0, [("/a.wav", [1])], [Reply "550 File not found"]) /\
  dataOf (sendFile ftp0 [("/a.wav", [1])] ("/" ++ "a.wav")) = [1].
Proof.
  assert (H1 : fs_lookup ("/" ++ "a.wav") [("/a.wav", [1])] = Some [1]) by (vm_compute; reflexivity).
  assert (H2 : fs_lookup ("//" ++ "a.wav") [("/a.wav", [1])] = None) by (vm_compute; reflexivity).
  split; [reflexivity|]. split; [exact H1|]. split; [exact H2|].
  exact (dele_absolute_path envUp ftp0 _ "a.wav" [1] eq_refl H1 H2).
Defined.

(** ** The connection invariant *)

(** A data connection only exists while a control client is connected. *)
Definition ftpInv (st : FtpState) : Prop := dataConnected st = true -> clientConnected st = true.

Lemma handleFTPCommand_inv (env : FtpEnv) (st : FtpState) (fs : FS) (c : string) :
  clientConnected st = true -> ftpInv (fst (fst (handleFTPCommand env st fs c))).
Proof.
  intros Hc. unfold handleFTPCommand, setupDataConnection, receiveFile.
  destruct (parseCommand c) as [cmd param].
  repeat match goal with
         | |- context [if ?b then _ else _] => destruct b
         | |- context [let '(_, _) := ?p in _] => destruct p
         end; unfold ftpInv; cbn; congruence.
Qed.

(** A run of the server: each call with the events of its cycle. *)
Fixpoint serve (st : FtpState) (fs : FS) (ins : list (FtpEnv * ServerInput))
  : FtpState * FS * list FtpOutput :=
  match ins with
  | [] => (st, fs, [])
  | (env, i) :: rest =>
      let '(st1, fs1, out1) := handleFTPServer env st fs i in
      let '(st2, fs2, out2) := serve st1 fs1 rest in
      (st2, fs2, out1 ++ out2)
  end.

Lemma handleFTPServer_inv (env : FtpEnv) (st : FtpState) (fs : FS) (i : ServerInput) :
  ftpInv st -> ftpInv (fst (fst (handleFTPServer env st fs i))).
Proof.
  intros Hinv. unfold handleFTPServer.
  destruct (in_hasClient i); [destruct (clientConnected st) eqn:Ec|]; cbn [clientConnected andb];
    destruct (in_clientAlive i) eqn:Ea; rewrite ?andb_true_r, ?andb_false_r;
    [destruct (in_line i) as [line|] ..];
    repeat match goal with
           | |- context [handleFTPCommand ?e ?s ?f ?c] =>
               let Hi := fresh "Hi" in
               pose proof (handleFTPCommand_inv e s f c ltac:(assumption || reflexivity)) as Hi;
               destruct (handleFTPCommand e s f c) as [[? ?] ?]; exact Hi
           | |- context [if ?b then _ else _] => destruct b eqn:?
           end; unfold ftpInv in *; cbn in *; solve [auto | congruence].
Qed.

(** C34. From power-on, along any sequence of server calls (clients
    arriving and leaving, any command lines), a data connection is open
    only while a control client is connected. *)
Theorem serve_inv (ins : list (FtpEnv * ServerInput)) (fs : FS) :
  ftpInv (fst (fst (serve ftp0 fs ins))).
Proof.
  assert (Hgen : forall st fs, ftpInv st -> ftpInv (fst (fst (serve st fs ins)))).
  { induction ins as [|[env i] rest IH]; intros st fs' Hst; [exact Hst|]. cbn [serve].
    pose proof (handleFTPServer_inv env st fs' i Hst) as H1.
    destruct (handleFTPServer env st fs' i) as [[st1 fs1] out1].
    specialize (IH st1 fs1 H1). destruct (serve st1 fs1 rest) as [[st2 fs2] out2]. exact IH. }
  apply Hgen. unfold ftpInv. discriminate.
Qed.

(** ** Numbers in replies *)

(** How a client reads a run of decimal digits, left to right. *)
Definition digitVal (a : ascii) : Z := Z.of_nat (nat_of_ascii a) - 48.

Fixpoint readDecimal (s : string) (acc : Z) : Z :=
  match s with
  | EmptyString => acc
  | String a rest => readDecimal rest (10 * acc + digitVal a)
  end.

Lemma digitVal_digit (d : Z) : 0 <= d < 10 -> digitVal (digit d) = d.
Proof.
  intros Hd. unfold digitVal, digit. pose proof (Z2Nat.id d ltac:(lia)).
  rewrite nat_ascii_embedding by lia. lia.
Qed.

Lemma decimal_aux_read (f : nat) (n : Z) (acc : string) (v : Z) :
  0 <= n < 10 ^ Z.of_nat f ->
  exists k, 0 <= k /\ readDecimal (decimal_aux f n acc) v = readDecimal acc (v * 10 ^ k + n).
Proof.
  revert n acc v. induction f as [|f IH]; intros n acc v Hn.
  { cbn in Hn. exists 0. split; [lia|]. cbn [decimal_aux]. f_equal. lia. }
  cbn [decimal_aux]. pose proof (Z.mod_pos_bound n 10 ltac:(lia)).
  destruct (Z.ltb_spec n 10) as [Hlt|Hge].
  - exists 1. split; [lia|]. cbn [readDecimal]. rewrite digitVal_digit by lia. rewrite Z.mod_small by lia.
    f_equal. lia.
  - rewrite Nat2Z.inj_succ, Z.pow_succ_r in Hn by lia.
    destruct (IH (n / 10) (String (digit (n mod 10)) acc) v) as [k [Hk0 Hk]]; [zlia|].
    exists (Z.succ k). split; [lia|]. rewrite Hk. cbn [readDecimal]. rewrite digitVal_digit by lia.
    f_equal. rewrite Z.pow_succ_r by lia. zlia.
Qed.

Lemma decimal_read (n : Z) : 0 <= n < 10 ^ 64 -> readDecimal (decimal n) 0 = n.
Proof.
  intros Hn. unfold decimal. destruct (Z.ltb_spec n 0); [lia|].
  destruct (decimal_aux_read 64 n EmptyString 0 Hn) as [k [_ ->]]. reflexivity.
Qed.


(** The passive port [55000 + random(1000)] is sent as two bytes
    [p1 = port / 256] and [p2 = port % 256]: both lie in [[0, 255]], and a
    client that reads the two numbers of the [227] reply and computes
    [p1 * 256 + p2] finds the port the data server listens on. *)
Theorem pasv_port_bytes (env : FtpEnv) :
  0 <= env_random env < 1000 ->
  let port := pasvPort env in
  0 <= port / 256 <= 255 /\ 0 <= port mod 256 <= 255 /\
  readDecimal (decimal (port / 256)) 0 * 256 + readDecimal (decimal (port mod 256)) 0 = port.
Proof.
  intros Hr port. unfold port, pasvPort.
  assert (H1 : 0 <= (55000 + env_random env) / 256 <= 255) by zlia.
  assert (H2 : 0 <= (55000 + env_random env) mod 256 <= 255) by zlia.
  rewrite !decimal_read by lia. split; [exact H1|]. split; [exact H2|]. zlia.
Qed.

Lemma pasv_port_bytes_witness :
  0 <= env_random envUp < 1000 /\
  readDecimal (decimal (pasvPort envUp / 256)) 0 * 256 +
  readDecimal (decimal (pasvPort envUp mod 256)) 0 = pasvPort envUp.
Proof.
  assert (H : 0 <= env_random envUp < 1000) by (cbn; lia).
  split; [exact H | exact (proj2 (proj2 (pasv_port_bytes envUp H)))].
Defined.

End Ftp.
