(* ===== verification/Recorder.v ===== *)
(** * The WAV recorder (record.hpp) and the serial command handler (commander.hpp)

    [record_audio_to_wav] records two seconds of 24-bit mono audio: it
    discards three I2S reads, then reads blocks of up to [BUFFER_SIZE]
    32-bit words until [total_samples] samples are copied, packing each
    word's upper 24 bits as three little-endian bytes into a buffer of
    [data_size] bytes; it then writes the 44-byte [wav_header_t] (as the
    ESP32 lays it out in memory: little-endian, no padding) and the
    buffer to a SPIFFS file.  [commandHandler] starts a recording on the
    serial key 'g', into [/recording_<millis>.wav]: the same SPIFFS that
    the FTP server serves, modelled as [Spiffs.FS].  The I2S reads are the
    [I2SRead] results of the audio path; a run that never gets enough
    samples never returns ([None]). *)

From S2P Require Import Prelude I2S Spiffs Ftp.
From Stdlib Require Import String Ascii.
Open Scope Z_scope.

Module Recorder.
Import I2S ArduinoString Spiffs Ftp.

(** [#define SAMPLE_RATE 16000], [BITS_PER_SAMPLE 24], [CHANNELS 1],
    [RECORD_DURATION_SEC 2], [BUFFER_SIZE 1024]. *)
Definition SAMPLE_RATE : Z := 16000.
Definition BITS_PER_SAMPLE : Z := 24.
Definition CHANNELS : Z := 1.
Definition RECORD_DURATION_SEC : Z := 2.
Definition BUFFER_SIZE : Z := 1024.

(** [uint32_t] and [uint16_t] stores. *)
Definition u32 (x : Z) : Z := x mod 2 ^ 32.
Definition u16 (x : Z) : Z := x mod 2 ^ 16.

(** [wav_header_t]; the [char[4]] tags are strings of four characters. *)
Record wav_header_t := mkWavHeader {
  riff : string;
  chunk_size : Z;
  wave : string;
  fmt : string;
  fmt_size : Z;
  audio_format : Z;
  num_channels : Z;
  sample_rate : Z;
  byte_rate : Z;
  block_align : Z;
  bits_per_sample : Z;
  data : string;
  data_size : Z
}.

(** [create_wav_header(header, data_size)]. *)
Definition create_wav_header (ds : Z) : wav_header_t :=
  {| riff := "RIFF";
     chunk_size := u32 (ds + 36);
     wave := "WAVE";
     fmt := "fmt ";
     fmt_size := 16;
     audio_format := 1;
     num_channels := u16 CHANNELS;
     sample_rate := u32 SAMPLE_RATE;
     byte_rate := u32 (SAMPLE_RATE * CHANNELS * Z.quot BITS_PER_SAMPLE 8);
     block_align := u16 (CHANNELS * Z.quot BITS_PER_SAMPLE 8);
     bits_per_sample := u16 BITS_PER_SAMPLE;
     data := "data";
     data_size := u32 ds |}.

(** The bytes of a value stored little-endian in [n] bytes, and the
    bytes of a character tag. *)
Fixpoint le_bytes (n : nat) (x : Z) : list Z :=
  match n with
  | O => []
  | S n' => Z.land x 255 :: le_bytes n' (Z.shiftr x 8)
  end.

Definition tag_bytes (s : string) : list Z :=
  map (fun c => Z.of_nat (nat_of_ascii c)) (list_ascii_of_string s).

(** [(uint8_t * )&wav_header] for [sizeof(wav_header_t)] = 44 bytes: the
    fields in declaration order; every field sits at an offset that is a
    multiple of its size, so the struct has no padding. *)
Definition header_bytes (h : wav_header_t) : list Z :=
  (tag_bytes (riff h) ++ le_bytes 4 (chunk_size h) ++ tag_bytes (wave h) ++
   tag_bytes (fmt h) ++ le_bytes 4 (fmt_size h) ++ le_bytes 2 (audio_format h) ++
   le_bytes 2 (num_channels h) ++ le_bytes 4 (sample_rate h) ++
   le_bytes 4 (byte_rate h) ++ le_bytes 2 (block_align h) ++
   le_bytes 2 (bits_per_sample h) ++ tag_bytes (data h) ++ le_bytes 4 (data_size h))%list.

(** The conversion of one 32-bit I2S word: [sample_32bit >> 8] (an
    arithmetic shift), masked to 24 bits, and sign-extended with
    [|= 0xFF000000] when bit 23 is set (the result is kept as its 32-bit
    pattern). *)
Definition sample_24bit (sample_32bit : Z) : Z :=
  let s := Z.land (Z.shiftr sample_32bit 8) 16777215 in
  if Z.land s 8388608 =? 0 then s else Z.lor s 4278190080.

(** The three stores [full_audio_buffer[buffer_index++] = ...]: LSB,
    middle byte, MSB. *)
Definition packSample (sample_32bit : Z) : list Z :=
  let s := sample_24bit sample_32bit in
  [Z.land s 255; Z.land (Z.shiftr s 8) 255; Z.land (Z.shiftr s 16) 255].

(** [total_samples] and [data_size] of [record_audio_to_wav]. *)
Definition total_samples : Z := SAMPLE_RATE * RECORD_DURATION_SEC * CHANNELS.
Definition recDataSize : Z := total_samples * Z.quot BITS_PER_SAMPLE 8.

(** The loop variables [samples_recorded] and [buffer_index], with the
    bytes stored so far in [full_audio_buffer]. *)
Record RecState := mkRec {
  samples_recorded : Z;
  audio : list Z
}.

Definition rec0 : RecState := mkRec 0 [].

Definition buffer_index (st : RecState) : Z := Z.of_nat (List.length (audio st)).

(** One iteration of [while (samples_recorded < total_samples)]: a failed
    read is skipped ([continue]); otherwise [min(samples_in_buffer,
    total_samples - samples_recorded)] words are converted. *)
Definition recordStep (st : RecState) (rd : I2SRead) : RecState :=
  if negb (i2s_result rd =? ESP_OK) then st
  else
    let samples_in_buffer := bytes_read rd / 4 in
    let samples_to_copy := Z.min samples_in_buffer (total_samples - samples_recorded st) in
    mkRec (samples_recorded st + samples_to_copy)
          (audio st ++ List.concat (map (fun i => packSample (nth i (i2sBuffer rd) 0))
                                   (seq 0 (Z.to_nat samples_to_copy))))%list.

(** The loop over the reads it gets; [None] when the reads run out first
    (the code keeps waiting with [portMAX_DELAY]). *)
Fixpoint recordLoop (reads : list I2SRead) (st : RecState) : option RecState :=
  if total_samples <=? samples_recorded st then Some st
  else
    match reads with
    | [] => None
    | rd :: rest => recordLoop rest (recordStep st rd)
    end.

(** The events [record_audio_to_wav] depends on besides the reads: the
    two [malloc]s and [SPIFFS.open(filename, FILE_WRITE)]. *)
Record RecEnv := mkRecEnv {
  mallocAudioOk : bool;
  mallocReadOk : bool;
  fileOpenOk : bool
}.

(** [bool record_audio_to_wav(const char* filename)]: the result and the
    file system after it; the first three reads are discarded. *)
Definition record_audio_to_wav (env : RecEnv) (reads : list I2SRead) (fs : FS) (filename : string)
  : option (bool * FS) :=
  if negb (mallocAudioOk env) then Some (false, fs)
  else if negb (mallocReadOk env) then Some (false, fs)
  else
    match recordLoop (skipn 3 reads) rec0 with
    | None => None
    | Some st =>
        if fileOpenOk env
        then Some (true, fs_write filename
                           (header_bytes (create_wav_header recDataSize) ++
                            firstn (Z.to_nat recDataSize) (audio st))%list fs)
        else Some (false, fs)
    end.

(** [commandHandler()]: one character from [Serial] ([None] when none is
    available); 'g' records into ["/recording_" + String(millis()) + ".wav"]. *)
Definition recordingName (millis : Z) : string :=
  "/recording_" ++ decimal millis ++ ".wav".

Definition commandHandler (ch : option Z) (millis : Z) (env : RecEnv) (reads : list I2SRead) (fs : FS)
  : option FS :=
  match ch with
  | Some 103 =>
      match record_audio_to_wav env reads fs (recordingName millis) with
      | Some (_, fs') => Some fs'
      | None => None
      end
  | _ => Some fs
  end.

(** The file operation of [commandHandler]: for 'g' with both buffers
    allocated, the recording's WAV file (header, then the first
    [data_size] bytes of audio) put at its path when the file opens, and
    [None] when the recording never gets its samples; no operation for
    any other key. *)
Definition recordFileOp (ch : option Z) (millis : Z) (env : RecEnv) (reads : list I2SRead)
  : option FileOp :=
  match ch with
  | Some 103 =>
      if mallocAudioOk env && mallocReadOk env then
        match recordLoop (skipn 3 reads) rec0 with
        | None => None
        | Some st =>
            Some (if fileOpenOk env
                  then PutFile (recordingName millis)
                         (header_bytes (create_wav_header recDataSize) ++
                          firstn (Z.to_nat recDataSize) (audio st))%list
                  else NoFileOp)
        end
      else Some NoFileOp
  | _ => Some NoFileOp
  end.

Lemma total_samples_value : total_samples = 32000.
Proof. reflexivity. Qed.

Lemma recDataSize_value : recDataSize = 96000.
Proof. reflexivity. Qed.

(** ** Little-endian fields *)

(** How a reader of the file takes an unsigned little-endian value. *)
Fixpoint le_value (bs : list Z) : Z :=
  match bs with
  | [] => 0
  | b :: rest => b + 256 * le_value rest
  end.

Definition field_at (off len : nat) (bs : list Z) : Z := le_value (firstn len (skipn off bs)).

Lemma land_255 (x : Z) : Z.land x 255 = x mod 256.
Proof. change 255 with (Z.ones 8). now rewrite Z.land_ones by lia. Qed.

Lemma le_bytes_length (n : nat) (x : Z) : List.length (le_bytes n x) = n.
Proof. revert x. induction n as [|n IH]; intros x; cbn; [reflexivity | now rewrite IH]. Qed.

Lemma le_bytes_range (n : nat) (x : Z) : Forall (fun b => 0 <= b < 256) (le_bytes n x).
Proof.
  revert x. induction n as [|n IH]; intros x; constructor; [|apply IH].
  rewrite land_255. apply Z.mod_pos_bound. lia.
Qed.

(** The bytes read back give the value modulo [2^(8n)], for any [x]. *)
Lemma le_value_bytes (n : nat) (x : Z) : le_value (le_bytes n x) = x mod 2 ^ (8 * Z.of_nat n).
Proof.
  revert x. induction n as [|n IH]; intros x; cbn [le_bytes le_value].
  - now rewrite Z.mod_1_r.
  - rewrite IH, land_255, Z.shiftr_div_pow2 by lia.
    replace (8 * Z.of_nat (S n)) with (8 + 8 * Z.of_nat n) by lia.
    rewrite Z.pow_add_r by lia. rewrite Z.rem_mul_r by (lia || apply Z.pow_pos_nonneg; lia).
    reflexivity.
Qed.

Lemma field_at_app (A B C : list Z) :
  field_at (List.length A) (List.length B) (A ++ B ++ C)%list = le_value B.
Proof.
  unfold field_at. rewrite skipn_app, skipn_all, Nat.sub_diag. cbn [skipn app]. change (skipn 0 ?l) with l.
  now rewrite firstn_app, firstn_all, Nat.sub_diag, app_nil_r.
Qed.

(** The header with its fixed part spelled out. *)
Lemma header_bytes_shape (ds : Z) :
  header_bytes (create_wav_header ds) =
  ([82; 73; 70; 70] ++ le_bytes 4 (u32 (ds + 36)) ++
   [87; 65; 86; 69; 102; 109; 116; 32; 16; 0; 0; 0; 1; 0; 1; 0; 128; 62; 0; 0;
    128; 187; 0; 0; 3; 0; 24; 0; 100; 97; 116; 97] ++ le_bytes 4 (u32 ds))%list.
Proof. reflexivity. Qed.

Lemma u32_field (x : Z) : 0 <= x < 2 ^ 32 -> le_value (le_bytes 4 (u32 x)) = x.
Proof.
  intros Hx. rewrite le_value_bytes. unfold u32. cbn [Z.of_nat Pos.of_succ_nat]. change (8 * 4) with 32.
  rewrite Z.mod_mod by lia. now apply Z.mod_small.
Qed.

(** C37. The 44 bytes written before the audio form a consistent
    canonical WAV header for every data size that fits a [uint32_t] with
    the 36 header bytes that follow [chunk_size]: the tags sit at offsets
    0, 8 and 36, [chunk_size] (offset 4) is [data_size + 36], [data_size]
    (offset 40) is the given size, and [byte_rate = sample_rate *
    block_align] with [block_align = num_channels * bits_per_sample / 8]. *)
Theorem wav_header_fields (ds : Z) :
  0 <= ds <= 2 ^ 32 - 37 ->
  let bs := header_bytes (create_wav_header ds) in
  List.length bs = 44%nat /\
  firstn 4 bs = tag_bytes "RIFF" /\ firstn 4 (skipn 8 bs) = tag_bytes "WAVE" /\
  firstn 4 (skipn 36 bs) = tag_bytes "data" /\
  field_at 4 4 bs = ds + 36 /\ field_at 40 4 bs = ds /\
  field_at 28 4 bs = field_at 24 4 bs * field_at 32 2 bs /\
  field_at 32 2 bs = field_at 22 2 bs * (field_at 34 2 bs / 8).
Proof.
  intros Hds bs. unfold bs.
  split; [reflexivity|]. split; [reflexivity|]. split; [reflexivity|]. split; [reflexivity|].
  split; [|split].
  - change (field_at 4 4 (header_bytes (create_wav_header ds))) with (le_value (le_bytes 4 (u32 (ds + 36)))).
    apply u32_field. lia.
  - change (field_at 40 4 (header_bytes (create_wav_header ds))) with (le_value (le_bytes 4 (u32 ds))).
    apply u32_field. lia.
  - split; reflexivity.
Qed.

Lemma wav_header_fields_witness :
  0 <= recDataSize <= 2 ^ 32 - 37 /\
  field_at 4 4 (header_bytes (create_wav_header recDataSize)) = recDataSize + 36.
Proof.
  assert (H : 0 <= recDataSize <= 2 ^ 32 - 37) by (rewrite recDataSize_value; lia).
  split; [exact H | exact (proj1 (proj2 (proj2 (proj2 (proj2 (wav_header_fields recDataSize H))))))].
Defined.

(** ** The 24-bit samples *)

(** How a reader takes a signed 24-bit little-endian sample. *)
Definition signed24 (v : Z) : Z := if v <? 2 ^ 23 then v else v - 2 ^ 24.

Lemma packSample_le (s : Z) : packSample s = le_bytes 3 (sample_24bit s).
Proof. unfold packSample. cbn [le_bytes]. now rewrite Z.shiftr_shiftr by lia. Qed.

(** The sign extension only touches bits 24 to 31: the low 24 bits are
    those of [sample_32bit >> 8]. *)
Lemma sample_24bit_low (s : Z) : sample_24bit s mod 2 ^ 24 = Z.shiftr s 8 mod 2 ^ 24.
Proof.
  unfold sample_24bit. change 16777215 with (Z.ones 24). rewrite Z.land_ones by lia.
  destruct (Z.land _ 8388608 =? 0); [apply Z.mod_mod; lia|].
  rewrite <- !Z.land_ones by lia. rewrite Z.land_lor_distr_l.
  change (Z.land 4278190080 (Z.ones 24)) with 0. rewrite Z.lor_0_r.
  rewrite <- Z.land_assoc, Z.land_diag. reflexivity.
Qed.

(** C38. Packing is lossless for the 24 bits the microphone delivers: for
    every 32-bit word [s] the three stored bytes are bytes, and a reader
    that takes them as a signed 24-bit little-endian sample gets
    [s >> 8] back. *)
Theorem packSample_lossless (s : Z) :
  - 2 ^ 31 <= s < 2 ^ 31 ->
  Forall (fun b => 0 <= b < 256) (packSample s) /\ signed24 (le_value (packSample s)) = Z.shiftr s 8.
Proof.
  intros Hs. rewrite packSample_le. split; [apply le_bytes_range|].
  rewrite le_value_bytes. change (8 * Z.of_nat 3) with 24. rewrite sample_24bit_low.
  rewrite Z.shiftr_div_pow2 by lia. unfold signed24.
  assert (Hx : - 2 ^ 23 <= s / 2 ^ 8 < 2 ^ 23) by zlia.
  destruct (Z.ltb_spec ((s / 2 ^ 8) mod 2 ^ 24) (2 ^ 23)); zlia.
Qed.

Lemma packSample_lossless_witness :
  - 2 ^ 31 <= -256 < 2 ^ 31 /\
  Forall (fun b => 0 <= b < 256) (packSample (-256)) /\ signed24 (le_value (packSample (-256))) = Z.shiftr (-256) 8.
Proof.
  assert (H : - 2 ^ 31 <= -256 < 2 ^ 31) by lia.
  split; [exact H | exact (packSample_lossless (-256) H)].
Defined.

(** ** The recording loop *)

(** The loop invariant: three bytes per recorded sample, and never more
    samples than [total_samples]. *)
Definition recInv (st : RecState) : Prop :=
  buffer_index st = 3 * samples_recorded st /\ 0 <= samples_recorded st <= total_samples.

Lemma recInv_rec0 : recInv rec0.
Proof. unfold recInv, buffer_index. cbn. rewrite total_samples_value. lia. Qed.

Lemma concat_map_length3 {A : Type} (f : A -> list Z) (l : list A) :
  (forall x, List.length (f x) = 3%nat) ->
  List.length (List.concat (map f l)) = (3 * List.length l)%nat.
Proof.
  intros Hf. induction l as [|x l IH]; [reflexivity|].
  cbn [map List.concat]. rewrite length_app, IH, Hf. cbn [List.length]. lia.
Qed.

Lemma recordStep_inv (st : RecState) (rd : I2SRead) :
  0 <= bytes_read rd -> recInv st -> recInv (recordStep st rd).
Proof.
  intros Hb [Hlen Hrec]. unfold recordStep.
  destruct (negb (i2s_result rd =? ESP_OK)); [split; assumption|].
  assert (Hq : 0 <= bytes_read rd / 4) by (apply Z.div_pos; lia).
  set (c := Z.min (bytes_read rd / 4) (total_samples - samples_recorded st)).
  assert (Hc : 0 <= c <= total_samples - samples_recorded st) by (unfold c; lia).
  unfold recInv, buffer_index in *. cbn [samples_recorded audio].
  rewrite length_app, (concat_map_length3 (fun i => packSample (nth i (i2sBuffer rd) 0)) _ (fun _ => eq_refl)).
  rewrite length_seq. lia.
Qed.

Lemma fold_recordStep_inv (reads : list I2SRead) (st : RecState) :
  Forall (fun rd => 0 <= bytes_read rd) reads -> recInv st ->
  recInv (fold_left recordStep reads st).
Proof.
  intros Hr. revert st. induction Hr as [|rd reads Hrd Hr IH]; intros st Hst; [exact Hst|].
  apply IH, recordStep_inv; assumption.
Qed.

Lemma recordLoop_inv (reads : list I2SRead) (st st' : RecState) :
  Forall (fun rd => 0 <= bytes_read rd) reads -> recInv st -> recordLoop reads st = Some st' ->
  recInv st' /\ samples_recorded st' = total_samples.
Proof.
  intros Hr. revert st. induction Hr as [|rd reads Hrd Hr IH]; intros st Hst; cbn [recordLoop];
    destruct (Z.leb_spec total_samples (samples_recorded st)) as [Hdone|Hmore].
  1, 3: intros H; injection H as <-; split; [exact Hst | unfold recInv in Hst; lia].
  - discriminate.
  - apply IH, recordStep_inv; assumption.
Qed.

(** C39. [full_audio_buffer] is never overrun: whatever the I2S reads
    return (short reads, failures), the bytes stored after any number of
    iterations never exceed [data_size], and when the loop ends exactly
    [data_size] bytes hold exactly [total_samples] samples. *)
Theorem record_buffer_bounds (reads : list I2SRead) :
  Forall (fun rd => 0 <= bytes_read rd) reads ->
  (forall n, buffer_index (fold_left recordStep (firstn n reads) rec0) <= recDataSize) /\
  (forall st', recordLoop reads rec0 = Some st' ->
     buffer_index st' = recDataSize /\ samples_recorded st' = total_samples).
Proof.
  intros Hr. rewrite recDataSize_value. split.
  - intros n. pose proof Hr as Hr'. rewrite <- (firstn_skipn n reads) in Hr'.
    apply Forall_app in Hr' as [Hpre _].
    destruct (fold_recordStep_inv (firstn n reads) rec0 Hpre recInv_rec0) as [Hl Hs].
    rewrite total_samples_value in Hs. lia.
  - intros st' Hl. destruct (recordLoop_inv reads rec0 st' Hr recInv_rec0 Hl) as [[Hb _] Hs].
    rewrite total_samples_value in *. lia.
Qed.

Lemma record_buffer_bounds_witness :
  let reads := [mkI2SRead 0 4096 []; mkI2SRead 1 0 []; mkI2SRead 0 6 []] in
  Forall (fun rd => 0 <= bytes_read rd) reads /\
  (forall n, buffer_index (fold_left recordStep (firstn n reads) rec0) <= recDataSize).
Proof.
  intros reads. assert (H : Forall (fun rd => 0 <= bytes_read rd) reads) by (repeat constructor; cbn; lia).
  split; [exact H | exact (proj1 (record_buffer_bounds reads H))].
Defined.

(** Reads that each deliver at least [k] samples finish the recording
    once they can cover the samples still missing. *)
Lemma recordLoop_some (k : Z) (reads : list I2SRead) (st : RecState) :
  1 <= k -> Forall (fun rd => i2s_result rd = ESP_OK /\ 4 * k <= bytes_read rd) reads ->
  recInv st -> total_samples - samples_recorded st <= k * Z.of_nat (List.length reads) ->
  exists st', recordLoop reads st = Some st'.
Proof.
  intros Hk Hr. revert st. induction Hr as [|rd reads [Hok Hb] Hr IH]; intros st Hst Hgap;
    cbn [recordLoop]; destruct (Z.leb_spec total_samples (samples_recorded st)); eauto.
  - cbn [List.length] in Hgap. lia.
  - apply IH; [apply recordStep_inv; [lia | exact Hst]|].
    unfold recordStep. rewrite Hok, Z.eqb_refl. cbn [negb samples_recorded].
    assert (k <= bytes_read rd / 4) by (apply Z.div_le_lower_bound; lia).
    cbn [List.length] in Hgap. lia.
Qed.

(** With every read failing, the loop never ends: [continue] retries
    forever. *)
Lemma recordLoop_stuck (reads : list I2SRead) (st : RecState) :
  Forall (fun rd => i2s_result rd <> ESP_OK) reads -> samples_recorded st < total_samples ->
  recordLoop reads st = None.
Proof.
  intros Hr Hst. induction Hr as [|rd reads Hrd Hr IH]; cbn [recordLoop];
    destruct (Z.leb_spec total_samples (samples_recorded st)); try lia; [reflexivity|].
  unfold recordStep. apply Z.eqb_neq in Hrd. rewrite Hrd. exact IH.
Qed.

(** Keys other than 'g' only print. *)
Lemma commandHandler_other_key (z millis : Z) (env : RecEnv) (reads : list I2SRead) (fs : FS) :
  z <> 103 ->
  recordFileOp (Some z) millis env reads = Some NoFileOp /\
  commandHandler (Some z) millis env reads fs = Some fs.
Proof.
  intros Hz. destruct z as [|p|p]; try (split; reflexivity).
  repeat (destruct p as [p|p|]; try (split; reflexivity)). exfalso. apply Hz. reflexivity.
Qed.

(** [commandHandler] changes the files exactly by [recordFileOp], and
    hangs exactly when the recording does. *)
Lemma commandHandler_absFS (ch : option Z) (millis : Z) (env : RecEnv) (reads : list I2SRead) (fs : FS) :
  fsInv fs ->
  match recordFileOp ch millis env reads with
  | None => commandHandler ch millis env reads fs = None
  | Some op => exists fs', commandHandler ch millis env reads fs = Some fs' /\
                 fsInv fs' /\ absFS fs' = applyFileOp op (absFS fs)
  end.
Proof.
  intros Hinv. destruct ch as [z|]; [|exists fs; auto].
  destruct (Z.eq_dec z 103) as [->|Hz].
  - cbn [recordFileOp commandHandler]. unfold record_audio_to_wav.
    destruct (mallocAudioOk env), (mallocReadOk env); cbn [negb andb]; try (exists fs; auto).
    destruct (recordLoop (skipn 3 reads) rec0); [|reflexivity].
    destruct (fileOpenOk env); eexists; (split; [reflexivity|]);
      [split; [apply fs_write_inv, Hinv | apply absFS_write] | auto].
  - destruct (commandHandler_other_key z millis env reads fs Hz) as [-> ->]. exists fs. auto.
Qed.

(** ** A recording downloaded over FTP *)

Lemma fullPath_recording (st : FtpState) (millis : Z) :
  currentDir st = "/"%string -> fullPath st ("recording_" ++ decimal millis ++ ".wav") = recordingName millis.
Proof. intros H. unfold fullPath. rewrite H. reflexivity. Qed.

Lemma recording_name_nonempty (millis : Z) : 0 < len ("recording_" ++ decimal millis ++ ".wav").
Proof. unfold len. rewrite length_append. cbn [String.length]. lia. Qed.

(** C40. The serial key 'g' followed by an FTP download: when the
    allocations and the file creation succeed and the I2S reads (after
    the three discarded ones) each deliver at least [k] samples and can
    cover the two seconds, [commandHandler] returns, and [RETR
    recording_<millis>.wav] on the FTP server then sends 96044 bytes
    that start with the WAV header of [data_size] = 96000. *)
Theorem record_then_download (env : RecEnv) (reads : list I2SRead) (fs : FS) (millis k : Z)
    (fenv : FtpEnv) (st : FtpState) :
  mallocAudioOk env = true -> mallocReadOk env = true -> fileOpenOk env = true ->
  1 <= k -> Forall (fun rd => i2s_result rd = ESP_OK /\ 4 * k <= bytes_read rd) (skipn 3 reads) ->
  total_samples <= k * Z.of_nat (List.length (skipn 3 reads)) ->
  dataConnected st = true -> currentDir st = "/"%string ->
  exists fs', commandHandler (Some 103) millis env reads fs = Some fs' /\
  let '(_, _, out) := handleFTPCommand fenv st fs' ("RETR " ++ "recording_" ++ decimal millis ++ ".wav") in
  Z.of_nat (List.length (dataOf out)) = 44 + recDataSize /\
  firstn 44 (dataOf out) = header_bytes (create_wav_header recDataSize).
Proof.
  intros Ha Hr Ho Hk Hreads Hcover Hd Hdir.
  destruct (recordLoop_some k (skipn 3 reads) rec0 Hk Hreads recInv_rec0) as [st' Hloop];
    [unfold rec0; cbn [samples_recorded]; lia|].
  assert (Hnn : Forall (fun rd => 0 <= bytes_read rd) (skipn 3 reads))
    by (eapply Forall_impl; [|exact Hreads]; intros rd [_ Hb]; cbn beta; lia).
  destruct (recordLoop_inv _ _ _ Hnn recInv_rec0 Hloop) as [[Hlen _] Hs].
  unfold commandHandler, record_audio_to_wav. rewrite Ha, Hr, Ho, Hloop. cbn [negb].
  eexists. split; [reflexivity|].
  rewrite handle_retr by (exact Hd || apply recording_name_nonempty).
  set (bytes := (header_bytes (create_wav_header recDataSize) ++ firstn (Z.to_nat recDataSize) (audio st'))%list).
  assert (Hl : fs_lookup (fullPath st ("recording_" ++ decimal millis ++ ".wav"))
                 (fs_write (recordingName millis) bytes fs) = Some bytes)
    by (rewrite fullPath_recording by exact Hdir; apply fs_lookup_write).
  destruct (sendFile_found _ _ _ _ Hl) as [_ Hdata].
  rewrite dataOf_app, Hdata. cbn [dataOf]. rewrite app_nil_r.
  unfold bytes. unfold buffer_index in Hlen. rewrite total_samples_value in Hs. rewrite recDataSize_value in *.
  assert (Hh : List.length (header_bytes (create_wav_header 96000)) = 44%nat) by reflexivity.
  split.
  - rewrite length_app, length_firstn, Hh. lia.
  - rewrite firstn_app, Hh, Nat.sub_diag, firstn_all2 by (rewrite Hh; lia). cbn [firstn]. apply app_nil_r.
Qed.

(** A full-size read of 1024 words. *)
Definition fullRead : I2SRead := mkI2SRead 0 4096 [].

Lemma record_then_download_witness :
  let env := mkRecEnv true true true in
  let reads := repeat fullRead 35 in
  let st := mkFtp true true "/" in
  mallocAudioOk env = true /\ mallocReadOk env = true /\ fileOpenOk env = true /\ 1 <= 1024 /\
  Forall (fun rd => i2s_result rd = ESP_OK /\ 4 * 1024 <= bytes_read rd) (skipn 3 reads) /\
  total_samples <= 1024 * Z.of_nat (List.length (skipn 3 reads)) /\
  dataConnected st = true /\ currentDir st = "/"%string /\
  exists fs', commandHandler (Some 103) 5000 env reads [] = Some fs' /\
  let '(_, _, out) := handleFTPCommand envUp st fs' ("RETR " ++ "recording_" ++ decimal 5000 ++ ".wav") in
  Z.of_nat (List.length (dataOf out)) = 44 + recDataSize /\
  firstn 44 (dataOf out) = header_bytes (create_wav_header recDataSize).
Proof.
  intros env reads st.
  assert (E : skipn 3 reads = repeat fullRead 32) by reflexivity.
  assert (Hf : Forall (fun rd => i2s_result rd = ESP_OK /\ 4 * 1024 <= bytes_read rd) (skipn 3 reads)).
  { rewrite E. apply Forall_forall. intros x Hx. apply repeat_spec in Hx. subst x. unfold fullRead, ESP_OK. cbn. lia. }
  assert (Hc : total_samples <= 1024 * Z.of_nat (List.length (skipn 3 reads)))
    by (rewrite total_samples_value, E, repeat_length; cbn; lia).
  do 8 (split; [first [reflexivity | lia | assumption]|]).
  exact (record_then_download env reads [] 5000 1024 envUp st eq_refl eq_refl eq_refl
           ltac:(lia) Hf Hc eq_refl eq_refl).
Defined.

End Recorder.
