(* ===== verification/I2SDriver.v ===== *)
(** * The I2S driver set-up: [initI2S] and [detect_setup] (detect.hpp),
    [init_i2s] and [deinit_i2s] (record.hpp), [commandSetup]
    (commander.hpp)

    The detector and the recorder each install the ESP-IDF I2S driver on
    port [I2S_NUM_0] with a configuration of their own, and [setup()]
    calls both ([commandSetup(); detect_setup();]).  The driver is a
    library: its calls are modelled by what they do to the state of each
    port ([PortState]), and a second [i2s_driver_install] on a port in use
    fails and leaves the first driver in place.  The set-up functions are
    translated from the sources; [delay(100)] and the [Serial] output of
    [detect_setup] are not modelled.  The theorems show that the two
    configurations agree, so the order of the calls does not matter and
    every sequence of the code's driver calls leaves port 0 either
    uninstalled or running at the rate the WAV header announces. *)

From S2P Require Import Prelude I2S Recorder.
Open Scope Z_scope.

Module I2SDriver.
Import I2S.

(** ** The driver's types and constants ([driver/i2s.h], [esp_err.h]) *)

Definition I2S_NUM_0 : Z := 0.
Definition I2S_NUM_1 : Z := 1.
(** [I2S_MODE_MASTER = 0x1 << 0], [I2S_MODE_RX = 0x1 << 3]. *)
Definition I2S_MODE_MASTER : Z := 1.
Definition I2S_MODE_RX : Z := 8.
Definition I2S_BITS_PER_SAMPLE_32BIT : Z := 32.
Definition ESP_INTR_FLAG_LEVEL1 : Z := 2.
Definition I2S_PIN_NO_CHANGE : Z := -1.
Definition ESP_ERR_INVALID_STATE : Z := 259.

Inductive i2s_channel_fmt_t :=
| I2S_CHANNEL_FMT_RIGHT_LEFT | I2S_CHANNEL_FMT_ALL_RIGHT | I2S_CHANNEL_FMT_ALL_LEFT
| I2S_CHANNEL_FMT_ONLY_RIGHT | I2S_CHANNEL_FMT_ONLY_LEFT.

Inductive i2s_comm_format_t :=
| I2S_COMM_FORMAT_STAND_I2S | I2S_COMM_FORMAT_STAND_MSB
| I2S_COMM_FORMAT_STAND_PCM_SHORT | I2S_COMM_FORMAT_STAND_PCM_LONG.

Record i2s_config_t := mkI2SConfig {
  mode : Z;
  sample_rate : Z;
  bits_per_sample : Z;
  channel_format : i2s_channel_fmt_t;
  communication_format : i2s_comm_format_t;
  intr_alloc_flags : Z;
  dma_buf_count : Z;
  dma_buf_len : Z;
  use_apll : bool;
  tx_desc_auto_clear : bool;
  fixed_mclk : Z
}.

Record i2s_pin_config_t := mkPinConfig {
  bck_io_num : Z;
  ws_io_num : Z;
  data_out_num : Z;
  data_in_num : Z
}.

(** ** The driver (library behaviour)

    A port is uninstalled or runs with the configuration it was
    installed with; [dmaZeroed] records an [i2s_zero_dma_buffer] since the
    installation. *)
Record PortState := mkPort {
  installed : option i2s_config_t;
  pins : option i2s_pin_config_t;
  dmaZeroed : bool
}.

Definition portOff : PortState := mkPort None None false.

Definition Driver := Z -> PortState.

(** At power-on no port is installed. *)
Definition driver0 : Driver := fun _ => portOff.

Definition setPort (n : Z) (p : PortState) (d : Driver) : Driver :=
  fun m => if m =? n then p else d m.

Definition i2s_driver_install (n : Z) (cfg : i2s_config_t) (d : Driver) : Z * Driver :=
  match installed (d n) with
  | Some _ => (ESP_ERR_INVALID_STATE, d)
  | None => (ESP_OK, setPort n (mkPort (Some cfg) None false) d)
  end.

Definition i2s_set_pin (n : Z) (pc : i2s_pin_config_t) (d : Driver) : Z * Driver :=
  match installed (d n) with
  | Some cfg => (ESP_OK, setPort n (mkPort (Some cfg) (Some pc) (dmaZeroed (d n))) d)
  | None => (ESP_ERR_INVALID_STATE, d)
  end.

Definition i2s_zero_dma_buffer (n : Z) (d : Driver) : Z * Driver :=
  match installed (d n) with
  | Some cfg => (ESP_OK, setPort n (mkPort (Some cfg) (pins (d n)) true) d)
  | None => (ESP_ERR_INVALID_STATE, d)
  end.

Definition i2s_driver_uninstall (n : Z) (d : Driver) : Z * Driver :=
  match installed (d n) with
  | Some _ => (ESP_OK, setPort n portOff d)
  | None => (ESP_ERR_INVALID_STATE, d)
  end.

(** ** The code *)

(** [#define I2S_WS 2], [#define I2S_SD 4], [#define I2S_SCK 18],
    [#define I2S_PORT I2S_NUM_0] of detect.hpp. *)
Definition I2S_WS : Z := 2.
Definition I2S_SD : Z := 4.
Definition I2S_SCK : Z := 18.
Definition I2S_PORT : Z := I2S_NUM_0.

(** The two structures [initI2S] fills in. *)
Definition initI2S_config : i2s_config_t :=
  {| mode := Z.lor I2S_MODE_MASTER I2S_MODE_RX;
     sample_rate := SAMPLING_FREQUENCY;
     bits_per_sample := I2S_BITS_PER_SAMPLE_32BIT;
     channel_format := I2S_CHANNEL_FMT_ONLY_LEFT;
     communication_format := I2S_COMM_FORMAT_STAND_I2S;
     intr_alloc_flags := ESP_INTR_FLAG_LEVEL1;
     dma_buf_count := 4;
     dma_buf_len := 1024;
     use_apll := false;
     tx_desc_auto_clear := false;
     fixed_mclk := 0 |}.

Definition initI2S_pins : i2s_pin_config_t :=
  {| bck_io_num := I2S_SCK; ws_io_num := I2S_WS;
     data_out_num := I2S_PIN_NO_CHANGE; data_in_num := I2S_SD |}.

(** [initI2S]: install, then set the pins; the results are ignored. *)
Definition initI2S (d : Driver) : Driver :=
  let d1 := snd (i2s_driver_install I2S_PORT initI2S_config d) in
  snd (i2s_set_pin I2S_PORT initI2S_pins d1).

(** [detect_setup]: [initI2S()], then three lines of [Serial] output. *)
Definition detect_setup (d : Driver) : Driver := initI2S d.

(** The two structures [init_i2s] fills in.  record.hpp defines
    [I2S_WS], [I2S_SCK] and [I2S_SD] again with the same values, so the
    macros are the ones above. *)
Definition init_i2s_config : i2s_config_t :=
  {| mode := Z.lor I2S_MODE_MASTER I2S_MODE_RX;
     sample_rate := Recorder.SAMPLE_RATE;
     bits_per_sample := I2S_BITS_PER_SAMPLE_32BIT;
     channel_format := I2S_CHANNEL_FMT_ONLY_LEFT;
     communication_format := I2S_COMM_FORMAT_STAND_I2S;
     intr_alloc_flags := ESP_INTR_FLAG_LEVEL1;
     dma_buf_count := 4;
     dma_buf_len := Recorder.BUFFER_SIZE;
     use_apll := false;
     tx_desc_auto_clear := false;
     fixed_mclk := 0 |}.

Definition init_i2s_pins : i2s_pin_config_t :=
  {| bck_io_num := I2S_SCK; ws_io_num := I2S_WS;
     data_out_num := I2S_PIN_NO_CHANGE; data_in_num := I2S_SD |}.

(** [init_i2s]: install, set the pins, clear the DMA buffers, then
    [delay(100)]. *)
Definition init_i2s (d : Driver) : Driver :=
  let d1 := snd (i2s_driver_install I2S_NUM_0 init_i2s_config d) in
  let d2 := snd (i2s_set_pin I2S_NUM_0 init_i2s_pins d1) in
  snd (i2s_zero_dma_buffer I2S_NUM_0 d2).

(** [deinit_i2s]. *)
Definition deinit_i2s (d : Driver) : Driver := snd (i2s_driver_uninstall I2S_NUM_0 d).

(** [commandSetup]. *)
Definition commandSetup (d : Driver) : Driver := init_i2s d.

(** [setup()] ends with [commandSetup(); detect_setup();]. *)
Definition setupI2S (d : Driver) : Driver := detect_setup (commandSetup d).

(** [record_audio_to_wav] clears the DMA buffers
    ([i2s_zero_dma_buffer(I2S_NUM_0)]) before its first read. *)
Definition recordClear (d : Driver) : Driver := snd (i2s_zero_dma_buffer I2S_NUM_0 d).

(** The calls of the program that change the driver. *)
Inductive DriverCall :=
| CallCommandSetup
| CallDetectSetup
| CallDeinit
| CallRecordClear.

Definition runCall (c : DriverCall) (d : Driver) : Driver :=
  match c with
  | CallCommandSetup => commandSetup d
  | CallDetectSetup => detect_setup d
  | CallDeinit => deinit_i2s d
  | CallRecordClear => recordClear d
  end.

Definition runCalls (cs : list DriverCall) (d : Driver) : Driver :=
  fold_left (fun d c => runCall c d) cs d.

(** What port 0 can be in: off, or installed with the recorder's
    configuration and pins. *)
Definition port0Inv (p : PortState) : Prop :=
  (installed p = None /\ pins p = None) \/
  (installed p = Some init_i2s_config /\ pins p = Some init_i2s_pins).

(** ** Lemmas *)

Lemma setPort_same (n : Z) (p : PortState) (d : Driver) : setPort n p d n = p.
Proof. unfold setPort. now rewrite Z.eqb_refl. Qed.

Lemma setPort_other (n m : Z) (p : PortState) (d : Driver) : m <> n -> setPort n p d m = d m.
Proof. unfold setPort. intros Hm. now rewrite (proj2 (Z.eqb_neq m n) Hm). Qed.

(** The driver's calls touch the port they are given only. *)
Ltac prim_other := intros; match goal with
  | |- snd (?f ?m _ ?d) ?n = _ => unfold f
  | |- snd (?f ?m ?d) ?n = _ => unfold f
  end; destruct (installed _); cbn [snd]; rewrite ?setPort_other; auto.

Lemma install_other (m n : Z) (cfg : i2s_config_t) (d : Driver) :
  n <> m -> snd (i2s_driver_install m cfg d) n = d n.
Proof. prim_other. Qed.

Lemma set_pin_other (m n : Z) (pc : i2s_pin_config_t) (d : Driver) :
  n <> m -> snd (i2s_set_pin m pc d) n = d n.
Proof. prim_other. Qed.

Lemma zero_dma_other (m n : Z) (d : Driver) :
  n <> m -> snd (i2s_zero_dma_buffer m d) n = d n.
Proof. prim_other. Qed.

Lemma uninstall_other (m n : Z) (d : Driver) :
  n <> m -> snd (i2s_driver_uninstall m d) n = d n.
Proof. prim_other. Qed.

(** The detector's and the recorder's structures are the same. *)
Lemma configs_agree : initI2S_config = init_i2s_config /\ initI2S_pins = init_i2s_pins.
Proof. split; reflexivity. Qed.

Ltac driver_unfold :=
  unfold runCall, commandSetup, init_i2s, detect_setup, initI2S, deinit_i2s,
    recordClear, I2S_PORT in *.

(** Each call of the program touches port 0 only. *)
Lemma runCall_other (c : DriverCall) (d : Driver) (n : Z) :
  n <> I2S_NUM_0 -> runCall c d n = d n.
Proof.
  intros Hn. destruct c; driver_unfold;
    rewrite ?zero_dma_other, ?set_pin_other, ?install_other, ?uninstall_other by exact Hn;
    reflexivity.
Qed.

(** What each driver call leaves in the port it is given. *)
Ltac prim_same := intros; match goal with
  | |- snd (?f ?m _ ?d) ?m = _ => unfold f
  | |- snd (?f ?m ?d) ?m = _ => unfold f
  end; destruct (installed (_ _)); cbn [snd]; rewrite ?setPort_same; reflexivity.

Lemma install_same (m : Z) (cfg : i2s_config_t) (d : Driver) :
  snd (i2s_driver_install m cfg d) m =
  match installed (d m) with Some _ => d m | None => mkPort (Some cfg) None false end.
Proof. prim_same. Qed.

Lemma set_pin_same (m : Z) (pc : i2s_pin_config_t) (d : Driver) :
  snd (i2s_set_pin m pc d) m =
  match installed (d m) with
  | Some c => mkPort (Some c) (Some pc) (dmaZeroed (d m)) | None => d m end.
Proof. prim_same. Qed.

Lemma zero_dma_same (m : Z) (d : Driver) :
  snd (i2s_zero_dma_buffer m d) m =
  match installed (d m) with Some c => mkPort (Some c) (pins (d m)) true | None => d m end.
Proof. prim_same. Qed.

Lemma uninstall_same (m : Z) (d : Driver) :
  snd (i2s_driver_uninstall m d) m =
  match installed (d m) with Some _ => portOff | None => d m end.
Proof. prim_same. Qed.

(** Port 0 after a call, by cases on whether it was installed. *)
Ltac port0_cases d :=
  driver_unfold;
  repeat first [rewrite zero_dma_same | rewrite set_pin_same | rewrite install_same
               | rewrite uninstall_same];
  destruct (d I2S_NUM_0) as [inst pn z]; cbn in *; subst.

Lemma runCall_port0 (c : DriverCall) (d : Driver) :
  port0Inv (d I2S_NUM_0) -> port0Inv (runCall c d I2S_NUM_0).
Proof.
  unfold port0Inv. intros [[Hi Hp]|[Hi Hp]]; destruct c; port0_cases d;
    auto.
Qed.

Lemma runCalls_port0 (cs : list DriverCall) (d : Driver) :
  port0Inv (d I2S_NUM_0) -> port0Inv (runCalls cs d I2S_NUM_0).
Proof.
  revert d. induction cs as [|c cs IH]; intros d Hd; [exact Hd|].
  unfold runCalls in *. cbn [fold_left]. apply IH, runCall_port0, Hd.
Qed.

Lemma runCalls_other (cs : list DriverCall) (d : Driver) (n : Z) :
  n <> I2S_NUM_0 -> runCalls cs d n = d n.
Proof.
  intros Hn. revert d. induction cs as [|c cs IH]; intros d; [reflexivity|].
  unfold runCalls in *. cbn [fold_left]. rewrite IH. now apply runCall_other.
Qed.

(** ** Properties *)

(** C36. Whatever sequence of [commandSetup], [detect_setup],
    [deinit_i2s] and recording starts the program performs after
    power-on, port [I2S_NUM_0] is either off or installed with the
    configuration and pins [init_i2s] gives it (which [initI2S] repeats),
    and no other port is touched. *)
Theorem driver_config_invariant (cs : list DriverCall) :
  port0Inv (runCalls cs driver0 I2S_NUM_0) /\
  (forall n, n <> I2S_NUM_0 -> runCalls cs driver0 n = portOff).
Proof.
  split.
  - apply runCalls_port0. left. split; reflexivity.
  - intros n Hn. exact (runCalls_other cs driver0 n Hn).
Qed.

(** The order of [commandSetup] and [detect_setup] in [setup()] does not
    matter, from any state of the driver. *)
Lemma setup_order (d : Driver) (n : Z) :
  detect_setup (commandSetup d) n = commandSetup (detect_setup d) n.
Proof.
  destruct (Z.eq_dec n I2S_NUM_0) as [->|Hn].
  - change (runCall CallDetectSetup (runCall CallCommandSetup d) I2S_NUM_0 =
            runCall CallCommandSetup (runCall CallDetectSetup d) I2S_NUM_0).
    port0_cases d; destruct inst; reflexivity.
  - change (runCall CallDetectSetup (runCall CallCommandSetup d) n =
            runCall CallCommandSetup (runCall CallDetectSetup d) n).
    now rewrite !runCall_other by exact Hn.
Qed.

(** After [setup()] on a port that was off, the driver samples the left
    channel in 32-bit words at the rate of the detector's FFT and of the
    WAV header, with cleared DMA buffers. *)
Lemma setupI2S_port0 (d : Driver) :
  installed (d I2S_NUM_0) = None ->
  setupI2S d I2S_NUM_0 = mkPort (Some init_i2s_config) (Some init_i2s_pins) true /\
  sample_rate init_i2s_config = SAMPLING_FREQUENCY /\
  sample_rate init_i2s_config = Recorder.sample_rate (Recorder.create_wav_header Recorder.recDataSize) /\
  bits_per_sample init_i2s_config = 32 /\ channel_format init_i2s_config = I2S_CHANNEL_FMT_ONLY_LEFT.
Proof.
  intros Hi. unfold setupI2S.
  change (detect_setup (commandSetup d) I2S_NUM_0)
    with (runCall CallDetectSetup (runCall CallCommandSetup d) I2S_NUM_0).
  port0_cases d. repeat split; reflexivity.
Qed.

End I2SDriver.
