(* ===== verification/System.v ===== *)
(** * The whole of [loop()] (main.cpp)

    [loop()] runs, in this order, [checkSleep()], [detect_loop()] and
    [playNote()] (the audio path of [MainLoop.loop]), [commandHandler()]
    (which may record a WAV file, [Recorder]) and [handleFTPServer()]
    ([Ftp]).  The device state is the audio statics, the FTP globals and
    the SPIFFS files; the recorder and the FTP server meet in the files,
    the recorder and the detector in the I2S driver (each reads its own
    blocks).  A recording that never gets its samples never returns, and
    neither does that iteration ([None]).  [loopAll_files] shows the
    effect of an iteration on the files as the recorder's file operation
    followed by the FTP command's, on the abstract map of [Spiffs]. *)

From S2P Require Import Prelude I2S HighPass Spectrum Detect Tracker MainLoop Spiffs Ftp Recorder.
From Stdlib Require Import String.
From stdpp Require Import base.
Open Scope Z_scope.

Module System.
Import I2S Tracker MainLoop Spiffs Ftp Recorder.

(** The state that survives an iteration. *)
Record DeviceState := mkDevice {
  audioState : SysState;
  ftpState : FtpState;
  files : FS
}.

(** [setup()] with SPIFFS holding [fs]: fresh statics and globals. *)
Definition powerOn (fs : FS) : DeviceState := mkDevice boot ftp0 fs.

(** The events of one iteration: the audio inputs, the serial character
    and the clock for [commandHandler], the recorder's events and reads,
    and the FTP server's events. *)
Record LoopInput := mkLoopInput {
  audioIn : CycleInput;
  serialIn : option Z;
  millisIn : Z;
  recEnvIn : RecEnv;
  recReadsIn : list I2SRead;
  ftpEnvIn : FtpEnv;
  ftpIn : ServerInput
}.

Inductive DeviceMode :=
| DeviceRunning (d : DeviceState)
| DeviceSleeping (fs : FS).

Section WithFFT.
Context `{FFTLib}.

(** [void loop()]: the audio path, then the serial command, then the FTP
    server; deep sleep ends the iteration in [checkSleep] (the files
    stay, everything else is lost). *)
Definition loopAll (d : DeviceState) (i : LoopInput)
  : option (DeviceMode * list MidiCall * list FtpOutput) :=
  match loop (audioState d) (audioIn i) with
  | (Sleeping, calls) => Some (DeviceSleeping (files d), calls, [])
  | (Running st', calls) =>
      match commandHandler (serialIn i) (millisIn i) (recEnvIn i) (recReadsIn i) (files d) with
      | None => None
      | Some fs1 =>
          let '(ftp', fs2, out) := handleFTPServer (ftpEnvIn i) (ftpState d) fs1 (ftpIn i) in
          Some (DeviceRunning (mkDevice st' ftp' fs2), calls, out)
      end
  end.

(** The device modes reachable from power-on (with any files on flash),
    with the MIDI calls made since the last boot; waking up from deep
    sleep reboots with the files kept. *)
Inductive devReachable : DeviceMode -> list MidiCall -> Prop :=
| dev_power fs : devReachable (DeviceRunning (powerOn fs)) []
| dev_step d calls i m cs out :
    devReachable (DeviceRunning d) calls -> loopAll d i = Some (m, cs, out) ->
    devReachable m (calls ++ cs)
| dev_wake fs calls :
    devReachable (DeviceSleeping fs) calls -> devReachable (DeviceRunning (powerOn fs)) [].

(** The invariant of the whole device. *)
Definition deviceInv (d : DeviceState) (calls : list MidiCall) : Prop :=
  ftpInv (ftpState d) /\ bootCalls (bleInitialised (trk (audioState d))) calls.

Lemma deviceInv_powerOn (fs : FS) : deviceInv (powerOn fs) [].
Proof. split; [unfold ftpInv; discriminate | constructor]. Qed.

Lemma loopAll_inv (d d' : DeviceState) (i : LoopInput) (calls cs : list MidiCall) (out : list FtpOutput) :
  deviceInv d calls -> loopAll d i = Some (DeviceRunning d', cs, out) -> deviceInv d' (calls ++ cs).
Proof.
  intros [Hf Hb] Hl. unfold loopAll in Hl.
  destruct (loop (audioState d) (audioIn i)) as [[st'|] calls'] eqn:El; [|discriminate].
  destruct (commandHandler _ _ _ _ _) as [fs1|]; [|discriminate].
  pose proof (handleFTPServer_inv (ftpEnvIn i) (ftpState d) fs1 (ftpIn i) Hf) as Hf'.
  destruct (handleFTPServer _ _ _ _) as [[ftp' fs2] out']. injection Hl as <- <- <-.
  split; [exact Hf'|]. exact (loop_bootCalls _ _ _ _ _ Hb El).
Qed.

(** The invariants of the audio path and of the FTP server hold
    together for the whole [loop()], across deep sleep and reboots. *)
Theorem device_invariant (d : DeviceState) (calls : list MidiCall) :
  devReachable (DeviceRunning d) calls ->
  ftpInv (ftpState d) /\ bootCalls (bleInitialised (trk (audioState d))) calls.
Proof.
  intros Hr. remember (DeviceRunning d) as m eqn:Em. revert d Em.
  induction Hr as [fs|d0 calls0 i m cs out Hr IH Hl|fs calls0 Hr IH]; intros d Em.
  - injection Em as <-. apply deviceInv_powerOn.
  - subst m. exact (loopAll_inv d0 d i calls0 cs out (IH d0 eq_refl) Hl).
  - injection Em as <-. apply deviceInv_powerOn.
Qed.

(** C24. Refinement of the file store by a whole iteration of [loop()]:
    when no path is listed twice, an iteration that goes to sleep keeps
    the files; one that runs on changes them, seen as a finite map, by
    the file operation of [commandHandler] (the recording, if 'g' was
    typed) and then by that of the FTP command served after it, on the
    files the recording left, and still lists every path once; and an
    iteration hangs only when the recording never gets its samples. *)
Theorem loopAll_files (d : DeviceState) (i : LoopInput) :
  fsInv (files d) ->
  match loopAll d i with
  | None => recordFileOp (serialIn i) (millisIn i) (recEnvIn i) (recReadsIn i) = None
  | Some (DeviceSleeping fs', _, _) => fs' = files d
  | Some (DeviceRunning d', _, _) =>
      fsInv (files d') /\
      exists op, recordFileOp (serialIn i) (millisIn i) (recEnvIn i) (recReadsIn i) = Some op /\
        absFS (files d') =
          applyFileOp (serverFileOp (ftpEnvIn i) (ftpState d) (ftpIn i)) (applyFileOp op (absFS (files d)))
  end.
Proof.
  intros Hinv. unfold loopAll.
  destruct (loop (audioState d) (audioIn i)) as [[st'|] calls]; [|reflexivity].
  pose proof (commandHandler_absFS (serialIn i) (millisIn i) (recEnvIn i) (recReadsIn i) (files d) Hinv)
    as Hc.
  destruct (recordFileOp _ _ _ _) as [op|]; [|rewrite Hc; reflexivity].
  destruct Hc as (fs1 & -> & Hi1 & Ha1).
  pose proof (handleFTPServer_absFS (ftpEnvIn i) (ftpState d) fs1 (ftpIn i) Hi1) as [Hi2 Ha2].
  destruct (handleFTPServer _ _ _ _) as [[ftp' fs2] out]. cbn [fst snd files] in *.
  split; [exact Hi2|]. exists op. split; [reflexivity|]. rewrite Ha2, Ha1. reflexivity.
Qed.

End WithFFT.

Lemma loopAll_files_witness :
  let d := mkDevice boot (mkFtp true true "/") [("/recording_5.wav"%string, [1; 2])] in
  let i := mkLoopInput (mkCycle false true true (mkI2SRead 1 0 [])) None 0
             (mkRecEnv true true true) [] envUp (mkServerInput false true (Some "DELE recording_5.wav"%string)) in
  fsInv (files d) /\
  match @loopAll identityFFT d i with
  | None => recordFileOp (serialIn i) (millisIn i) (recEnvIn i) (recReadsIn i) = None
  | Some (DeviceSleeping fs', _, _) => fs' = files d
  | Some (DeviceRunning d', _, _) =>
      fsInv (files d') /\
      exists op, recordFileOp (serialIn i) (millisIn i) (recEnvIn i) (recReadsIn i) = Some op /\
        absFS (files d') =
          applyFileOp (serverFileOp (ftpEnvIn i) (ftpState d) (ftpIn i)) (applyFileOp op (absFS (files d)))
  end.
Proof.
  intros d i.
  assert (H : fsInv (files d)) by (unfold fsInv; cbn; constructor; [intros Hin; inversion Hin | constructor]).
  split; [exact H | exact (@loopAll_files identityFFT d i H)].
Defined.

Lemma device_invariant_witness :
  let d := powerOn [] in
  let i := mkLoopInput (mkCycle false true true (mkI2SRead 1 0 [])) None 0
             (mkRecEnv true true true) [] envUp (mkServerInput true true (Some "PASV"%string)) in
  @devReachable identityFFT (DeviceRunning (mkDevice boot (mkFtp true true "/") [])) [NoteOff 0 (-1) 127] /\
  ftpInv (mkFtp true true "/") /\ bootCalls (bleInitialised (trk boot)) [NoteOff 0 (-1) 127].
Proof.
  intros d i.
  assert (H : @devReachable identityFFT (DeviceRunning (mkDevice boot (mkFtp true true "/") []))
                [NoteOff 0 (-1) 127]).
  { change [NoteOff 0 (-1) 127] with ([] ++ [NoteOff 0 (-1) 127]).
    apply (@dev_step identityFFT d [] i _ _ [Reply "220 ESP32 FTP Server ready"%string;
             Reply (pasvReply (env_ip envUp) (pasvPort envUp))]);
      [constructor | vm_compute; reflexivity]. }
  split; [exact H | exact (@device_invariant identityFFT _ _ H)].
Defined.

End System.
