(* ===== verification/Diagnostics.v ===== *)
(** * The start-up reports: [displayStorageInfo], [formatBytes] and
    [displayClockInfo] (main.cpp)

    [setup()] prints the SPIFFS usage with every file of the root, and the
    clocks of the chip, once SPIFFS is mounted.  Each report is modelled
    as the list of lines it sends with [Serial.println]; what it asks the
    libraries ([SPIFFS.totalBytes()], [getCpuFrequencyMhz()], ...) is an
    input.  [String(value, decimals)] of the Arduino core is [dtostrf]
    with width [decimals + 2]: it adds half a unit of the last decimal,
    then prints the digits, so for a value that is not negative it shows
    [floor(value * 10^decimals + 1/2)] with a point before the last
    [decimals] digits.  Floating-point values are exact rationals, as in
    the rest of the development; for [formatBytes] this is exact, since a
    byte count over a power of two is never within rounding error of a
    half-tenth.  In [displayClockInfo] a quotient can fall on a half
    unit of the last decimal ([1000000.0 / 80000000 = 0.0125]), where the
    digit the [double] computation prints depends on its rounding; the
    model shows the exact value rounded half up there. *)

From S2P Require Import Prelude Spiffs Ftp.
From Stdlib Require Import String Ascii.
Open Scope Z_scope.

Module Diagnostics.
Import ArduinoString Spiffs.

(** ** [String(value, decimals)] *)

(** The last [p] decimal digits of [n], with leading zeros. *)
Fixpoint digitsPad (p : nat) (n : Z) : string :=
  match p with
  | O => EmptyString
  | S p' => (digitsPad p' (n / 10) ++ String (digit (n mod 10)) EmptyString)%string
  end.

(** The value shown, in units of the last decimal. *)
Definition shownUnits (q : Q) (p : nat) : Z := Qfloor (q * inject_Z (10 ^ Z.of_nat p) + (1 # 2))%Q.

(** [dtostrf(value, p + 2, p, buf)] for a value that is not negative;
    [1000.0 / 0] is infinite and prints [inf]. *)
Definition dtostrf (q : option Q) (p : nat) : string :=
  match q with
  | None => "inf"
  | Some q =>
      let t := shownUnits q p in
      match p with
      | O => decimal t
      | S _ => (decimal (t / 10 ^ Z.of_nat p) ++ "." ++ digitsPad p (t mod 10 ^ Z.of_nat p))%string
      end
  end.

(** [x / d] in [double] for a divisor that is an unsigned integer. *)
Definition fdiv (x : Q) (d : Z) : option Q := if d =? 0 then None else Some (x / inject_Z d)%Q.

(** ** [formatBytes] *)

Definition formatBytes (bytes : Z) : string :=
  if bytes <? 1024 then (decimal bytes ++ " B")%string
  else if bytes <? 1024 * 1024 then (dtostrf (fdiv (inject_Z bytes) 1024) 1 ++ " KB")%string
  else if bytes <? 1024 * 1024 * 1024 then
    (dtostrf (fdiv (inject_Z bytes) (1024 * 1024)) 1 ++ " MB")%string
  else (dtostrf (fdiv (inject_Z bytes) (1024 * 1024 * 1024)) 1 ++ " GB")%string.

(** ** [displayStorageInfo] *)

(** What [SPIFFS.totalBytes()] and [SPIFFS.usedBytes()] return. *)
Record StorageEnv := mkStorage {
  totalBytes : Z;
  usedBytes : Z
}.

(** The [size_t] arithmetic of the report (32 bits on the ESP32). *)
Definition size_t (x : Z) : Z := x mod 2 ^ 32.

(** The lines printed for the files of the root, in the order
    [openNextFile] returns them, and the closing count. *)
Definition fileLines (fs : FS) : list string :=
  map (fun '(name, data) =>
         ("  " ++ name ++ " (" ++ formatBytes (Z.of_nat (List.length data)) ++ ")")%string) fs ++
  [if (List.length fs =? 0)%nat then "  (no files found)"%string
   else ("  Total files: " ++ decimal (Z.of_nat (List.length fs)))%string].

(** The whole report; [None] when the usage divides by a total of zero. *)
Definition displayStorageInfo (env : StorageEnv) (fs : FS) : option (list string) :=
  let total := totalBytes env in
  let used := usedBytes env in
  let free := size_t (total - used) in
  if total =? 0 then None
  else Some ([ "SPIFFS Storage Information:";
               "  Total Space: " ++ formatBytes total;
               "  Used Space:  " ++ formatBytes used;
               "  Free Space:  " ++ formatBytes free;
               "  Usage: " ++ decimal (size_t (used * 100) / total) ++ "%";
               "Existing files:" ]%string ++ fileLines fs).

(** ** [displayClockInfo] *)

(** What [getCpuFrequencyMhz()], [getApbFrequency()],
    [getXtalFrequencyMhz()], [xPortGetCoreID()], [ESP.getChipCores()] and
    [ESP.getFlashChipSpeed()] return. *)
Record ClockEnv := mkClock {
  cpuFreq : Z;
  apbFreq : Z;
  xtalFreq : Z;
  coreId : Z;
  chipCores : Z;
  flashSpeed : Z
}.

Definition displayClockInfo (env : ClockEnv) : list string :=
  [ "ESP32 Clock Information:";
    "  CPU Frequency: " ++ decimal (cpuFreq env) ++ " MHz";
    "  APB Frequency: " ++ dtostrf (fdiv (inject_Z (apbFreq env)) 1000000) 1 ++ " MHz";
    "  XTAL Frequency: " ++ decimal (xtalFreq env) ++ " MHz";
    "  Clock cycle time: " ++ dtostrf (fdiv 1000 (cpuFreq env)) 3 ++ " ns";
    "  APB cycle time: " ++ dtostrf (fdiv 1000000 (apbFreq env)) 3 ++ " us";
    "  Running on Core: " ++ decimal (coreId env);
    "  Total CPU Cores: " ++ decimal (chipCores env);
    "  Flash Speed: " ++ decimal (flashSpeed env / 1000000) ++ " MHz";
    EmptyString ]%string.

(** ** Properties *)

Lemma string_app_assoc (a b c : string) : ((a ++ b) ++ c = a ++ b ++ c)%string.
Proof. induction a as [|x a IH]; [reflexivity | exact (f_equal (String x) IH)]. Qed.

(** The value [a / c] shown with one decimal, as integer arithmetic. *)
Lemma shownUnits_ratio (a : Z) (c : positive) :
  shownUnits (inject_Z a / inject_Z (Zpos c)) 1 = (20 * a + Zpos c) / (2 * Zpos c).
Proof.
  unfold shownUnits.
  rewrite (Qfloor_comp _ ((20 * a + Zpos c) # (2 * c))); [reflexivity|].
  unfold Qeq; cbn. lia.
Qed.

(** [String(x, 1)] of a quotient: the shown tenths, split at the point. *)
Lemma dtostrf_ratio (a c : Z) :
  0 < c ->
  dtostrf (fdiv (inject_Z a) c) 1 =
  (decimal ((20 * a + c) / (2 * c) / 10) ++ "." ++ digitsPad 1 ((20 * a + c) / (2 * c) mod 10))%string.
Proof.
  destruct c as [|c|c]; intros Hc; try lia.
  unfold dtostrf, fdiv. cbn [Z.eqb]. rewrite shownUnits_ratio. reflexivity.
Qed.

Ltac tenths_case :=
  split; [cbn; tauto|]; split; [lia|]; split; [reflexivity|];
  split; [now rewrite !string_app_assoc|]; split; zlia.

(** C26. [formatBytes] shows every 32-bit byte count in the largest unit
    it reaches: below 1024 as the exact count with [B]; otherwise in the
    unit [u] (KB, MB or GB) with [u <= b < 1024 u], as a number of tenths
    [t] printed with one decimal, where [t] is [b / u] to the nearest
    tenth ([|t u - 10 b| <= 5 u]), between [1.0] and [1024.0]. *)
Theorem formatBytes_shown (b : Z) :
  0 <= b < 2 ^ 32 ->
  (b < 1024 /\ formatBytes b = (decimal b ++ " B")%string) \/
  exists u name t,
    In (u, name) [(1024, " KB"); (2 ^ 20, " MB"); (2 ^ 30, " GB")]%string /\
    u <= b < 1024 * u /\ t = (20 * b + u) / (2 * u) /\
    formatBytes b = (decimal (t / 10) ++ "." ++ digitsPad 1 (t mod 10) ++ name)%string /\
    10 * b - 5 * u < t * u <= 10 * b + 5 * u /\ 10 <= t <= 10240.
Proof.
  intros Hb. unfold formatBytes.
  destruct (Z.ltb_spec b 1024); [left; split; [lia | reflexivity] | right].
  destruct (Z.ltb_spec b (1024 * 1024)).
  { exists 1024, " KB"%string, ((20 * b + 1024) / (2 * 1024)).
    rewrite (dtostrf_ratio b 1024) by lia.
    tenths_case. }
  destruct (Z.ltb_spec b (1024 * 1024 * 1024)).
  { exists (2 ^ 20), " MB"%string, ((20 * b + 2 ^ 20) / (2 * 2 ^ 20)).
    rewrite (dtostrf_ratio b (1024 * 1024)) by lia.
    tenths_case. }
  exists (2 ^ 30), " GB"%string, ((20 * b + 2 ^ 30) / (2 * 2 ^ 30)).
  rewrite (dtostrf_ratio b (1024 * 1024 * 1024)) by lia.
  tenths_case.
Qed.

Lemma formatBytes_shown_witness :
  0 <= 1536 < 2 ^ 32 /\
  ((1536 < 1024 /\ formatBytes 1536 = (decimal 1536 ++ " B")%string) \/
   exists u name t,
     In (u, name) [(1024, " KB"); (2 ^ 20, " MB"); (2 ^ 30, " GB")]%string /\
     u <= 1536 < 1024 * u /\ t = (20 * 1536 + u) / (2 * u) /\
     formatBytes 1536 = (decimal (t / 10) ++ "." ++ digitsPad 1 (t mod 10) ++ name)%string /\
     10 * 1536 - 5 * u < t * u <= 10 * 1536 + 5 * u /\ 10 <= t <= 10240).
Proof.
  assert (H : 0 <= 1536 < 2 ^ 32) by lia.
  split; [exact H | exact (formatBytes_shown 1536 H)].
Defined.

(** A file one byte short of a megabyte is shown as [1024.0 KB]: the unit
    is chosen before the rounding. *)
Lemma formatBytes_just_under_MB : formatBytes 1048575 = "1024.0 KB"%string.
Proof. vm_compute. reflexivity. Qed.

Lemma fileLines_length (fs : FS) : List.length (fileLines fs) = S (List.length fs).
Proof. unfold fileLines. rewrite length_app, length_map. cbn. lia. Qed.

(** With a non-empty file system whose usage fits the 32-bit [size_t]
    product [usedBytes * 100], the report has seven lines and one per
    file, the free space is the difference, and the usage is the
    percentage rounded down, at most 100. *)
Lemma displayStorageInfo_lines (env : StorageEnv) (fs : FS) :
  0 < totalBytes env < 2 ^ 32 -> 0 <= usedBytes env <= totalBytes env ->
  usedBytes env * 100 < 2 ^ 32 ->
  exists lines, displayStorageInfo env fs = Some lines /\
    List.length lines = (7 + List.length fs)%nat /\
    nth 3 lines EmptyString = ("  Free Space:  " ++ formatBytes (totalBytes env - usedBytes env))%string /\
    nth 4 lines EmptyString =
      ("  Usage: " ++ decimal (usedBytes env * 100 / totalBytes env) ++ "%")%string /\
    0 <= usedBytes env * 100 / totalBytes env <= 100.
Proof.
  intros Ht Hu Hm. unfold displayStorageInfo.
  destruct (Z.eqb_spec (totalBytes env) 0) as [E|_]; [lia|].
  eexists. split; [reflexivity|]. unfold size_t.
  rewrite (Z.mod_small (usedBytes env * 100)), (Z.mod_small (totalBytes env - usedBytes env)) by lia.
  split; [rewrite length_app, fileLines_length; cbn; lia|].
  split; [reflexivity|]. split; [reflexivity|].
  split; [apply Z.div_pos; lia|]. apply Z.div_le_upper_bound; lia.
Qed.

(** Beyond 42949672 bytes used, [usedBytes * 100] wraps around in
    [size_t] and the usage shown is wrong: a full file system of
    50000000 bytes reports 14%.  (The SPIFFS partitions of an ESP32 stay
    below 16 MB, where the product fits.) *)
Lemma displayStorageInfo_usage_wraps :
  displayStorageInfo (mkStorage 50000000 50000000) [] =
  Some ["SPIFFS Storage Information:"; "  Total Space: 47.7 MB"; "  Used Space:  47.7 MB";
        "  Free Space:  0 B"; "  Usage: 14%"; "Existing files:"; "  (no files found)"]%string.
Proof. vm_compute. reflexivity. Qed.

End Diagnostics.
