(* ===== verification/SerialLog.v ===== *)
(** * The detector's text: [frequencyToNote], [detectMusicalNote] and
    the log line of [detect_loop] (detect.hpp)

    [Quantizer.frequencyToNote] and [Detect.detectMusicalNote] return the
    parts of the text they build ([NoteReport], [DetectResult]); this file
    renders them as the code does, and models the [Serial] output of
    [detect_loop]:
    [Serial.print("Note: "); Serial.print(frequencyToNote(peakFrequency));
     Serial.print(" v:"); Serial.print(rmsLevel, 6);
     Serial.print(" t:"); Serial.print(endTime-startTime, 6);
     Serial.println();].
    The Arduino core's [Print] methods are written out: [print(unsigned
    long, int base)] is [printNumber], which writes the digits in the
    given base, so the second [6] selects base 6 where the first selects
    six decimals ([printFloat]).  The value of [rmsLevel] and the two
    [millis()] readings are inputs; a [float] is a rational, so the value
    printed is a [Q]. *)

From S2P Require Import Prelude I2S HighPass Spectrum PeakExtractor Quantizer Detect Spiffs Ftp Diagnostics.
From Stdlib Require Import String Ascii.
Open Scope Z_scope.

Module SerialLog.
Import I2S HighPass PeakExtractor Quantizer Detect ArduinoString Diagnostics.

(** ** [Print::printNumber] and [Print::printFloat] *)

(** [c < 10 ? c + '0' : c + 'A' - 10]. *)
Definition digitChar (c : Z) : ascii :=
  ascii_of_nat (Z.to_nat (if c <? 10 then 48 + c else 55 + c)).

(** [do { c = n % base; n /= base; *--str = digit(c); } while (n);]:
    the digits are written from the last, in front of [acc]. *)
Fixpoint printDigits (fuel : nat) (n base : Z) (acc : string) : string :=
  match fuel with
  | O => acc
  | S f =>
      let acc' := String (digitChar (n mod base)) acc in
      if n / base =? 0 then acc' else printDigits f (n / base) base acc'
  end.

(** [Print::printNumber(unsigned long n, uint8_t base)]: a base below 2
    becomes 10.  An [unsigned long] has 32 bits, so 32 digits suffice. *)
Definition printNumber (n base : Z) : string :=
  let b := if base <? 2 then 10 else base in printDigits 32 n b EmptyString.

(** [Print::printFloat(double number, uint8_t digits)]: [ovf] beyond
    [4294967040.0], a minus sign, then the value plus half a unit of the
    last digit, its integer part and [digits] digits. *)
Definition printFloat (q : Q) (digits : nat) : string :=
  if Qltb 4294967040 q then "ovf"
  else if Qltb q (-4294967040) then "ovf"
  else
    let sign := if Qltb q 0 then "-"%string else EmptyString in
    let t := shownUnits (Qabs q) digits in
    let p := 10 ^ Z.of_nat digits in
    (sign ++ decimal (t / p) ++
     match digits with O => EmptyString | S _ => "." ++ digitsPad digits (t mod p) end)%string.

(** ** The strings of the detector *)

(** [String(noteNames[noteIndex]) + String(octave)] and
    [" (" + String(frequency, 1) + " Hz)"]. *)
Definition noteText (r : NoteReport) : string :=
  match r with
  | TooLow => "Too Low"
  | TooHigh => "Too High"
  | NoteAt i o f =>
      (nth (Z.to_nat i) noteNames EmptyString ++ decimal o ++
       " (" ++ dtostrf (Some f) 1 ++ " Hz)")%string
  end.

(** The [String] that [detectMusicalNote] returns. *)
Definition detectResultText (r : DetectResult) : string :=
  match r with
  | I2SReadError => "I2S Read Error"
  | NoClearNote => "No Clear Note"
  | Detected n => noteText n
  end.

(** The line [detect_loop] prints for a note. *)
Definition noteLine (peakFrequency rmsLevel : Q) (startTime endTime : Z) : string :=
  ("Note: " ++ noteText (frequencyToNote peakFrequency) ++ " v:" ++ printFloat rmsLevel 6 ++
   " t:" ++ printNumber ((endTime - startTime) mod 2 ^ 32) 6 ++ crlf)%string.

Section WithFFT.
Context `{FFTLib}.

(** [detect_loop] with its [Serial] output: [I2S Read Error] on a failed
    read, nothing below the threshold, the note line otherwise. *)
Definition detect_loop_serial (st : FilterState) (rd : I2SRead) (rmsLevel : Q)
  (startTime endTime : Z) : Q * FilterState * list string :=
  if negb (readI2SSamples rd) then (0%Q, st, [("I2S Read Error" ++ crlf)%string])
  else
    let '(mag, st') := analyse st (i2sBuffer rd) in
    let '(maxMagnitude, peakIndex) := findPeak mag in
    if Qltb maxMagnitude loopThreshold then (0%Q, st', [])
    else
      let f := interpolatedFrequency mag peakIndex in
      (f, st', [noteLine f rmsLevel startTime endTime]).

End WithFFT.

(** ** Reading digits back *)

(** The value of a digit character, and of a string of digits read in
    base [r]. *)
Definition charValue (ch : ascii) : Z :=
  let k := Z.of_nat (nat_of_ascii ch) in if k <? 58 then k - 48 else k - 55.

Fixpoint readAcc (r : Z) (s : string) (a : Z) : Z :=
  match s with
  | EmptyString => a
  | String ch s' => readAcc r s' (a * r + charValue ch)
  end.

Definition readNumber (r : Z) (s : string) : Z := readAcc r s 0.

(** The digits [printDigits] writes for [n] in base [b], valued as
    digits of base [r]. *)
Fixpoint digitsValue (fuel : nat) (n b r : Z) : Z :=
  match fuel with
  | O => 0
  | S f => if n / b =? 0 then n mod b else digitsValue f (n / b) b r * r + n mod b
  end.

(** ** Lemmas *)

Lemma charValue_digitChar (c : Z) : 0 <= c < 36 -> charValue (digitChar c) = c.
Proof.
  intros Hc. unfold charValue, digitChar. cbv zeta.
  destruct (Z.ltb_spec c 10);
    (rewrite nat_ascii_embedding; [rewrite Z2Nat.id by lia|lia]);
    [destruct (Z.ltb_spec (48 + c) 58) | destruct (Z.ltb_spec (55 + c) 58)]; lia.
Qed.

(** Reading back what [printDigits] wrote, in any base [r]. *)
Lemma printDigits_read (r b : Z) (fuel : nat) :
  0 < b <= 36 -> forall n acc a, exists k, 0 <= k /\
  readAcc r (printDigits fuel n b acc) a = readAcc r acc (a * r ^ k + digitsValue fuel n b r).
Proof.
  intros Hb. induction fuel as [|f IH]; intros n acc a.
  - exists 0. split; [lia|]. cbn. f_equal. lia.
  - pose proof (Z.mod_pos_bound n b ltac:(lia)) as Hm.
    cbn [printDigits digitsValue]. destruct (n / b =? 0).
    + exists 1. split; [lia|]. cbn [readAcc]. rewrite charValue_digitChar by lia. f_equal. lia.
    + destruct (IH (n / b) (String (digitChar (n mod b)) acc) a) as (k & Hk0 & Hk).
      exists (Z.succ k). split; [lia|]. rewrite Hk. cbn [readAcc].
      rewrite charValue_digitChar by lia. f_equal. rewrite Z.pow_succ_r by lia. ring.
Qed.

Lemma pow_nat_succ (b : Z) (f : nat) : b ^ Z.of_nat (S f) = b * b ^ Z.of_nat f.
Proof. rewrite Nat2Z.inj_succ, Z.pow_succ_r by lia. reflexivity. Qed.

(** Valued in their own base, the digits give the number back. *)
Lemma digitsValue_same (b : Z) (fuel : nat) (n : Z) :
  2 <= b -> 0 <= n < b ^ Z.of_nat fuel -> digitsValue fuel n b b = n.
Proof.
  intros Hb. revert n. induction fuel as [|f IH]; intros n Hn.
  - cbn in Hn. cbn. lia.
  - rewrite pow_nat_succ in Hn. cbn [digitsValue].
    destruct (Z.eqb_spec (n / b) 0) as [E|E].
    + rewrite Z.mod_small; [reflexivity|]. split; [lia|].
      apply Z.div_small_iff in E; lia.
    + rewrite IH; [symmetry; rewrite Z.mul_comm; apply Z.div_mod; lia|].
      split; [apply Z.div_pos; lia|]. apply Z.div_lt_upper_bound; lia.
Qed.

(** Base-6 digits valued in base 10 exceed the number as soon as there
    are two of them. *)
Lemma digitsValue_6_10 (fuel : nat) (n : Z) :
  (0 < fuel)%nat -> 0 <= n < 6 ^ Z.of_nat fuel ->
  (n < 6 -> digitsValue fuel n 6 10 = n) /\ (6 <= n -> n < digitsValue fuel n 6 10).
Proof.
  revert n. induction fuel as [|f IH]; intros n Hf Hn; [lia|].
  rewrite pow_nat_succ in Hn. cbn [digitsValue].
  destruct (Z.eqb_spec (n / 6) 0) as [E|E].
  - apply Z.div_small_iff in E; [|lia]. rewrite Z.mod_small by lia. split; [reflexivity|lia].
  - assert (Hq : 1 <= n / 6 < 6 ^ Z.of_nat f) by (split; [|apply Z.div_lt_upper_bound]; zlia).
    destruct f as [|f]; [cbn in Hq; lia|].
    destruct (IH (n / 6) ltac:(lia) ltac:(lia)) as [Hlt Hge].
    assert (Hv : n / 6 <= digitsValue (S f) (n / 6) 6 10).
    { destruct (Z.lt_ge_cases (n / 6) 6) as [h|h]; [rewrite (Hlt h); lia | specialize (Hge h); lia]. }
    split; [intros; zlia|]. intros _. zlia.
Qed.

Lemma printNumber_read (r n base : Z) :
  2 <= base <= 36 -> readNumber r (printNumber n base) = digitsValue 32 n base r.
Proof.
  intros Hb. unfold readNumber, printNumber.
  destruct (Z.ltb_spec base 2); [lia|].
  destruct (printDigits_read r base 32 ltac:(lia) n EmptyString 0) as (k & _ & ->).
  cbn [readAcc]. lia.
Qed.

(** [detect_loop_serial] returns what [detect_loop] returns. *)
Lemma detect_loop_serial_result `{FFTLib} (st : FilterState) (rd : I2SRead) (rms : Q) (t0 t1 : Z) :
  let '(f, st', _) := detect_loop_serial st rd rms t0 t1 in (f, st') = detect_loop st rd.
Proof.
  unfold detect_loop_serial, detect_loop. destruct (negb (readI2SSamples rd)); [reflexivity|].
  destruct (analyse st (i2sBuffer rd)) as [mag st']. destruct (findPeak mag) as [m k].
  destruct (Qltb m loopThreshold); reflexivity.
Qed.

(** [String(f, 1)] of a frequency: the tenths [floor(10 f + 1/2)]. *)
Lemma dtostrf_tenths (f : Q) :
  exists t, dtostrf (Some f) 1 = (decimal (t / 10) ++ "." ++ digitsPad 1 (t mod 10))%string /\
    (10 * f - (1 # 2) < inject_Z t <= 10 * f + (1 # 2))%Q.
Proof.
  exists (shownUnits f 1). split; [reflexivity|].
  change (shownUnits f 1) with (Qfloor (f * 10 + (1 # 2))%Q).
  pose proof (Qfloor_le (f * 10 + (1 # 2))) as H1.
  pose proof (Qlt_floor (f * 10 + (1 # 2))) as H2.
  rewrite inject_Z_plus in H2. change (inject_Z 1) with (1 # 1) in H2.
  set (x := inject_Z _) in *. clearbody x. split; lra.
Qed.

(** The text of [frequencyToNote] depends on the value of the frequency
    only. *)
#[export] Instance noteText_frequencyToNote_proper :
  Proper (Qeq ==> eq) (fun f => noteText (frequencyToNote f)).
Proof.
  intros f f' E. cbv beta. unfold frequencyToNote.
  assert (E1 : Qltb f 80 = Qltb f' 80) by now rewrite E.
  assert (E2 : Qltb 5000 f = Qltb 5000 f') by now rewrite E.
  assert (E3 : shownUnits f 1 = shownUnits f' 1) by (unfold shownUnits; now rewrite E).
  rewrite E1, E2. destruct (Qltb f' 80) eqn:H80; [reflexivity|].
  destruct (Qltb 5000 f'); [reflexivity|]. apply Qltb_ge in H80.
  rewrite (semitonesRounded_compat f f') by (try rewrite E; lra).
  cbn [noteText dtostrf]. now rewrite E3.
Qed.

(** ** Properties *)

(** [Print::printNumber] is read back exactly: the digits it prints for
    any [unsigned long] in any base from 2 to 36, read as digits of that
    base, give the number. *)
Theorem printNumber_roundtrip (n base : Z) :
  2 <= base <= 36 -> 0 <= n < 2 ^ 32 -> readNumber base (printNumber n base) = n.
Proof.
  intros Hb Hn. rewrite printNumber_read by exact Hb.
  apply digitsValue_same; [lia|]. split; [lia|].
  apply (Z.lt_le_trans _ (2 ^ 32)); [lia|]. apply Z.pow_le_mono_l. lia.
Qed.

(** C22. [Serial.print(endTime-startTime, 6)] prints the time of the
    analysis in base 6, not with six digits: the text after [t:] reads
    back as the time in base 6, and read as a decimal number it is the
    time only when the time is below 6 ms. *)
Theorem noteLine_elapsed_base6 (f rms : Q) (startTime endTime : Z) :
  let e := (endTime - startTime) mod 2 ^ 32 in
  exists pre txt, noteLine f rms startTime endTime = (pre ++ " t:" ++ txt ++ crlf)%string /\
    readNumber 6 txt = e /\ (readNumber 10 txt = e <-> e < 6).
Proof.
  intros e. exists ("Note: " ++ noteText (frequencyToNote f) ++ " v:" ++ printFloat rms 6)%string,
    (printNumber e 6).
  split; [unfold noteLine; now rewrite !string_app_assoc|].
  assert (He : 0 <= e < 2 ^ 32) by (apply Z.mod_pos_bound; lia).
  rewrite !printNumber_read by lia.
  destruct (digitsValue_6_10 32 e ltac:(lia) ltac:(cbn; lia)) as [Hlt Hge].
  split; [apply digitsValue_same; cbn; lia|].
  split; [|exact Hlt]. intros Heq. destruct (Z.lt_ge_cases e 6) as [h|h]; [exact h|].
  specialize (Hge h). lia.
Qed.

(** C27. From C4 up to the top of the band, the note line names the
    equal-tempered note nearest to the frequency in scientific pitch
    notation: when [f] in [80, 5000] Hz lies strictly within half a
    semitone of the note [s] semitones from A4 (MIDI [69 + s], at least
    C4), the text is the name of that MIDI note ([noteNames] at
    [(69 + s) mod 12]), its octave [(69 + s) / 12 - 1], and the
    frequency in tenths of a hertz, rounded to the nearest tenth. *)
Theorem noteText_frequency (f : Q) (s : Z) :
  (80 <= f <= 5000)%Q -> (-9 <= s)%Z ->
  (2 ^ (2 * s - 1) < (f / 440) ^ 24 < 2 ^ (2 * s + 1))%Q ->
  exists t, noteText (frequencyToNote f) =
    (nth (Z.to_nat ((69 + s) mod 12)) noteNames EmptyString ++ decimal ((69 + s) / 12 - 1) ++ " (" ++
     decimal (t / 10) ++ "." ++ digitsPad 1 (t mod 10) ++ " Hz)")%string /\
    (10 * f - (1 # 2) < inject_Z t <= 10 * f + (1 # 2))%Q.
Proof.
  intros [Hlo Hhi] Hs [H1 H2]. unfold frequencyToNote.
  qcase f (80 : Q); [lra|]. qcase (5000 : Q) f; [lra|].
  rewrite (semitonesRounded_near f s ltac:(lra) H1 H2).
  assert (Ei : noteIndexOf s = ((69 + s) mod 12)%Z) by (unfold noteIndexOf; zlia).
  assert (Eo : octaveOf s = ((69 + s) / 12 - 1)%Z) by (unfold octaveOf; zlia).
  destruct (dtostrf_tenths f) as (t & Ht & Hb). exists t. split; [|exact Hb].
  cbn [noteText]. rewrite Ei, Eo, Ht. now rewrite !string_app_assoc.
Qed.

Lemma noteText_frequency_witness :
  ((80 <= 440 <= 5000)%Q /\ (-9 <= 0)%Z /\ (2 ^ (2 * 0 - 1) < (440 / 440) ^ 24 < 2 ^ (2 * 0 + 1))%Q) /\
  exists t, noteText (frequencyToNote 440) =
    (nth (Z.to_nat ((69 + 0) mod 12)) noteNames EmptyString ++ decimal ((69 + 0) / 12 - 1) ++ " (" ++
     decimal (t / 10) ++ "." ++ digitsPad 1 (t mod 10) ++ " Hz)")%string /\
    (10 * 440 - (1 # 2) < inject_Z t <= 10 * 440 + (1 # 2))%Q.
Proof.
  assert (Hb : (80 <= 440 <= 5000)%Q) by (split; qdecide).
  assert (Hs : (-9 <= 0)%Z) by (vm_compute; discriminate).
  assert (Hr : (2 ^ (2 * 0 - 1) < (440 / 440) ^ 24 < 2 ^ (2 * 0 + 1))%Q) by (split; vm_compute; reflexivity).
  split; [exact (conj Hb (conj Hs Hr)) | exact (noteText_frequency 440 0 Hb Hs Hr)].
Defined.

End SerialLog.
