(* ===== verification/Tables.v ===== *)
(** * The note and program tables (midinotes.h, midi_sounds.h)

    Two headers of [#define]s: [midinotes.h] names every MIDI note from
    [C0] = 12 to [G9] = 127 (sharps spelled [CS0], ...) and then the flat
    spellings as aliases of the sharps ([#define DB0 CS0]); [midi_sounds.h]
    names the 128 General MIDI programs (1-based) and five aliases.  A
    table is the list of its [#define]s in file order; [expand] replaces a
    macro by its body until a number is reached, as the preprocessor
    does.  The lemmas check the tables against the rule they follow, the
    note names [detect.hpp] prints, and the constants [playNote] uses. *)

From S2P Require Import Prelude Quantizer Tracker Ftp.
From Stdlib Require Import String Ascii.
Open Scope Z_scope.

Module Tables.
Import ArduinoString Quantizer.

(** The body of a [#define]: a number or another macro's name. *)
Inductive MacroBody :=
| Num (n : Z)
| Alias (name : string).

Fixpoint lookupMacro (tbl : list (string * MacroBody)) (name : string) : option MacroBody :=
  match tbl with
  | [] => None
  | (n, b) :: rest => if String.eqb n name then Some b else lookupMacro rest name
  end.

(** Macro expansion; each step follows one alias, so the length of the
    table bounds any chain without a cycle. *)
Fixpoint resolve (fuel : nat) (tbl : list (string * MacroBody)) (name : string) : option Z :=
  match fuel with
  | O => None
  | S f =>
      match lookupMacro tbl name with
      | Some (Num n) => Some n
      | Some (Alias m) => resolve f tbl m
      | None => None
      end
  end.

Definition expand (tbl : list (string * MacroBody)) (name : string) : option Z :=
  resolve (List.length tbl) tbl name.

(** [midinotes.h]. *)
Open Scope string_scope.

Definition midinotes : list (string * MacroBody) := [
  ("C0", Num 12);
  ("CS0", Num 13);
  ("D0", Num 14);
  ("DS0", Num 15);
  ("E0", Num 16);
  ("F0", Num 17);
  ("FS0", Num 18);
  ("G0", Num 19);
  ("GS0", Num 20);
  ("A0", Num 21);
  ("AS0", Num 22);
  ("B0", Num 23);
  ("C1", Num 24);
  ("CS1", Num 25);
  ("D1", Num 26);
  ("DS1", Num 27);
  ("E1", Num 28);
  ("F1", Num 29);
  ("FS1", Num 30);
  ("G1", Num 31);
  ("GS1", Num 32);
  ("A1", Num 33);
  ("AS1", Num 34);
  ("B1", Num 35);
  ("C2", Num 36);
  ("CS2", Num 37);
  ("D2", Num 38);
  ("DS2", Num 39);
  ("E2", Num 40);
  ("F2", Num 41);
  ("FS2", Num 42);
  ("G2", Num 43);
  ("GS2", Num 44);
  ("A2", Num 45);
  ("AS2", Num 46);
  ("B2", Num 47);
  ("C3", Num 48);
  ("CS3", Num 49);
  ("D3", Num 50);
  ("DS3", Num 51);
  ("E3", Num 52);
  ("F3", Num 53);
  ("FS3", Num 54);
  ("G3", Num 55);
  ("GS3", Num 56);
  ("A3", Num 57);
  ("AS3", Num 58);
  ("B3", Num 59);
  ("C4", Num 60);
  ("CS4", Num 61);
  ("D4", Num 62);
  ("DS4", Num 63);
  ("E4", Num 64);
  ("F4", Num 65);
  ("FS4", Num 66);
  ("G4", Num 67);
  ("GS4", Num 68);
  ("A4", Num 69);
  ("AS4", Num 70);
  ("B4", Num 71);
  ("C5", Num 72);
  ("CS5", Num 73);
  ("D5", Num 74);
  ("DS5", Num 75);
  ("E5", Num 76);
  ("F5", Num 77);
  ("FS5", Num 78);
  ("G5", Num 79);
  ("GS5", Num 80);
  ("A5", Num 81);
  ("AS5", Num 82);
  ("B5", Num 83);
  ("C6", Num 84);
  ("CS6", Num 85);
  ("D6", Num 86);
  ("DS6", Num 87);
  ("E6", Num 88);
  ("F6", Num 89);
  ("FS6", Num 90);
  ("G6", Num 91);
  ("GS6", Num 92);
  ("A6", Num 93);
  ("AS6", Num 94);
  ("B6", Num 95);
  ("C7", Num 96);
  ("CS7", Num 97);
  ("D7", Num 98);
  ("DS7", Num 99);
  ("E7", Num 100);
  ("F7", Num 101);
  ("FS7", Num 102);
  ("G7", Num 103);
  ("GS7", Num 104);
  ("A7", Num 105);
  ("AS7", Num 106);
  ("B7", Num 107);
  ("C8", Num 108);
  ("CS8", Num 109);
  ("D8", Num 110);
  ("DS8", Num 111);
  ("E8", Num 112);
  ("F8", Num 113);
  ("FS8", Num 114);
  ("G8", Num 115);
  ("GS8", Num 116);
  ("A8", Num 117);
  ("AS8", Num 118);
  ("B8", Num 119);
  ("C9", Num 120);
  ("CS9", Num 121);
  ("D9", Num 122);
  ("DS9", Num 123);
  ("E9", Num 124);
  ("F9", Num 125);
  ("FS9", Num 126);
  ("G9", Num 127);
  ("DB0", Alias "CS0");
  ("EB0", Alias "DS0");
  ("GB0", Alias "FS0");
  ("AB0", Alias "GS0");
  ("BB0", Alias "AS0");
  ("DB1", Alias "CS1");
  ("EB1", Alias "DS1");
  ("GB1", Alias "FS1");
  ("AB1", Alias "GS1");
  ("BB1", Alias "AS1");
  ("DB2", Alias "CS2");
  ("EB2", Alias "DS2");
  ("GB2", Alias "FS2");
  ("AB2", Alias "GS2");
  ("BB2", Alias "AS2");
  ("DB3", Alias "CS3");
  ("EB3", Alias "DS3");
  ("GB3", Alias "FS3");
  ("AB3", Alias "GS3");
  ("BB3", Alias "AS3");
  ("DB4", Alias "CS4");
  ("EB4", Alias "DS4");
  ("GB4", Alias "FS4");
  ("AB4", Alias "GS4");
  ("BB4", Alias "AS4");
  ("DB5", Alias "CS5");
  ("EB5", Alias "DS5");
  ("GB5", Alias "FS5");
  ("AB5", Alias "GS5");
  ("BB5", Alias "AS5");
  ("DB6", Alias "CS6");
  ("EB6", Alias "DS6");
  ("GB6", Alias "FS6");
  ("AB6", Alias "GS6");
  ("BB6", Alias "AS6");
  ("DB7", Alias "CS7");
  ("EB7", Alias "DS7");
  ("GB7", Alias "FS7");
  ("AB7", Alias "GS7");
  ("BB7", Alias "AS7");
  ("DB8", Alias "CS8");
  ("EB8", Alias "DS8");
  ("GB8", Alias "FS8");
  ("AB8", Alias "GS8");
  ("BB8", Alias "AS8");
  ("DB9", Alias "CS9");
  ("EB9", Alias "DS9");
  ("GB9", Alias "FS9");
  ("AB9", Alias "GS9")
].

(** [midi_sounds.h]. *)
Definition midi_sounds : list (string * MacroBody) := [
  ("GM_ACOUSTIC_PIANO", Num 1);
  ("GM_BRIGHT_PIANO", Num 2);
  ("GM_ELECTRIC_GRAND", Num 3);
  ("GM_HONKY_TONK_PIANO", Num 4);
  ("GM_ELECTRIC_PIANO_1", Num 5);
  ("GM_ELECTRIC_PIANO_2", Num 6);
  ("GM_HARPSICHORD", Num 7);
  ("GM_CLAVINET", Num 8);
  ("GM_CELESTA", Num 9);
  ("GM_GLOCKENSPIEL", Num 10);
  ("GM_MUSIC_BOX", Num 11);
  ("GM_VIBRAPHONE", Num 12);
  ("GM_MARIMBA", Num 13);
  ("GM_XYLOPHONE", Num 14);
  ("GM_TUBULAR_BELLS", Num 15);
  ("GM_DULCIMER", Num 16);
  ("GM_DRAWBAR_ORGAN", Num 17);
  ("GM_PERCUSSIVE_ORGAN", Num 18);
  ("GM_ROCK_ORGAN", Num 19);
  ("GM_CHURCH_ORGAN", Num 20);
  ("GM_REED_ORGAN", Num 21);
  ("GM_ACCORDION", Num 22);
  ("GM_HARMONICA", Num 23);
  ("GM_TANGO_ACCORDION", Num 24);
  ("GM_NYLON_GUITAR", Num 25);
  ("GM_STEEL_GUITAR", Num 26);
  ("GM_JAZZ_GUITAR", Num 27);
  ("GM_CLEAN_GUITAR", Num 28);
  ("GM_MUTED_GUITAR", Num 29);
  ("GM_OVERDRIVE_GUITAR", Num 30);
  ("GM_DISTORTION_GUITAR", Num 31);
  ("GM_GUITAR_HARMONICS", Num 32);
  ("GM_ACOUSTIC_BASS", Num 33);
  ("GM_FINGERED_BASS", Num 34);
  ("GM_PICKED_BASS", Num 35);
  ("GM_FRETLESS_BASS", Num 36);
  ("GM_SLAP_BASS_1", Num 37);
  ("GM_SLAP_BASS_2", Num 38);
  ("GM_SYNTH_BASS_1", Num 39);
  ("GM_SYNTH_BASS_2", Num 40);
  ("GM_VIOLIN", Num 41);
  ("GM_VIOLA", Num 42);
  ("GM_CELLO", Num 43);
  ("GM_CONTRABASS", Num 44);
  ("GM_TREMOLO_STRINGS", Num 45);
  ("GM_PIZZICATO_STRINGS", Num 46);
  ("GM_ORCHESTRAL_HARP", Num 47);
  ("GM_TIMPANI", Num 48);
  ("GM_STRING_ENSEMBLE_1", Num 49);
  ("GM_STRING_ENSEMBLE_2", Num 50);
  ("GM_SYNTH_STRINGS_1", Num 51);
  ("GM_SYNTH_STRINGS_2", Num 52);
  ("GM_CHOIR_AAHS", Num 53);
  ("GM_VOICE_OOHS", Num 54);
  ("GM_SYNTH_VOICE", Num 55);
  ("GM_ORCHESTRA_HIT", Num 56);
  ("GM_TRUMPET", Num 57);
  ("GM_TROMBONE", Num 58);
  ("GM_TUBA", Num 59);
  ("GM_MUTED_TRUMPET", Num 60);
  ("GM_FRENCH_HORN", Num 61);
  ("GM_BRASS_SECTION", Num 62);
  ("GM_SYNTH_BRASS_1", Num 63);
  ("GM_SYNTH_BRASS_2", Num 64);
  ("GM_SOPRANO_SAX", Num 65);
  ("GM_ALTO_SAX", Num 66);
  ("GM_TENOR_SAX", Num 67);
  ("GM_BARITONE_SAX", Num 68);
  ("GM_OBOE", Num 69);
  ("GM_ENGLISH_HORN", Num 70);
  ("GM_BASSOON", Num 71);
  ("GM_CLARINET", Num 72);
  ("GM_PICCOLO", Num 73);
  ("GM_FLUTE", Num 74);
  ("GM_RECORDER", Num 75);
  ("GM_PAN_FLUTE", Num 76);
  ("GM_BLOWN_BOTTLE", Num 77);
  ("GM_SHAKUHACHI", Num 78);
  ("GM_WHISTLE", Num 79);
  ("GM_OCARINA", Num 80);
  ("GM_SQUARE_LEAD", Num 81);
  ("GM_SAWTOOTH_LEAD", Num 82);
  ("GM_CALLIOPE_LEAD", Num 83);
  ("GM_CHIFF_LEAD", Num 84);
  ("GM_CHARANG_LEAD", Num 85);
  ("GM_VOICE_LEAD", Num 86);
  ("GM_FIFTHS_LEAD", Num 87);
  ("GM_BASS_LEAD", Num 88);
  ("GM_NEW_AGE_PAD", Num 89);
  ("GM_WARM_PAD", Num 90);
  ("GM_POLYSYNTH_PAD", Num 91);
  ("GM_CHOIR_PAD", Num 92);
  ("GM_BOWED_PAD", Num 93);
  ("GM_METALLIC_PAD", Num 94);
  ("GM_HALO_PAD", Num 95);
  ("GM_SWEEP_PAD", Num 96);
  ("GM_RAIN_FX", Num 97);
  ("GM_SOUNDTRACK_FX", Num 98);
  ("GM_CRYSTAL_FX", Num 99);
  ("GM_ATMOSPHERE_FX", Num 100);
  ("GM_BRIGHTNESS_FX", Num 101);
  ("GM_GOBLINS_FX", Num 102);
  ("GM_ECHOES_FX", Num 103);
  ("GM_SCI_FI_FX", Num 104);
  ("GM_SITAR", Num 105);
  ("GM_BANJO", Num 106);
  ("GM_SHAMISEN", Num 107);
  ("GM_KOTO", Num 108);
  ("GM_KALIMBA", Num 109);
  ("GM_BAGPIPE", Num 110);
  ("GM_FIDDLE", Num 111);
  ("GM_SHANAI", Num 112);
  ("GM_TINKLE_BELL", Num 113);
  ("GM_AGOGO", Num 114);
  ("GM_STEEL_DRUMS", Num 115);
  ("GM_WOODBLOCK", Num 116);
  ("GM_TAIKO_DRUM", Num 117);
  ("GM_MELODIC_TOM", Num 118);
  ("GM_SYNTH_DRUM", Num 119);
  ("GM_REVERSE_CYMBAL", Num 120);
  ("GM_GUITAR_FRET_NOISE", Num 121);
  ("GM_BREATH_NOISE", Num 122);
  ("GM_SEASHORE", Num 123);
  ("GM_BIRD_TWEET", Num 124);
  ("GM_TELEPHONE_RING", Num 125);
  ("GM_HELICOPTER", Num 126);
  ("GM_APPLAUSE", Num 127);
  ("GM_GUNSHOT", Num 128);
  ("GM_SUSTAINED_STRINGS", Alias "GM_STRING_ENSEMBLE_1");
  ("GM_SUSTAINED_ORGAN", Alias "GM_CHURCH_ORGAN");
  ("GM_SUSTAINED_PAD", Alias "GM_NEW_AGE_PAD");
  ("GM_SUSTAINED_BRASS", Alias "GM_BRASS_SECTION");
  ("GM_SUSTAINED_CHOIR", Alias "GM_CHOIR_AAHS")
].


Close Scope string_scope.

(** ** Checks *)

(** The macro name of a note: the name [detect.hpp] prints, with the
    sharp sign spelled [S], followed by the octave. *)
Fixpoint sharpToS (s : string) : string :=
  match s with
  | EmptyString => EmptyString
  | String c rest => String (if Ascii.eqb c "#"%char then "S"%char else c) (sharpToS rest)
  end.

Definition noteMacro (pitch : nat) (octave : Z) : string :=
  (sharpToS (nth pitch noteNames EmptyString) ++ decimal octave)%string.

(** Every note macro of octaves 0 to 9, up to MIDI 127, is
    [12 * (octave + 1) + pitch], where [pitch] indexes [noteNames]. *)
Definition naturalNotesOk : bool :=
  forallb (fun o =>
    forallb (fun p =>
      let v := 12 * (Z.of_nat o + 1) + Z.of_nat p in
      if v <=? 127 then
        match expand midinotes (noteMacro p (Z.of_nat o)) with
        | Some w => w =? v
        | None => false
        end
      else true) (seq 0 12)) (seq 0 10).

Lemma naturalNotesOk_true : naturalNotesOk = true.
Proof. vm_compute. reflexivity. Qed.

Lemma midinotes_natural (p o : nat) :
  (p < 12)%nat -> (o < 10)%nat -> 12 * (Z.of_nat o + 1) + Z.of_nat p <= 127 ->
  expand midinotes (noteMacro p (Z.of_nat o)) = Some (12 * (Z.of_nat o + 1) + Z.of_nat p).
Proof.
  intros Hp Ho Hv. pose proof naturalNotesOk_true as H. unfold naturalNotesOk in H.
  rewrite forallb_forall in H. specialize (H o (proj2 (in_seq 10 0 o) (conj (Nat.le_0_l o) Ho))).
  rewrite forallb_forall in H. specialize (H p (proj2 (in_seq 12 0 p) (conj (Nat.le_0_l p) Hp))).
  cbv zeta in H. destruct (Z.leb_spec (12 * (Z.of_nat o + 1) + Z.of_nat p) 127); [|lia].
  destruct (expand _ _); [|discriminate]. apply Z.eqb_eq in H. now subst.
Qed.

(** The flat spellings: [Db], [Eb], [Gb], [Ab], [Bb] of each octave are
    the sharps a semitone below ([C#], [D#], [F#], [G#], [A#]), except at
    the top: there is no [BB9], and [AB9] names [GS9], which the table
    never defines (G9 = 127 is the last note), so [AB9] expands to
    nothing. *)
Lemma midinotes_flats :
  forallb (fun '(flat, sharp) =>
    forallb (fun o =>
      match expand midinotes (flat ++ decimal (Z.of_nat o))%string with
      | Some v => match expand midinotes (sharp ++ decimal (Z.of_nat o))%string with
                  | Some w => Z.eqb v w
                  | None => false
                  end
      | None => Nat.eqb o 9 && String.eqb flat "AB" || Nat.eqb o 9 && String.eqb flat "BB"
      end) (seq 0 10))
    [("DB", "CS"); ("EB", "DS"); ("GB", "FS"); ("AB", "GS"); ("BB", "AS")]%string = true.
Proof. vm_compute. reflexivity. Qed.

Lemma midinotes_AB9_undefined : lookupMacro midinotes "AB9" = Some (Alias "GS9") /\
  lookupMacro midinotes "GS9" = None /\ expand midinotes "AB9" = None.
Proof. vm_compute. repeat split. Qed.

(** The 128 programs are numbered 1 to 128 in file order, and the five
    aliases name programs of the table. *)
Lemma midi_sounds_programs :
  map snd (firstn 128 midi_sounds) = map (fun k => Num (Z.of_nat k)) (seq 1 128) /\
  forallb (fun '(_, b) => match b with
                         | Alias m => match expand midi_sounds m with Some _ => true | None => false end
                         | Num _ => false end) (skipn 128 midi_sounds) = true /\
  List.length midi_sounds = 133%nat.
Proof. vm_compute. repeat split. Qed.

(** The constants [playNote] uses are the table's: [C5], [GM_ROCK_ORGAN],
    and [MIDI_A4] (main.cpp) is [A4]. *)
Lemma tables_match_playNote :
  expand midinotes "C5" = Some Tracker.C5 /\
  expand midinotes "A4" = Some Tracker.MIDI_A4 /\
  expand midi_sounds "GM_ROCK_ORGAN" = Some Tracker.GM_ROCK_ORGAN.
Proof. vm_compute. repeat split. Qed.

End Tables.
